(** * MediCall backend (server/index.js): a shallow embedding and its properties

    The server keeps one JSON document in memory ([db]) and a token map
    ([sessions]).  This file embeds the helper functions of
    [server/index.js] and its route handlers as Rocq functions over a small
    model of JavaScript values, and proves the properties the specification
    states about them.

    Conventions of the model:
    - a JavaScript string is the list of its UTF-16 code units;
    - a JavaScript number is an exact rational, NaN, Infinity or -Infinity:
      the rounding of doubles, and the overflow of an operation on finite
      numbers, are outside the model;
    - memory is unbounded and an array has no maximal length: a loop runs
      until its test fails, and for ever when it never does;
    - arrays and objects are trees, as [JSON.parse] builds them: no
      property is a function, and [===] on two arrays or objects is
      reference identity; every comparison the server makes is between a
      stored value and a freshly parsed one, hence [false];
    - a conversion to a string or a number that JavaScript refuses with a
      TypeError (an object with a [toString] key of its own) is an
      exception in the model too, and so are the other TypeErrors of the
      handlers; an exception that escapes a handler leaves the document as
      it stands at the throw;
    - [db.users], [db.families], [db.members] and [db.logs] are arrays of
      records with the fields of the data model;
    - [crypto.randomUUID()], [createToken()] and [new Date()] are read from
      a per-request environment, and the request to the call service
      settles. *)

From Stdlib Require Import String Ascii DecimalString.
From Stdlib Require Import ZArith NArith QArith Qround Bool Lia List.
Import ListNotations.
Close Scope Q_scope.

Set Implicit Arguments.
Set Warnings "-register-all".

(** ** Strings *)

Definition jsstring := list N.

(** The code units of an ASCII literal. *)
Definition lit (s : string) : jsstring :=
  List.map N_of_ascii (list_ascii_of_string s).

Definition jsstring_eqb (a b : jsstring) : bool :=
  if list_eq_dec N.eq_dec a b then true else false.

(** WhiteSpace and LineTerminator code points, the set [String.prototype.trim]
    and [parseInt] strip. *)
Definition isWhiteSpace (c : N) : bool :=
  ((c =? 9) || (c =? 10) || (c =? 11) || (c =? 12) || (c =? 13) || (c =? 32)
   || (c =? 160) || (c =? 5760) || ((8192 <=? c) && (c <=? 8202))
   || (c =? 8232) || (c =? 8233) || (c =? 8239) || (c =? 8287)
   || (c =? 12288) || (c =? 65279))%N.

(** [\d] without the unicode flag: ASCII digits only. *)
Definition isDigit (c : N) : bool := ((48 <=? c) && (c <=? 57))%N.

Fixpoint dropWhile (p : N -> bool) (s : jsstring) : jsstring :=
  match s with
  | [] => []
  | c :: rest => if p c then dropWhile p rest else s
  end.

Fixpoint takeWhile (p : N -> bool) (s : jsstring) : jsstring :=
  match s with
  | [] => []
  | c :: rest => if p c then c :: takeWhile p rest else []
  end.

Definition trimStart (s : jsstring) : jsstring := dropWhile isWhiteSpace s.

Definition trim (s : jsstring) : jsstring :=
  rev (trimStart (rev (trimStart s))).

Definition startsWith (s prefix : jsstring) : bool :=
  jsstring_eqb (firstn (length prefix) s) prefix.

(** [s.slice(-n)]: the last [n] code units, all of [s] when it is shorter. *)
Definition sliceLast (n : nat) (s : jsstring) : jsstring :=
  skipn (length s - n) s.

(** [arr.join(sep)] on already stringified elements. *)
Fixpoint join (sep : jsstring) (parts : list jsstring) : jsstring :=
  match parts with
  | [] => []
  | [x] => x
  | x :: rest => x ++ sep ++ join sep rest
  end.

(** ** Numbers and values *)

Inductive JsNum :=
| Fin (q : Q)
| NaN
| Infinity
| NegInfinity.

Inductive JsVal :=
| JUndefined
| JNull
| JBool (b : bool)
| JNum (n : JsNum)
| JStr (s : jsstring)
| JArr (elems : list JsVal)
| JObj (props : list (jsstring * JsVal)).

Definition jint (z : Z) : JsVal := JNum (Fin (inject_Z z)).
Definition jstr (s : string) : JsVal := JStr (lit s).

(** [a < b] on numbers. *)
Definition num_lt (a b : JsNum) : bool :=
  match a, b with
  | Fin x, Fin y => match (x ?= y)%Q with Lt => true | _ => false end
  | NegInfinity, Fin _ | NegInfinity, Infinity | Fin _, Infinity => true
  | _, _ => false
  end.

(** [a <= b] on numbers. *)
Definition num_le (a b : JsNum) : bool :=
  match a, b with
  | Fin x, Fin y => match (x ?= y)%Q with Gt => false | _ => true end
  | NegInfinity, Fin _ | NegInfinity, Infinity | Fin _, Infinity => true
  | Infinity, Infinity | NegInfinity, NegInfinity => true
  | _, _ => false
  end.

Definition num_eq (a b : JsNum) : bool :=
  match a, b with
  | Fin x, Fin y => Qeq_bool x y
  | Infinity, Infinity | NegInfinity, NegInfinity => true
  | _, _ => false
  end.

Definition num_add (a b : JsNum) : JsNum :=
  match a, b with
  | Fin x, Fin y => Fin (x + y)
  | NaN, _ | _, NaN => NaN
  | Infinity, NegInfinity | NegInfinity, Infinity => NaN
  | Infinity, _ | _, Infinity => Infinity
  | NegInfinity, _ | _, NegInfinity => NegInfinity
  end.

Definition num_neg (a : JsNum) : JsNum :=
  match a with
  | Fin x => Fin (- x)
  | NaN => NaN
  | Infinity => NegInfinity
  | NegInfinity => Infinity
  end.







(** [Math.max(a, b)]: NaN when either argument is NaN. *)
Definition Math_max (a b : JsNum) : JsNum :=
  match a, b with
  | Fin x, Fin y => match (x ?= y)%Q with Lt => Fin y | _ => Fin x end
  | NaN, _ | _, NaN => NaN
  | Infinity, _ | _, Infinity => Infinity
  | NegInfinity, other | other, NegInfinity => other
  end.

Definition Number_isFinite (a : JsNum) : bool :=
  match a with
  | Fin _ => true
  | _ => false
  end.

(** ToBoolean. *)
Definition truthy (v : JsVal) : bool :=
  match v with
  | JUndefined | JNull => false
  | JBool b => b
  | JNum (Fin q) => negb (Qeq_bool q 0)
  | JNum NaN => false
  | JNum _ => true
  | JStr s => match s with [] => false | _ => true end
  | JArr _ | JObj _ => true
  end.

(** [a || b] and [a ?? b]. *)
Definition js_or (a b : JsVal) : JsVal := if truthy a then a else b.

Definition nullish (a b : JsVal) : JsVal :=
  match a with
  | JUndefined | JNull => b
  | _ => a
  end.

(** [a === b]. *)
Definition strict_eq (a b : JsVal) : bool :=
  match a, b with
  | JUndefined, JUndefined => true
  | JNull, JNull => true
  | JBool x, JBool y => Bool.eqb x y
  | JNum x, JNum y => num_eq x y
  | JStr x, JStr y => jsstring_eqb x y
  | _, _ => false
  end.

(** [obj.name] for a data property of a parsed JSON value; primitives and
    arrays have no such property. *)
Fixpoint lookup (name : jsstring) (props : list (jsstring * JsVal)) : JsVal :=
  match props with
  | [] => JUndefined
  | (k, v) :: rest => if jsstring_eqb k name then v else lookup name rest
  end.

(** JSON.parse keeps the last of several equal keys. *)
Definition prop (v : JsVal) (name : string) : JsVal :=
  match v with
  | JObj props => lookup (lit name) (rev props)
  | _ => JUndefined
  end.

(** The object has a key [name] of its own. *)
Definition hasOwn (name : string) (props : list (jsstring * JsVal)) : bool :=
  existsb (fun kv => jsstring_eqb (fst kv) (lit name)) props.

(** [arr[i]] on a JavaScript array held as a list. *)
Definition arr_get (l : list JsVal) (i : Z) : JsVal :=
  if (i <? 0)%Z then JUndefined else nth (Z.to_nat i) l JUndefined.

(** [v.length] (with [?.] semantics on null and undefined, where the source
    uses it; the plain accesses are all guarded by a truthiness test). *)
Definition js_length (v : JsVal) : JsVal :=
  match v with
  | JArr l => jint (Z.of_nat (length l))
  | JStr s => jint (Z.of_nat (length s))
  | JObj _ => prop v "length"
  | _ => JUndefined
  end.

(** [v?.[0]]. *)
Definition js_first (v : JsVal) : JsVal :=
  match v with
  | JArr l => arr_get l 0
  | JStr (c :: _) => JStr [c]
  | JObj _ => prop v "0"
  | _ => JUndefined
  end.

(** ** Completions

    How the evaluation of an expression or of a call ends: with a value,
    with an exception (every one the handlers can raise on JSON data is a
    TypeError), or not at all. *)

Inductive Completion (A : Type) : Type :=
| Returns (a : A)
| Throws
| Diverges.

Arguments Throws {A}.
Arguments Diverges {A}.

Definition bind {A B : Type} (c : Completion A) (k : A -> Completion B)
  : Completion B :=
  match c with
  | Returns a => k a
  | Throws => Throws
  | Diverges => Diverges
  end.

Notation "x <- c ;; k" := (bind c (fun x => k))
  (at level 61, c at next level, right associativity).

(** [arr.map(f)] for an [f] that may not return. *)
Definition traverse {A B : Type} (f : A -> Completion B)
  : list A -> Completion (list B) :=
  fix go (l : list A) : Completion (list B) :=
    match l with
    | [] => Returns []
    | x :: rest => y <- f x ;; ys <- go rest ;; Returns (y :: ys)
    end.

(** [Array.prototype.join]: null and undefined elements print as the empty
    string, every other element as [str] prints it. *)
Definition joinWith (str : JsVal -> Completion jsstring) (sep : jsstring)
           (vals : list JsVal) : Completion jsstring :=
  parts <- traverse (fun x => match x with
                              | JUndefined | JNull => Returns []
                              | _ => str x
                              end) vals ;;
  Returns (join sep parts).

(** ** Conversions between numbers and strings

    [Number::toString] and the StringToNumber grammar are kept abstract:
    every definition below is parametric in them, and every theorem holds
    for whatever they are. *)

Class NumberConv := {
  numberToString : Q -> jsstring;
  stringToNumber : jsstring -> JsNum
}.

Section Coercions.
Context {NC : NumberConv}.

(** [String(v)] and the conversion of a template literal.  An array goes
    through [join]; an object goes through [Object.prototype.toString]
    unless a key [toString] of its own hides it: the value under that key
    is not callable, [valueOf] returns the object itself, and the conversion
    ends in a TypeError. *)
Fixpoint ToString (v : JsVal) : Completion jsstring :=
  match v with
  | JUndefined => Returns (lit "undefined")
  | JNull => Returns (lit "null")
  | JBool true => Returns (lit "true")
  | JBool false => Returns (lit "false")
  | JNum (Fin q) => Returns (numberToString q)
  | JNum NaN => Returns (lit "NaN")
  | JNum Infinity => Returns (lit "Infinity")
  | JNum NegInfinity => Returns (lit "-Infinity")
  | JStr s => Returns s
  | JArr l => joinWith ToString (lit ",") l
  | JObj props =>
      if hasOwn "toString" props then Throws
      else Returns (lit "[object Object]")
  end.

(** [vals.join(sep)] on an array of values. *)
Definition joinVals (sep : jsstring) (vals : list JsVal) : Completion jsstring :=
  joinWith ToString sep vals.

(** ToPrimitive: arrays and objects go through [toString], whatever the
    hint ([valueOf] returns the object itself). *)
Definition ToPrimitive (v : JsVal) : Completion JsVal :=
  match v with
  | JArr _ | JObj _ => s <- ToString v ;; Returns (JStr s)
  | _ => Returns v
  end.

Definition ToNumber (v : JsVal) : Completion JsNum :=
  p <- ToPrimitive v ;;
  Returns (match p with
           | JUndefined => NaN
           | JNull => Fin 0
           | JBool true => Fin 1
           | JBool false => Fin 0
           | JNum n => n
           | JStr s => stringToNumber s
           | _ => NaN
           end).

(** [a + b]: both operands are made primitive, then concatenated as soon
    as one of them is a string, and added as numbers otherwise. *)
Definition js_add (a b : JsVal) : Completion JsVal :=
  pa <- ToPrimitive a ;;
  pb <- ToPrimitive b ;;
  match pa, pb with
  | JStr x, _ => y <- ToString pb ;; Returns (JStr (x ++ y))
  | _, JStr y => x <- ToString pa ;; Returns (JStr (x ++ y))
  | _, _ => x <- ToNumber pa ;; y <- ToNumber pb ;; Returns (JNum (num_add x y))
  end.

(** [v > n] and [v < n] against a number [n]. *)
Definition js_gt (v : JsVal) (n : Q) : Completion bool :=
  x <- ToNumber v ;; Returns (num_lt (Fin n) x).

Definition js_lt (v : JsVal) (n : Q) : Completion bool :=
  x <- ToNumber v ;; Returns (num_lt x (Fin n)).

(** [-v]. *)
Definition js_neg (v : JsVal) : Completion JsVal :=
  x <- ToNumber v ;; Returns (JNum (num_neg x)).

Definition digitsValue (ds : jsstring) : Z :=
  fold_left (fun acc d => (acc * 10 + (Z.of_N d - 48))%Z) ds 0%Z.

(** [parseInt(s, 10)] on a string. *)
Definition parseDecimal (s : jsstring) : JsNum :=
  let s := trimStart s in
  let '(negative, rest) :=
    match s with
    | 45%N :: r => (true, r)
    | 43%N :: r => (false, r)
    | _ => (false, s)
    end in
  match takeWhile isDigit rest with
  | [] => NaN
  | ds => Fin (inject_Z (if negative then - digitsValue ds else digitsValue ds))
  end.

(** [parseInt(v, 10)]. *)
Definition parseInt (v : JsVal) : Completion JsNum :=
  s <- ToString v ;; Returns (parseDecimal s).

(** [`text ${value} ...`]: the pieces of a template literal, converted and
    concatenated from left to right. *)
Inductive Piece :=
| Text (s : string)
| Hole (v : JsVal).

Fixpoint template (pieces : list Piece) : Completion jsstring :=
  match pieces with
  | [] => Returns []
  | Text s :: rest => tail <- template rest ;; Returns (lit s ++ tail)
  | Hole v :: rest => s <- ToString v ;; tail <- template rest ;; Returns (s ++ tail)
  end.

(** ** The helpers of server/index.js *)

Definition normalizeTimesPerDay (value : JsVal) : Completion JsNum :=
  let reparsed :=
    parsed <- parseInt value ;;
    Returns (if Number_isFinite parsed && num_lt (Fin 0) parsed
             then parsed else Fin 1) in
  match value with
  | JNum n => if num_lt (Fin 0) n then Returns n else reparsed
  | _ => reparsed
  end.

Definition formatPhoneNumber (phone : JsVal) : Completion jsstring :=
  if negb (truthy phone) then Returns []
  else
    s <- ToString phone ;;
    let digits := filter isDigit s in
    Returns
      match digits with
      | [] => []
      | _ =>
          if startsWith digits (lit "91") && (12 <=? length digits)
          then lit "+" ++ firstn 12 digits
          else
            let lastTen := sliceLast 10 digits in
            match lastTen with
            | [] => []
            | _ => lit "+91" ++ lastTen
            end
      end.

(** The regular expression [/^([01]\d|2[0-3]):([0-5]\d)$/]: the two capture
    groups on a match. *)
Definition execTimeRegex (s : jsstring) : option (jsstring * jsstring) :=
  match s with
  | [h1; h2; colon; m1; m2] =>
      if ((((h1 =? 48) || (h1 =? 49)) && isDigit h2)
          || ((h1 =? 50) && (48 <=? h2) && (h2 <=? 51)))
         && (colon =? 58)
         && ((48 <=? m1) && (m1 <=? 53)) && isDigit m2
      then Some ([h1; h2], [m1; m2])
      else None
  | _ => None
  end%N.

Definition normalizeTime (value : JsVal) : jsstring :=
  let fallback := lit "08:00" in
  match value with
  | JStr s =>
      if negb (truthy value) then fallback
      else match execTimeRegex (trim s) with
           | Some (hh, mm) => hh ++ lit ":" ++ mm
           | None => fallback
           end
  | _ => fallback
  end.

(** The loop of [normalizeDoseTimes]: [i] is the loop counter, [result] the
    array built so far.  [fuel] bounds the number of times the test is
    made; [None] when it runs out before the test fails. *)
Fixpoint doseLoop (fuel : nat) (count : JsNum) (provided : list JsVal)
         (i : Z) (result : list jsstring) : option (list jsstring) :=
  match fuel with
  | O => None
  | S fuel' =>
      if num_lt (Fin (inject_Z i)) count
      then
        let candidate :=
          nullish (arr_get provided i)
            (nullish (arr_get (List.map JStr result) (i - 1)) (jstr "08:00")) in
        doseLoop fuel' count provided (i + 1) (result ++ [normalizeTime candidate])
      else Some result
  end.

(** How many times the test of [for (let i = 0; i < count; i++)] can
    succeed: no number of times bounds it when [count] is Infinity. *)
Definition iterations (count : JsNum) : option nat :=
  match count with
  | Fin q => Some (Z.to_nat (Qceiling q))
  | NaN | NegInfinity => Some O
  | Infinity => None
  end.

Definition normalizeDoseTimes (timesPerDay incoming : JsVal)
  : Completion (list jsstring) :=
  count <- normalizeTimesPerDay timesPerDay ;;
  let provided := match incoming with JArr l => l | _ => [] end in
  match iterations count with
  | Some n =>
      match doseLoop (S n) count provided 0 [] with
      | Some result => Returns result
      | None => Diverges
      end
  | None => Diverges
  end.




End Coercions.

(** ** The persisted document

    One record per entity of [db.json].  A field the server only copies or
    inspects dynamically holds a [JsVal] ([JUndefined] when absent); the ids
    the server generates itself are strings.  Properties the server never
    reads are not represented. *)

Module User.
Record t := mk {
  id : jsstring;
  username : JsVal;
  password : JsVal;
  phone : JsVal;
  role : jsstring;
  familyId : jsstring
}.
End User.

Module Family.
Record t := mk {
  id : jsstring;
  headUserIds : list jsstring
}.
End Family.

Module Medication.
Record t := mk {
  id : JsVal;
  name : JsVal;
  dosage : JsVal;
  supply : JsVal;
  consumedCount : JsVal;
  timesPerDay : JsVal;
  doseTimes : JsVal;
  intakeTime : JsVal
}.

Definition with_schedule (m : t) (tpd times : JsVal) : t :=
  mk (id m) (name m) (dosage m) (supply m) (consumedCount m) tpd times
     (intakeTime m).

Definition with_stock (m : t) (newSupply newConsumed : JsVal) : t :=
  mk (id m) (name m) (dosage m) newSupply newConsumed (timesPerDay m)
     (doseTimes m) (intakeTime m).
End Medication.

Module Member.
Record t := mk {
  id : jsstring;
  familyId : jsstring;
  name : JsVal;
  ageGroup : JsVal;
  phone : JsVal;
  medications : list Medication.t
}.

Definition with_medications (m : t) (meds : list Medication.t) : t :=
  mk (id m) (familyId m) (name m) (ageGroup m) (phone m) meds.
End Member.

Module Log.
Record t := mk {
  id : jsstring;
  familyId : jsstring;
  timestamp : jsstring;
  message : JsVal
}.
End Log.

Record Db := mkDb {
  users : list User.t;
  families : list Family.t;
  members : list Member.t;
  logs : list Log.t
}.

Definition with_members (db : Db) (ms : list Member.t) : Db :=
  mkDb (users db) (families db) ms (logs db).

Definition with_logs (db : Db) (ls : list Log.t) : Db :=
  mkDb (users db) (families db) (members db) ls.

(** The session store, a [Map] from token to user id in insertion order. *)
Definition Sessions := list (jsstring * jsstring).

Fixpoint sessions_get (token : jsstring) (s : Sessions) : option jsstring :=
  match s with
  | [] => None
  | (k, v) :: rest => if jsstring_eqb k token then Some v else sessions_get token rest
  end.

Fixpoint sessions_set (token userId : jsstring) (s : Sessions) : Sessions :=
  match s with
  | [] => [(token, userId)]
  | (k, v) :: rest =>
      if jsstring_eqb k token then (k, userId) :: rest
      else (k, v) :: sessions_set token userId rest
  end.

Definition sessions_delete (token : jsstring) (s : Sessions) : Sessions :=
  filter (fun kv => negb (jsstring_eqb (fst kv) token)) s.

Record World := mkWorld {
  db : Db;
  sessions : Sessions
}.

(** What a request reads from outside the process: the successive results
    of [crypto.randomUUID()] and of [new Date().toISOString()], the token
    [createToken()] draws, and the wall-clock reading of
    [currentTimeHHMM()]. *)
Record Env := mkEnv {
  randomUUID : nat -> jsstring;
  createToken : jsstring;
  nowISO : nat -> jsstring;
  currentTimeHHMM : jsstring
}.

(** ** Responses *)

Record UserView := mkUserView {
  view_id : jsstring;
  view_username : JsVal;
  view_role : jsstring;
  view_phone : JsVal;
  view_familyId : jsstring
}.

Definition viewOf (u : User.t) : UserView :=
  mkUserView (User.id u) (User.username u) (User.role u) (User.phone u)
             (User.familyId u).

Record ConsumeView := mkConsumeView {
  cv_memberId : jsstring;
  cv_medId : jsstring;
  cv_supply : JsVal;
  cv_consumedCount : JsVal;
  cv_timesPerDay : JsVal;
  cv_doseTimes : JsVal
}.

Record ReminderView := mkReminderView {
  rv_memberId : jsstring;
  rv_memberName : JsVal;
  rv_ageGroup : JsVal;
  rv_medicationId : JsVal;
  rv_medicationName : JsVal;
  rv_timesPerDay : JsVal;
  rv_doseTimes : JsVal;
  rv_scheduledDoseTime : JsVal;
  rv_reminderTime : jsstring;
  events : list jsstring
}.

Inductive Body :=
| BError (error : jsstring)
| BAuth (token : jsstring) (user : UserView)
| BOk
| BUser (user : UserView)
| BMembers (ms : list Member.t)
| BMember (m : Member.t)
| BConsume (v : ConsumeView)
| BLog (l : Log.t)
| BReminder (v : ReminderView)
| BUncaught.

Record Response := mkResponse {
  status : nat;
  body : Body
}.

Definition json (b : Body) : Response := mkResponse 200 b.
Definition fail (code : nat) (msg : string) : Response :=
  mkResponse code (BError (lit msg)).

(** The framework's answer to an exception that escapes a synchronous
    handler. *)
Definition uncaught : Response := mkResponse 500 BUncaught.

(** How the serving of a request ends: with a response and the state it
    leaves; with an exception escaping the handler, and the state as it
    stands at the throw; or never, the handler being caught in a loop. *)
Inductive Outcome (S : Type) : Type :=
| Answered (r : Response) (s : S)
| Thrown (s : S)
| Hung.

Arguments Hung {S}.

(** The state a request leaves behind, when it ends. *)
Definition after {S : Type} (o : Outcome S) : option S :=
  match o with
  | Answered _ s | Thrown s => Some s
  | Hung => None
  end.

(** The evaluation of [c] by a handler while the state is [s]. *)
Definition attempt {A S : Type} (c : Completion A) (s : S) (k : A -> Outcome S)
  : Outcome S :=
  match c with
  | Returns a => k a
  | Throws => Thrown s
  | Diverges => Hung
  end.

Notation "x <-[ s ] c ;; k" := (attempt c s (fun x => k))
  (at level 61, c at next level, right associativity).

(** [arr.find(p)] and [arr.findIndex(p)]. *)
Fixpoint findIndex {A : Type} (p : A -> bool) (l : list A) : option nat :=
  match l with
  | [] => None
  | x :: rest => if p x then Some O else option_map S (findIndex p rest)
  end.

(** In-place update of the element [arr.find(p)] returns. *)
Fixpoint updateFirst {A : Type} (p : A -> bool) (f : A -> A) (l : list A) : list A :=
  match l with
  | [] => []
  | x :: rest => if p x then f x :: rest else x :: updateFirst p f rest
  end.

(** [arr[idx] = v] for an index [findIndex] returned. *)
Fixpoint setAt {A : Type} (idx : nat) (v : A) (l : list A) : list A :=
  match idx, l with
  | _, [] => []
  | O, _ :: rest => v :: rest
  | S i, x :: rest => x :: setAt i v rest
  end.

(** [auth.split(' ')]. *)
Fixpoint splitSpace (s : jsstring) (current : jsstring) : list jsstring :=
  match s with
  | [] => [current]
  | c :: rest =>
      if (c =? 32)%N then current :: splitSpace rest []
      else splitSpace rest (current ++ [c])
  end.

(** [arr.filter(Boolean)] after a [map] to found-or-undefined, and on
    strings. *)
Fixpoint compact {A : Type} (l : list (option A)) : list A :=
  match l with
  | [] => []
  | Some x :: rest => x :: compact rest
  | None :: rest => compact rest
  end.

Definition nonEmptyString (s : jsstring) : bool :=
  match s with
  | [] => false
  | _ => true
  end.

(** The JSON [triggerCallReminder] posts to the call service. *)
Record CallPayload := mkCallPayload {
  phone_number : jsstring;
  user_name : JsVal;
  user_type : jsstring;
  medicine_name : JsVal;
  medicine_dosage : JsVal;
  next_dose_time : JsVal;
  head_of_family_phones : list jsstring
}.

Section Server.
Context {NC : NumberConv}.

(** ** Startup *)

(** [v && v.length > 0]. *)
Definition nonEmpty (v : JsVal) : Completion bool :=
  if truthy v then js_gt (js_length v) 0 else Returns false.

Definition timesArray (times : list jsstring) : JsVal := JArr (List.map JStr times).

Definition sanitizeMedication (med : Medication.t) : Completion Medication.t :=
  timesPerDay <-
    normalizeTimesPerDay
      (js_or (Medication.timesPerDay med)
             (js_or (js_length (Medication.doseTimes med)) (jint 1))) ;;
  filled <- nonEmpty (Medication.doseTimes med) ;;
  times <-
    normalizeDoseTimes (JNum timesPerDay)
      (if filled then Medication.doseTimes med
       else JArr [Medication.intakeTime med]) ;;
  Returns (Medication.with_schedule med (JNum timesPerDay) (timesArray times)).

Definition sanitizeUser (user : User.t) : Completion User.t :=
  phone <- formatPhoneNumber (User.phone user) ;;
  Returns (User.mk (User.id user) (User.username user) (User.password user)
                   (JStr phone) (User.role user) (User.familyId user)).

Definition sanitizeMember (member : Member.t) : Completion Member.t :=
  phone <- formatPhoneNumber (Member.phone member) ;;
  meds <- traverse sanitizeMedication (Member.medications member) ;;
  Returns (Member.mk (Member.id member) (Member.familyId member)
                     (Member.name member) (Member.ageGroup member)
                     (JStr phone) meds).

(** [sanitizeDb] runs once, when the module is loaded: an exception there
    ends the process before it listens. *)
Definition sanitizeDb (d : Db) : Completion Db :=
  us <- traverse sanitizeUser (users d) ;;
  ms <- traverse sanitizeMember (members d) ;;
  Returns (mkDb us (families d) ms (logs d)).

(** ** Authentication *)

Definition isHeadOfFamily (user : User.t) : bool :=
  jsstring_eqb (User.role user) (lit "HEAD_OF_FAMILY").

(** [requireAuth]: the user and token on success, otherwise the sessions
    left behind by the 401 path. *)
Definition requireAuth (w : World) (authorization : option jsstring)
  : (User.t * jsstring) + Sessions :=
  let auth := match authorization with Some a => a | None => [] end in
  match nth_error (splitSpace auth []) 1 with
  | None | Some [] => inr (sessions w)
  | Some token =>
      match sessions_get token (sessions w) with
      | None => inr (sessions w)
      | Some userId =>
          match find (fun u => jsstring_eqb (User.id u) userId) (users (db w)) with
          | None => inr (sessions_delete token (sessions w))
          | Some user => inl (user, token)
          end
      end
  end.

Definition register (env : Env) (w : World) (reqBody : JsVal) : Outcome World :=
  let username := prop reqBody "username" in
  let password := prop reqBody "password" in
  let isHead := match prop reqBody "isHead" with JUndefined => JBool true | v => v end in
  if negb (truthy username) || negb (truthy password)
  then Answered (fail 400 "Username and password are required") w
  else if existsb (fun u => strict_eq (User.username u) username) (users (db w))
  then Answered (fail 409 "Username already exists") w
  else
    let familyId := randomUUID env 0 in
    phone <-[ w ] formatPhoneNumber (prop reqBody "phone") ;;
    let user :=
      User.mk (randomUUID env 1) username password (JStr phone)
              (if truthy isHead then lit "HEAD_OF_FAMILY" else lit "ADULT")
              familyId in
    let d := db w in
    let d' := mkDb (users d ++ [user])
                   (families d ++ [Family.mk familyId [User.id user]])
                   (members d) (logs d) in
    let token := createToken env in
    Answered (json (BAuth token (viewOf user)))
             (mkWorld d' (sessions_set token (User.id user) (sessions w))).

Definition login (env : Env) (w : World) (reqBody : JsVal) : Response * World :=
  let username := prop reqBody "username" in
  let password := prop reqBody "password" in
  if negb (truthy username) || negb (truthy password)
  then (fail 400 "Username and password are required", w)
  else
    match find (fun u => strict_eq (User.username u) username
                         && strict_eq (User.password u) password)
               (users (db w)) with
    | None => (fail 401 "Invalid credentials", w)
    | Some user =>
        let token := createToken env in
        (json (BAuth token (viewOf user)),
         mkWorld (db w) (sessions_set token (User.id user) (sessions w)))
    end.

Definition logout (w : World) (token : jsstring) : Response * World :=
  (json BOk, mkWorld (db w) (sessions_delete token (sessions w))).

(** ** Members and medications *)

(** The medications of a request body: [medications = []] when the property
    is undefined, and [.map] exists on arrays only. *)
Definition bodyMedications (reqBody : JsVal) : Completion (list JsVal) :=
  match prop reqBody "medications" with
  | JUndefined => Returns []
  | JArr l => Returns l
  | _ => Throws
  end.

(** [medications.map(med => ...)], threading the count [k] of UUIDs drawn so
    far; reading a property of null or undefined throws. *)
Fixpoint mapMedications (build : JsVal -> JsVal -> Completion Medication.t)
         (env : Env) (k : nat) (meds : list JsVal)
  : Completion (list Medication.t * nat) :=
  match meds with
  | [] => Returns ([], k)
  | med :: rest =>
      match med with
      | JUndefined | JNull => Throws
      | _ =>
          let '(medId, k') :=
            if truthy (prop med "id") then (prop med "id", k)
            else (JStr (randomUUID env k), S k) in
          built <- build med medId ;;
          more <- mapMedications build env k' rest ;;
          Returns (built :: fst more, snd more)
      end
  end.

Definition newMedication (med medId : JsVal) : Completion Medication.t :=
  timesPerDay <- normalizeTimesPerDay (prop med "timesPerDay") ;;
  times <-
    normalizeDoseTimes (JNum timesPerDay)
      (if truthy (js_length (prop med "doseTimes"))
       then prop med "doseTimes"
       else JArr [prop med "intakeTime"]) ;;
  Returns
    (Medication.mk medId (prop med "name") (prop med "dosage")
       (match prop med "supply" with JNum n => JNum n | _ => jint 0 end)
       (js_or (prop med "consumedCount") (jint 0))
       (JNum timesPerDay) (timesArray times) JUndefined).

Definition createMember (env : Env) (d : Db) (user : User.t) (reqBody : JsVal)
  : Outcome Db :=
  if negb (isHeadOfFamily user)
  then Answered (fail 403 "Only head of family can add members") d
  else
    let name := prop reqBody "name" in
    let ageGroup := prop reqBody "ageGroup" in
    if negb (truthy name) || negb (truthy ageGroup)
    then Answered (fail 400 "Name and ageGroup are required") d
    else
      let memberId := randomUUID env 0 in
      phone <-[ d ] formatPhoneNumber (prop reqBody "phone") ;;
      medications <-[ d ] bodyMedications reqBody ;;
      built <-[ d ] mapMedications newMedication env 1 medications ;;
      let member :=
        Member.mk memberId (User.familyId user) name ageGroup (JStr phone)
                  (fst built) in
      let d1 := with_members d (members d ++ [member]) in
      message <-[ d1 ]
        template [Text "Added new family member: "; Hole (Member.name member)] ;;
      let entry :=
        Log.mk (randomUUID env (snd built)) (User.familyId user) (nowISO env 0)
               (JStr message) in
      Answered (mkResponse 201 (BMember member)) (with_logs d1 (entry :: logs d1)).

Definition sameMedId (medId : JsVal) (x : Medication.t) : bool :=
  strict_eq (Medication.id x) medId.

Definition updatedMedication (existing : Member.t) (med medId : JsVal)
  : Completion Medication.t :=
  let existingMed :=
    find (sameMedId (prop med "id")) (Member.medications existing) in
  timesPerDay <-
    normalizeTimesPerDay
      (nullish (prop med "timesPerDay")
               (match existingMed with
                | Some e => Medication.timesPerDay e
                | None => jint 1
                end)) ;;
  filled <- nonEmpty (prop med "doseTimes") ;;
  times <-
    normalizeDoseTimes (JNum timesPerDay)
      (if filled then prop med "doseTimes"
       else match existingMed with
            | Some e => Medication.doseTimes e
            | None => JUndefined
            end) ;;
  Returns
    (Medication.mk medId (prop med "name") (prop med "dosage")
       (match prop med "supply" with
        | JNum n => JNum n
        | _ => match existingMed with
               | Some e => Medication.supply e
               | None => jint 0
               end
        end)
       (match existingMed with
        | Some e => Medication.consumedCount e
        | None => jint 0
        end)
       (JNum timesPerDay) (timesArray times) JUndefined).

Definition ownedBy (memberId familyId : jsstring) (m : Member.t) : bool :=
  jsstring_eqb (Member.id m) memberId && jsstring_eqb (Member.familyId m) familyId.

Definition updateMember (env : Env) (d : Db) (user : User.t)
           (memberId : jsstring) (reqBody : JsVal) : Outcome Db :=
  if negb (isHeadOfFamily user)
  then Answered (fail 403 "Only head of family can update members") d
  else
    match findIndex (ownedBy memberId (User.familyId user)) (members d) with
    | None => Answered (fail 404 "Member not found") d
    | Some idx =>
        match nth_error (members d) idx with
        | None => Answered (fail 404 "Member not found") d
        | Some existing =>
            phone <-[ d ]
              match prop reqBody "phone" with
              | JUndefined => Returns (Member.phone existing)
              | given => formatted <- formatPhoneNumber given ;; Returns (JStr formatted)
              end ;;
            medications <-[ d ] bodyMedications reqBody ;;
            built <-[ d ] mapMedications (updatedMedication existing) env 0 medications ;;
            let updated :=
              Member.mk (Member.id existing) (Member.familyId existing)
                (nullish (prop reqBody "name") (Member.name existing))
                (nullish (prop reqBody "ageGroup") (Member.ageGroup existing))
                phone (fst built) in
            let d1 := with_members d (setAt idx updated (members d)) in
            message <-[ d1 ]
              template [Text "Updated family member: "; Hole (Member.name updated)] ;;
            let entry :=
              Log.mk (randomUUID env (snd built)) (User.familyId user) (nowISO env 0)
                     (JStr message) in
            Answered (json (BMember updated)) (with_logs d1 (entry :: logs d1))
        end
    end.

(** The document after an assignment to a field of the medication that the
    consume and reminder routes hold a reference to. *)
Definition storeMedication (d : Db) (isMember : Member.t -> bool)
           (isMedication : Medication.t -> bool) (med' : Medication.t) : Db :=
  with_members d
    (updateFirst isMember
       (fun m => Member.with_medications m
                   (updateFirst isMedication (fun _ => med') (Member.medications m)))
       (members d)).

(** The consume handler from its first log entry on: [d2] is the document
    with the new stock written, [med2] the medication in it. *)
Definition consumeLog (env : Env) (d2 : Db) (user : User.t)
           (memberId medId : jsstring) (member : Member.t) (med2 : Medication.t)
           (oldSupply : JsVal) (newSupply : JsNum) : Outcome Db :=
  doseMessage <-[ d2 ]
    template [Text "Dose taken: "; Hole (Medication.name med2);
              Text " ("; Hole (Member.name member);
              Text "). Remaining: "; Hole (Medication.supply med2)] ;;
  let doseEntry :=
    Log.mk (randomUUID env 0) (User.familyId user) (nowISO env 0)
           (JStr doseMessage) in
  let d3 := with_logs d2 (doseEntry :: logs d2) in
  crossing <-[ d3 ]
    (if num_le newSupply (Fin 5) then js_gt oldSupply 5 else Returns false) ;;
  let answer :=
    json (BConsume
            (mkConsumeView memberId medId
               (Medication.supply med2) (Medication.consumedCount med2)
               (js_or (Medication.timesPerDay med2) (jint 1))
               (js_or (Medication.doseTimes med2)
                      (JArr [JStr (normalizeTime (jstr "08:00"))])))) in
  if crossing
  then
    warningMessage <-[ d3 ]
      template [Text "WARNING: Low supply for "; Hole (Medication.name med2);
                Text " ("; Hole (Member.name member);
                Text "). Notify head of family."] ;;
    let warning :=
      Log.mk (randomUUID env 1) (User.familyId user) (nowISO env 1)
             (JStr warningMessage) in
    Answered answer (with_logs d3 (warning :: logs d3))
  else Answered answer d3.

Definition consume (env : Env) (d : Db) (user : User.t)
           (memberId medId : jsstring) (reqBody : JsVal) : Outcome Db :=
  let change :=
    match prop reqBody "change" with
    | JUndefined => jint (-1)
    | v => v
    end in
  let isMember := ownedBy memberId (User.familyId user) in
  match find isMember (members d) with
  | None => Answered (fail 404 "Member not found") d
  | Some member =>
      match find (sameMedId (JStr medId)) (Member.medications member) with
      | None => Answered (fail 404 "Medication not found") d
      | Some med =>
          let store := storeMedication d isMember (sameMedId (JStr medId)) in
          let oldSupply := Medication.supply med in
          sum <-[ d ] js_add oldSupply change ;;
          summed <-[ d ] ToNumber sum ;;
          let newSupply := Math_max (Fin 0) summed in
          let med1 :=
            Medication.with_stock med (JNum newSupply) (Medication.consumedCount med) in
          let d1 := store med1 in
          negative <-[ d1 ] js_lt change 0 ;;
          taken <-[ d1 ] (if negative then js_neg change else Returns (jint 0)) ;;
          newConsumed <-[ d1 ]
            js_add (js_or (Medication.consumedCount med) (jint 0)) taken ;;
          let med2 := Medication.with_stock med (JNum newSupply) newConsumed in
          consumeLog env (store med2) user memberId medId member med2
                     oldSupply newSupply
      end
  end.

(** ** Activity log *)

Definition postLog (env : Env) (d : Db) (user : User.t) (reqBody : JsVal)
  : Response * Db :=
  let message := prop reqBody "message" in
  if negb (truthy message)
  then (fail 400 "Message is required", d)
  else
    let entry := Log.mk (randomUUID env 0) (User.familyId user) (nowISO env 0) message in
    (mkResponse 201 (BLog entry), with_logs d (entry :: logs d)).

(** ** Reminder simulation *)

Definition getFamilyHeads (d : Db) (familyId : jsstring) : list User.t :=
  match find (fun f => jsstring_eqb (Family.id f) familyId) (families d) with
  | None => []
  | Some family =>
      compact
        (List.map (fun id => find (fun u => jsstring_eqb (User.id u) id) (users d))
                  (Family.headUserIds family))
  end.

(** [triggerCallReminder] up to the [fetch]: the JSON it posts to the call
    service, or nothing when it gives up for want of a number.  What follows
    the [fetch] is inside a [try]. *)
Definition callPayload (member : Member.t) (medication : Medication.t)
           (scheduledDoseTime : JsVal) (heads : list User.t) (minor : bool)
  : Completion (option CallPayload) :=
  formatted <- traverse (fun h => formatPhoneNumber (User.phone h)) heads ;;
  let headPhones := filter nonEmptyString formatted in
  let primaryHeadPhone := nth_error headPhones 0 in
  memberPhone <- formatPhoneNumber (Member.phone member) ;;
  let phoneNumber :=
    if negb minor && nonEmptyString memberPhone then memberPhone
    else match primaryHeadPhone with
         | Some p => p
         | None => memberPhone
         end in
  Returns
    (if negb (nonEmptyString phoneNumber) then None
     else
       Some (mkCallPayload phoneNumber (Member.name member)
               (if minor then lit "minor" else lit "adult")
               (Medication.name medication)
               (js_or (Medication.dosage medication) (jstr "1 dose"))
               (js_or scheduledDoseTime (jstr "now"))
               headPhones)).

(** The seeding of an empty schedule from the legacy [intakeTime]. *)
Definition seedSchedule (medication : Medication.t) : Medication.t :=
  if negb (truthy (Medication.doseTimes medication))
     || strict_eq (js_length (Medication.doseTimes medication)) (jint 0)
  then
    let seeded := timesArray [normalizeTime (Medication.intakeTime medication)] in
    Medication.with_schedule medication
      (js_or (Medication.timesPerDay medication) (js_length seeded))
      seeded
  else medication.

Definition isMinor (member : Member.t) : bool :=
  strict_eq (Member.ageGroup member) (jstr "Minor").

(** [m.id === memberId && m.familyId === user.familyId] for a [memberId]
    taken from the request body. *)
Definition reminderTarget (memberId : JsVal) (familyId : jsstring) (m : Member.t)
  : bool :=
  strict_eq (JStr (Member.id m)) memberId
  && jsstring_eqb (Member.familyId m) familyId.

(** The events and log entries of the age branch, with the numbers of UUIDs
    and of dates it draws. *)
Definition ageBranch (env : Env) (member : Member.t) (medication : Medication.t)
           (timesPerDay normalizedDoseTime : JsVal) (headNames reminderTime : jsstring)
  : Completion (list jsstring * list Log.t * nat * nat) :=
  let fam := Member.familyId member in
  if isMinor member
  then
    event <-
      template [Text "Minor reminder: "; Hole (Medication.name medication);
                Text " ("; Hole timesPerDay;
                Text "x/day, scheduled dose at "; Hole normalizedDoseTime;
                Text "). Calling head(s) "; Hole (JStr headNames);
                Text " now ("; Hole (JStr reminderTime); Text ")."] ;;
    message <-
      template [Text "REMINDER (Minor): Immediate call to head(s) ";
                Hole (JStr headNames); Text " for "; Hole (Member.name member);
                Text "'s "; Hole (Medication.name medication);
                Text " dose scheduled "; Hole normalizedDoseTime; Text "."] ;;
    Returns ([event],
             [Log.mk (randomUUID env 0) fam (nowISO env 0) (JStr message)], 1, 1)
  else
    calling <-
      template [Text "Calling "; Hole (Member.name member);
                Text " now ("; Hole (JStr reminderTime); Text ") for ";
                Hole (Medication.name medication);
                Text " dose scheduled "; Hole normalizedDoseTime; Text "."] ;;
    let now := nowISO env 0 in
    first <-
      template [Text "REMINDER (Adult): Immediate call to "; Hole (Member.name member);
                Text " at "; Hole (JStr reminderTime); Text " for ";
                Hole (Medication.name medication);
                Text " dose scheduled "; Hole normalizedDoseTime; Text "."] ;;
    second <-
      template [Text "REMINDER (Adult): 2 missed calls for "; Hole (Member.name member);
                Text ", escalating to head(s) "; Hole (JStr headNames); Text "."] ;;
    Returns ([calling;
              lit "Waiting for patient to pick up...";
              lit "Call missed. Waiting briefly before retry...";
              lit "Second call missed. Escalating to head(s): " ++ headNames ++ lit "."],
             [Log.mk (randomUUID env 0) fam now (JStr first);
              Log.mk (randomUUID env 1) fam now (JStr second)], 2, 1).

(** The handler of [POST /api/reminders/trigger].  [intervalMinutes] is
    computed and never used, but its division converts [timesPerDay] to a
    number. *)
Definition triggerReminder (env : Env) (d : Db) (user : User.t) (reqBody : JsVal)
  : Outcome Db :=
  let memberId := prop reqBody "memberId" in
  let medicationId := prop reqBody "medicationId" in
  let doseTime := prop reqBody "doseTime" in
  let isTarget := reminderTarget memberId (User.familyId user) in
  match find isTarget (members d) with
  | None => Answered (fail 404 "Member not found") d
  | Some member =>
      match find (sameMedId medicationId) (Member.medications member) with
      | None => Answered (fail 400 "Medication not found for member") d
      | Some found =>
          let medication := seedSchedule found in
          let d1 := storeMedication d isTarget (sameMedId medicationId) medication in
          let normalizedDoseTime :=
            if truthy doseTime then JStr (normalizeTime doseTime)
            else js_or (js_first (Medication.doseTimes medication)) (jstr "08:00") in
          let heads := getFamilyHeads d1 (Member.familyId member) in
          joined <-[ d1 ] joinVals (lit ", ") (List.map User.username heads) ;;
          let headNames :=
            match joined with
            | [] => lit "Head of family"
            | names => names
            end in
          let timesPerDay := js_or (Medication.timesPerDay medication) (jint 1) in
          intervalMinutes <-[ d1 ] ToNumber timesPerDay ;;
          let reminderTime := currentTimeHHMM env in
          let fam := Member.familyId member in
          branch <-[ d1 ]
            ageBranch env member medication timesPerDay normalizedDoseTime
                      headNames reminderTime ;;
          let '(events1, entries1, uuids, dates) := branch in
          let d2 := with_logs d1 (entries1 ++ logs d1) in
          let '(events2, entries2) :=
            if (1 <? length heads)
            then
              ([lit "If first head does not respond, contacting backup head(s): "
                ++ headNames ++ lit "."],
               [Log.mk (randomUUID env uuids) fam (nowISO env dates)
                  (JStr (lit "HEAD ESCALATION: Primary head did not respond, attempting other head(s): "
                         ++ headNames ++ lit "."))])
            else ([], []) in
          let d3 := with_logs d2 (entries2 ++ logs d2) in
          call <-[ d3 ]
            callPayload member medication normalizedDoseTime heads (isMinor member) ;;
          Answered
            (json (BReminder
                     (mkReminderView (Member.id member) (Member.name member)
                        (Member.ageGroup member) (Medication.id medication)
                        (Medication.name medication) timesPerDay
                        (Medication.doseTimes medication) normalizedDoseTime
                        reminderTime (events1 ++ events2))))
            d3
      end
  end.

(** ** The HTTP surface

    The state-changing routes and the two read-only routes that need no
    date arithmetic; [GET /api/logs] only reads [db] after [requireAuth]. *)

Inductive Request :=
| PostRegister (reqBody : JsVal)
| PostLogin (reqBody : JsVal)
| PostLogout (authorization : option jsstring)
| GetMe (authorization : option jsstring)
| GetMembers (authorization : option jsstring)
| PostMembers (authorization : option jsstring) (reqBody : JsVal)
| PutMember (authorization : option jsstring) (id : jsstring) (reqBody : JsVal)
| PostConsume (authorization : option jsstring) (memberId medId : jsstring)
              (reqBody : JsVal)
| PostLogs (authorization : option jsstring) (reqBody : JsVal)
| PostTrigger (authorization : option jsstring) (reqBody : JsVal).

Definition getMembers (d : Db) (user : User.t) : Response :=
  if negb (isHeadOfFamily user)
  then fail 403 "Only head of family can view members"
  else json (BMembers
               (filter (fun m => jsstring_eqb (Member.familyId m) (User.familyId user))
                       (members d))).

(** A route behind [requireAuth]. *)
Definition authenticated (w : World) (authorization : option jsstring)
           (handler : User.t -> jsstring -> Outcome World) : Outcome World :=
  match requireAuth w authorization with
  | inr remaining => Answered (fail 401 "Unauthorized") (mkWorld (db w) remaining)
  | inl (user, token) => handler user token
  end.

(** A handler that only touches the document. *)
Definition onDb (w : World) (o : Outcome Db) : Outcome World :=
  match o with
  | Answered r d => Answered r (mkWorld d (sessions w))
  | Thrown d => Thrown (mkWorld d (sessions w))
  | Hung => Hung
  end.

(** A handler that cannot throw. *)
Definition answered {S : Type} (p : Response * S) : Outcome S :=
  Answered (fst p) (snd p).

(** The framework calls a handler inside a [try]: an exception thrown
    before the handler returns is answered 500.  The handler of the
    reminder route is an [async] function: it returns a promise, which the
    router of Express 4 ignores, and an exception inside it is a rejection
    nobody handles; no response is sent. *)
Definition synchronous {S : Type} (o : Outcome S) : Outcome S :=
  match o with
  | Thrown s => Answered uncaught s
  | other => other
  end.

Definition handle (env : Env) (w : World) (req : Request) : Outcome World :=
  match req with
  | PostRegister reqBody => synchronous (register env w reqBody)
  | PostLogin reqBody => answered (login env w reqBody)
  | PostLogout a => authenticated w a (fun _ token => answered (logout w token))
  | GetMe a => authenticated w a (fun user _ => Answered (json (BUser (viewOf user))) w)
  | GetMembers a => authenticated w a (fun user _ => Answered (getMembers (db w) user) w)
  | PostMembers a reqBody =>
      authenticated w a
        (fun user _ => synchronous (onDb w (createMember env (db w) user reqBody)))
  | PutMember a id reqBody =>
      authenticated w a
        (fun user _ => synchronous (onDb w (updateMember env (db w) user id reqBody)))
  | PostConsume a memberId medId reqBody =>
      authenticated w a
        (fun user _ =>
           synchronous (onDb w (consume env (db w) user memberId medId reqBody)))
  | PostLogs a reqBody =>
      authenticated w a
        (fun user _ => onDb w (answered (postLog env (db w) user reqBody)))
  | PostTrigger a reqBody =>
      authenticated w a (fun user _ => onDb w (triggerReminder env (db w) user reqBody))
  end.

(** The states of a run: the document read at startup is sanitized, then
    requests are served one after the other, each from the state the
    previous one left.  Whether the process outlives a rejection nobody
    handles depends on the runtime; the states after one are kept. *)
Inductive reachable (loaded : Db) : World -> Prop :=
| reach_start : forall d,
    sanitizeDb loaded = Returns d -> reachable loaded (mkWorld d [])
| reach_step : forall w env req w',
    reachable loaded w -> after (handle env w req) = Some w' ->
    reachable loaded w'.

End Server.

(** ** Specification-side definitions *)

(** The strict [HH:MM] shape read numerically: two digits giving an hour in
    00..23, a colon, two digits giving a minute in 00..59. *)
Definition isTimeString (s : jsstring) : bool :=
  match s with
  | [h1; h2; colon; m1; m2] =>
      (isDigit h1 && isDigit h2 && (colon =? 58) && isDigit m1 && isDigit m2
       && (10 * (h1 - 48) + (h2 - 48) <=? 23)
       && (10 * (m1 - 48) + (m2 - 48) <=? 59))%N
  | _ => false
  end.

(** The entry the specification gives index [i]: the candidate when one is
    present (valid: itself, whitespace trimmed; invalid: the default), else
    the previous entry, else the default. *)
Definition specEntry (provided : list JsVal) (previous : option jsstring) (i : nat)
  : jsstring :=
  match nullish (nth i provided JUndefined) JUndefined with
  | JUndefined =>
      match previous with
      | Some p => p
      | None => lit "08:00"
      end
  | JStr s => if isTimeString (trim s) then trim s else lit "08:00"
  | _ => lit "08:00"
  end.

(** The array [normalizeDoseTimes] has built after [n] iterations. *)
Fixpoint builtTimes (provided : list JsVal) (n : nat) : list jsstring :=
  match n with
  | O => []
  | S k =>
      let result := builtTimes provided k in
      result ++ [normalizeTime
                   (nullish (arr_get provided (Z.of_nat k))
                      (nullish (arr_get (List.map JStr result) (Z.of_nat k - 1))
                               (jstr "08:00")))]
  end.

(** What the specification says the phone normalizer returns on the digits
    of its input. *)
Definition specPhone (digits : jsstring) : jsstring :=
  match digits with
  | [] => []
  | _ =>
      if startsWith digits (lit "91") && (12 <=? length digits)
      then lit "+" ++ firstn 12 digits
      else lit "+91" ++ sliceLast 10 digits
  end.




(** Conversions for the worked examples: decimal printing and reading of
    integers, which is what [Number::toString] and StringToNumber do on the
    integers the examples use (other numbers print as their integer part
    and other strings read as NaN). *)
Definition decimalOfZ (z : Z) : jsstring :=
  lit (NilZero.string_of_int (Z.to_int z)).

Definition readInteger (s : jsstring) : JsNum :=
  match trim s with
  | [] => Fin 0
  | 45%N :: ds =>
      if forallb isDigit ds && negb (length ds =? 0)
      then Fin (inject_Z (- digitsValue ds)) else NaN
  | ds =>
      if forallb isDigit ds then Fin (inject_Z (digitsValue ds)) else NaN
  end.

Definition integerConv : NumberConv :=
  {| numberToString := fun q => decimalOfZ (Qfloor q);
     stringToNumber := readInteger |}.

(** Lookup of a medication the way the consume route finds it. *)
Definition findMedication (d : Db) (familyId memberId medId : jsstring)
  : option Medication.t :=
  match find (ownedBy memberId familyId) (members d) with
  | Some member => find (sameMedId (JStr medId)) (Member.medications member)
  | None => None
  end.

(** A low-supply warning is recognised by the fixed head of its message. *)
Definition isLowSupplyWarning (entry : Log.t) : bool :=
  match Log.message entry with
  | JStr m => startsWith m (lit "WARNING: Low supply for ")
  | _ => false
  end.

Definition countWarnings (entries : list Log.t) : nat :=
  length (filter isLowSupplyWarning entries).

(** The number of registered heads of a family: the ids on the head list of
    its record that are the id of a user. *)
Definition registeredHeads (d : Db) (familyId : jsstring) : nat :=
  match filter (fun f => jsstring_eqb (Family.id f) familyId) (families d) with
  | [] => 0
  | family :: _ =>
      length (filter (fun id => existsb (fun u => jsstring_eqb (User.id u) id) (users d))
                     (Family.headUserIds family))
  end.

(** What the specification says a reminder produces for a member who is a
    minor or not, in a family with several heads or not: the events of the
    age branch followed by those of the multi-head branch, and the log
    entries of both, those of the multi-head branch on top. *)
Definition ReminderCounts (minor several : bool) (produced : list jsstring)
           (logged : list Log.t) : Prop :=
  exists branchEvents extraEvents branchEntries extraEntries,
    produced = branchEvents ++ extraEvents
    /\ logged = extraEntries ++ branchEntries
    /\ (if minor
        then length branchEvents = 1 /\ length branchEntries = 1
        else length branchEvents = 4
             /\ exists first second,
                 branchEntries = [first; second]
                 /\ Log.timestamp first = Log.timestamp second)
    /\ (if several
        then length extraEvents = 1 /\ length extraEntries = 1
        else extraEvents = [] /\ extraEntries = []).


(** The [change] of a consume request: the body's, or -1 when it has none. *)
Definition requestsChange (reqBody : JsVal) (c : Z) : Prop :=
  prop reqBody "change" = jint c
  \/ (prop reqBody "change" = JUndefined /\ c = (-1)%Z).

(** No member of the family has the id a request names. *)
Definition refersToNoMember (d : Db) (familyId : jsstring) (memberId : JsVal) : Prop :=
  forall m, In m (members d) ->
            strict_eq (JStr (Member.id m)) memberId = true ->
            Member.familyId m <> familyId.

(** No medication of the member has the id a request names. *)
Definition refersToNoMedication (member : Member.t) (medId : JsVal) : Prop :=
  forall x, In x (Member.medications member) ->
            strict_eq (Medication.id x) medId = false.

Definition isPrimitive (v : JsVal) : bool :=
  match v with
  | JArr _ | JObj _ => false
  | _ => true
  end.

Definition isNullish (v : JsVal) : bool :=
  match v with
  | JUndefined | JNull => true
  | _ => false
  end.

(** The consumedCount the update route gives the medication built from the
    request item [med]: that of the stored medication with the same id, 0
    when there is none. *)
Definition keptConsumedCount (existing : Member.t) (med : JsVal)
           (built : Medication.t) : Prop :=
  Medication.consumedCount built
  = match find (sameMedId (prop med "id")) (Member.medications existing) with
    | Some stored => Medication.consumedCount stored
    | None => jint 0
    end.

(** The schedule the normalizers leave in a medication: a positive
    [timesPerDay] and as many dose times as the loop over it runs, that is
    its ceiling. *)
Definition ScheduleOk (med : Medication.t) : Prop :=
  exists q times,
    Medication.timesPerDay med = JNum (Fin q)
    /\ (0 < q)%Q
    /\ Medication.doseTimes med = JArr (List.map JStr times)
    /\ length times = Z.to_nat (Qceiling q).

Definition SchedulesOk (d : Db) : Prop :=
  Forall (fun m => Forall ScheduleOk (Member.medications m)) (members d).

(** [doseTimes.length === timesPerDay], the invariant of the data model. *)
Definition lengthMatches (med : Medication.t) : bool :=
  strict_eq (js_length (Medication.doseTimes med)) (Medication.timesPerDay med).

(** A supply the floor at 0 has been through: a number that is not
    negative, NaN and Infinity included. *)
Definition isFloored (v : JsVal) : Prop :=
  v = JNum NaN \/ v = JNum Infinity
  \/ exists q, v = JNum (Fin q) /\ (0 <= q)%Q.

(** Two medications that differ at most in supply and consumedCount. *)
Definition sameButStock (a b : Medication.t) : Prop :=
  Medication.with_stock a (Medication.supply b) (Medication.consumedCount b) = b.

(** Two members that differ at most in the stock of their medications. *)
Definition sameButStocks (a b : Member.t) : Prop :=
  exists meds, b = Member.with_medications a meds
               /\ Forall2 sameButStock (Member.medications a) meds.

Definition inFamily (familyId : jsstring) (m : Member.t) : bool :=
  jsstring_eqb (Member.familyId m) familyId.

(** A schedule made of well-formed times, at least one. *)
Definition TimesWellFormed (med : Medication.t) : Prop :=
  exists times,
    Medication.doseTimes med = JArr (List.map JStr times)
    /\ times <> []
    /\ Forall (fun s => isTimeString s = true) times.

(** A digit string behind [+91], as the phone normalizer writes it. *)
Definition isNormalizedPhone (s : jsstring) : Prop :=
  exists ds, s = lit "+91" ++ ds
             /\ 1 <= length ds <= 10
             /\ Forall (fun c => isDigit c = true) ds.

(** The Authorization header a request carries. *)
Definition authorizationOf (req : Request) : option jsstring :=
  match req with
  | PostRegister _ | PostLogin _ => None
  | PostLogout a | GetMe a | GetMembers a => a
  | PostMembers a _ | PutMember a _ _ | PostConsume a _ _ _ => a
  | PostLogs a _ | PostTrigger a _ => a
  end.

(** The header carries [token] as its second word: a first word, a space,
    the token, and then nothing or a space and anything. *)
Definition carriesToken (header token : jsstring) : Prop :=
  exists scheme rest,
    header = scheme ++ 32%N :: token ++ rest
    /\ ~ In 32%N scheme
    /\ ~ In 32%N token
    /\ (rest = [] \/ exists more, rest = 32%N :: more).

(** A stored phone: a string, empty or in the normalizer's shape. *)
Definition PhoneOk (v : JsVal) : Prop :=
  exists s, v = JStr s /\ (s = [] \/ isNormalizedPhone s).

Definition PhonesOk (d : Db) : Prop :=
  Forall (fun u => PhoneOk (User.phone u)) (users d)
  /\ Forall (fun m => PhoneOk (Member.phone m)) (members d).

(** The first of [heads] whose phone has a digit in it is called on [p]:
    the heads before it have none. *)
Definition firstHeadPhone {NC : NumberConv} (heads : list User.t) (p : jsstring)
  : Prop :=
  exists before h rest,
    heads = before ++ h :: rest
    /\ Forall (fun b => formatPhoneNumber (User.phone b) = Returns []) before
    /\ formatPhoneNumber (User.phone h) = Returns p
    /\ p <> [].

(** The phones of [heads] that have a digit in them, formatted, in the
    order of [heads]. *)
Inductive headPhonesOf {NC : NumberConv} : list User.t -> list jsstring -> Prop :=
| phones_none : headPhonesOf [] []
| phones_skip : forall h heads phones,
    formatPhoneNumber (User.phone h) = Returns [] ->
    headPhonesOf heads phones -> headPhonesOf (h :: heads) phones
| phones_keep : forall h heads phones p,
    formatPhoneNumber (User.phone h) = Returns p -> p <> [] ->
    headPhonesOf heads phones -> headPhonesOf (h :: heads) (p :: phones).





(** A property of medications that holds of every medication of every
    member. *)
Definition AllMedications (P : Medication.t -> Prop) (d : Db) : Prop :=
  Forall (fun m => Forall P (Member.medications m)) (members d).

(** What a request of a user of family [fam] can do to the list of
    members: nothing; add a member of that family at the end, with a
    formatted phone and medications built by the creation route; replace a
    member of that family, in place, by one with the same id and family,
    the same or a formatted phone and medications built by the update
    route; or replace, in place, one medication of a member of that family
    by itself with a seeded schedule or another stock. *)
Inductive MembersStep {NC : NumberConv} (fam : jsstring) (ms : list Member.t)
  : list Member.t -> Prop :=
| step_none : MembersStep fam ms ms
| step_added : forall member given phone,
    Member.familyId member = fam ->
    formatPhoneNumber given = Returns phone ->
    Member.phone member = JStr phone ->
    Forall (fun b => exists med medId, newMedication med medId = Returns b)
           (Member.medications member) ->
    MembersStep fam ms (ms ++ [member])
| step_updated : forall idx existing updated,
    nth_error ms idx = Some existing ->
    Member.familyId existing = fam ->
    Member.id updated = Member.id existing ->
    Member.familyId updated = Member.familyId existing ->
    (Member.phone updated = Member.phone existing
     \/ exists given phone,
         formatPhoneNumber given = Returns phone
         /\ Member.phone updated = JStr phone) ->
    Forall (fun b => exists med medId,
                       updatedMedication existing med medId = Returns b)
           (Member.medications updated) ->
    MembersStep fam ms (setAt idx updated ms)
| step_stored : forall isMember isMedication member med med',
    find isMember ms = Some member ->
    Member.familyId member = fam ->
    find isMedication (Member.medications member) = Some med ->
    (med' = seedSchedule med \/ exists s c, med' = Medication.with_stock med s c) ->
    MembersStep fam ms
      (updateFirst isMember
         (fun m => Member.with_medications m
                     (updateFirst isMedication (fun _ => med') (Member.medications m)))
         ms).

(** What such a request can do to the document: a step on the members, and
    log entries of that family in front of the log. *)
Definition DbStep {NC : NumberConv} (fam : jsstring) (d d' : Db) : Prop :=
  exists ms entries,
    MembersStep fam (members d) ms
    /\ d' = mkDb (users d) (families d) ms (entries ++ logs d)
    /\ Forall (fun e => Log.familyId e = fam) entries.

(** The response of a request that was answered. *)
Definition answerOf {S : Type} (o : Outcome S) : option Response :=
  match o with
  | Answered r _ => Some r
  | _ => None
  end.

(** Case analysis on what is being evaluated. *)
Ltac branch :=
  match goal with
  | |- context [attempt ?c _ _] =>
      let E := fresh "E" in destruct c eqn:E; cbn [attempt]
  | |- context [bind ?c _] =>
      let E := fresh "E" in destruct c eqn:E; cbn [bind]
  | |- context [if ?b then _ else _] =>
      let E := fresh "E" in destruct b eqn:E
  end.

(** ** Data of the worked examples *)

(** [key: value] inside the object literal of a request body. *)
Definition field (name : string) (v : JsVal) : jsstring * JsVal := (lit name, v).

Definition emptyWorld : World := mkWorld (mkDb [] [] [] []) [].

(** An update that names the stored medication [med2] and a new one, both
    with a consumedCount of the client's choosing. *)
Definition updateItems : list JsVal :=
  [JObj [field "id" (jstr "med2"); field "name" (jstr "Tablets");
         field "consumedCount" (jint 99)];
   JObj [field "name" (jstr "Drops"); field "consumedCount" (jint 7)]].

Definition updateRequest : JsVal := JObj [field "medications" (JArr updateItems)].

Definition exampleEnv : Env :=
  mkEnv (fun k => lit "uuid-" ++ decimalOfZ (Z.of_nat k))
        (lit "token-1")
        (fun k => lit "2024-05-01T08:00:0" ++ decimalOfZ (Z.of_nat k) ++ lit ".000Z")
        (lit "08:00").

Definition asha : User.t :=
  User.mk (lit "u1") (jstr "asha") (jstr "secret") (jstr "+919876543210")
          (lit "HEAD_OF_FAMILY") (lit "f1").

Definition ravi : User.t :=
  User.mk (lit "u2") (jstr "ravi") (jstr "hunter2") (jstr "+919876500000")
          (lit "HEAD_OF_FAMILY") (lit "f1").

Definition zoya : User.t :=
  User.mk (lit "u3") (jstr "zoya") (jstr "pass") (jstr "+919811122233")
          (lit "HEAD_OF_FAMILY") (lit "f2").

Definition syrup : Medication.t :=
  Medication.mk (jstr "med1") (jstr "Syrup") (jstr "5ml") (jint 6) (jint 0)
                (jint 2) (JArr [jstr "08:00"; jstr "20:00"]) JUndefined.

Definition tablets : Medication.t :=
  Medication.mk (jstr "med2") (jstr "Tablets") (jstr "1 tab") (jint 30) (jint 3)
                (jint 1) (JArr [jstr "09:00"]) JUndefined.

Definition drops : Medication.t :=
  Medication.mk (jstr "med3") (jstr "Drops") (jstr "2 drops") (jint 12) (jint 0)
                (jint 1) (JArr [jstr "07:30"]) JUndefined.

Definition child : Member.t :=
  Member.mk (lit "m1") (lit "f1") (jstr "Kiran") (jstr "Minor") (jstr "") [syrup].

Definition elder : Member.t :=
  Member.mk (lit "m2") (lit "f1") (jstr "Meera") (jstr "Senior")
            (jstr "+919812345678") [tablets].

Definition tara : Member.t :=
  Member.mk (lit "m3") (lit "f2") (jstr "Tara") (jstr "Minor") (jstr "") [drops].

Definition omar : Member.t :=
  Member.mk (lit "m4") (lit "f2") (jstr "Omar") (jstr "Adult")
            (jstr "+919800000001") [drops].

(** Two families: one with two heads, one with a single head. *)
Definition exampleDb : Db :=
  mkDb [asha; ravi; zoya]
       [Family.mk (lit "f1") [lit "u1"; lit "u2"]; Family.mk (lit "f2") [lit "u3"]]
       [child; elder; tara; omar] [].

(** The value of a completion that returns, and the state a request that
    ends leaves; the default otherwise. *)
Definition returned {A : Type} (default : A) (c : Completion A) : A :=
  match c with
  | Returns a => a
  | _ => default
  end.

Definition stateAfter {S : Type} (default : S) (o : Outcome S) : S :=
  match after o with
  | Some s => s
  | None => default
  end.

(** A head of family logs in and adds a member whose medication is to be
    taken 2.5 times a day. *)
Definition loginRequest : Request :=
  PostLogin (JObj [field "username" (jstr "asha"); field "password" (jstr "secret")]).

Definition fractionalRequest : Request :=
  PostMembers (Some (lit "Bearer token-1"))
    (JObj [field "name" (jstr "Dev"); field "ageGroup" (jstr "Adult");
           field "medications"
             (JArr [JObj [field "name" (jstr "Drops");
                          field "timesPerDay" (JNum (Fin (5 # 2)))]])]).

(** The state after startup on the example document, and after a login of
    the first head of each family. *)
Definition startWorld : World :=
  mkWorld (returned exampleDb (@sanitizeDb integerConv exampleDb)) [].

Definition sessionWorld : World :=
  stateAfter startWorld (@handle integerConv exampleEnv startWorld loginRequest).

Definition zoyaWorld : World :=
  stateAfter startWorld
       (@handle integerConv exampleEnv startWorld
          (PostLogin (JObj [field "username" (jstr "zoya");
                            field "password" (jstr "pass")]))).

Definition bearer : option jsstring := Some (lit "Bearer token-1").

Definition credentials : JsVal :=
  JObj [field "username" (jstr "asha"); field "password" (jstr "secret")].

Definition newcomer : JsVal :=
  JObj [field "username" (jstr "lata"); field "password" (jstr "pw");
        field "phone" (jstr "98765 43210")].

Definition reminderFor (memberId medicationId : string) : JsVal :=
  JObj [field "memberId" (jstr memberId); field "medicationId" (jstr medicationId)].

Definition reminderRequest : JsVal := reminderFor "m2" "med2".

(** An object that no conversion to a string accepts. *)
Definition unprintable : JsVal := JObj [field "toString" (jint 1)].

(** A member creation whose medication has an unprintable name, by the
    logged-in head, and the consumption of a dose of it. *)
Definition unnamedMedicationRequest : Request :=
  PostMembers bearer
    (JObj [field "name" (jstr "Dev"); field "ageGroup" (jstr "Adult");
           field "medications"
             (JArr [JObj [field "id" (jstr "med7"); field "name" unprintable;
                          field "supply" (jint 6)]])]).

Definition unnamedMedicationWorld : World :=
  stateAfter sessionWorld (@handle integerConv exampleEnv sessionWorld unnamedMedicationRequest).

(** A member creation with an unprintable name, by the logged-in head. *)
Definition unnamedMemberRequest : Request :=
  PostMembers bearer
    (JObj [field "name" unprintable; field "ageGroup" (jstr "Minor");
           field "medications"
             (JArr [JObj [field "id" (jstr "med8"); field "name" (jstr "Drops")]])]).

Definition unnamedMemberWorld : World :=
  stateAfter sessionWorld (@handle integerConv exampleEnv sessionWorld unnamedMemberRequest).

Definition consumeOne : JsVal := JObj [field "change" (jint (-1))].

(** * Properties *)

Unset Implicit Arguments.

(** ** Numbers *)

Lemma num_lt_Fin (x y : Q) : num_lt (Fin x) (Fin y) = true <-> (x < y)%Q.
Proof.
  unfold num_lt. rewrite Qlt_alt.
  destruct (x ?= y)%Q; split; congruence.
Qed.

Lemma num_lt_inject (a b : Z) :
  num_lt (Fin (inject_Z a)) (Fin (inject_Z b)) = (a <? b)%Z.
Proof.
  destruct (Z.ltb_spec a b) as [H | H].
  - apply num_lt_Fin. now rewrite <- Zlt_Qlt.
  - destruct (num_lt (Fin (inject_Z a)) (Fin (inject_Z b))) eqn:E; trivial.
    apply num_lt_Fin in E. rewrite <- Zlt_Qlt in E. lia.
Qed.

Lemma below_ceiling (q : Q) (i : Z) :
  (i < Qceiling q)%Z -> num_lt (Fin (inject_Z i)) (Fin q) = true.
Proof.
  intros H. apply num_lt_Fin.
  apply Qle_lt_trans with (inject_Z (Qceiling q - 1)).
  - rewrite <- Zle_Qle. lia.
  - apply Qceiling_lt.
Qed.

Lemma beyond_ceiling (q : Q) (i : Z) :
  (Qceiling q <= i)%Z -> num_lt (Fin (inject_Z i)) (Fin q) = false.
Proof.
  intros H.
  destruct (num_lt (Fin (inject_Z i)) (Fin q)) eqn:E; trivial.
  apply num_lt_Fin in E.
  assert (q <= inject_Z i)%Q.
  { apply Qle_trans with (inject_Z (Qceiling q)).
    - apply Qle_ceiling.
    - now rewrite <- Zle_Qle. }
  exfalso. eapply Qlt_irrefl, Qlt_le_trans; eauto.
Qed.

Lemma positive_ceiling (q : Q) : (0 < q)%Q -> (0 < Qceiling q)%Z.
Proof.
  intros H. rewrite Zlt_Qlt. eapply Qlt_le_trans; [exact H | apply Qle_ceiling].
Qed.

(** A positive number is a positive rational or Infinity. *)
Lemma positive_number (n : JsNum) :
  num_lt (Fin 0) n = true -> (exists q, n = Fin q /\ (0 < q)%Q) \/ n = Infinity.
Proof.
  destruct n as [q| | |]; try discriminate; intros H; [left | now right].
  exists q. split; trivial. now apply num_lt_Fin.
Qed.

(** ** The time normalizer *)

Lemma execTimeRegex_spec (s : jsstring) :
  execTimeRegex s =
  if isTimeString s then Some (firstn 2 s, skipn 3 s) else None.
Proof.
  destruct s as [|h1 [|h2 [|c [|m1 [|m2 [|x rest]]]]]]; trivial.
  unfold execTimeRegex, isTimeString, isDigit. cbn [firstn skipn].
  match goal with
  | |- (if ?a then _ else _) = (if ?b then _ else _) =>
      assert (E : a = b); [| now rewrite E]
  end.
  apply eq_true_iff_eq.
  repeat (rewrite andb_true_iff || rewrite orb_true_iff
          || rewrite N.eqb_eq || rewrite N.leb_le).
  lia.
Qed.

Lemma isTimeString_rebuilt (s : jsstring) :
  isTimeString s = true -> firstn 2 s ++ lit ":" ++ skipn 3 s = s.
Proof.
  destruct s as [|h1 [|h2 [|c [|m1 [|m2 [|x rest]]]]]]; try discriminate.
  unfold isTimeString. rewrite ?andb_true_iff, N.eqb_eq.
  intros H. decompose [and] H. subst c. reflexivity.
Qed.

(** [normalizeTime] on strings, in the specification's terms. *)
Lemma normalizeTime_string (s : jsstring) :
  normalizeTime (JStr s) = if isTimeString (trim s) then trim s else lit "08:00".
Proof.
  unfold normalizeTime. destruct s as [|c s]; [reflexivity|].
  cbn [truthy negb]. rewrite execTimeRegex_spec.
  destruct (isTimeString (trim (c :: s))) eqn:E; trivial.
  now apply isTimeString_rebuilt.
Qed.

Lemma normalizeTime_wellformed (v : JsVal) : isTimeString (normalizeTime v) = true.
Proof.
  destruct v; try reflexivity.
  rewrite normalizeTime_string.
  destruct (isTimeString (trim s)) eqn:E; trivial.
Qed.

Lemma trim_isTimeString (s : jsstring) : isTimeString s = true -> trim s = s.
Proof.
  destruct s as [|h1 [|h2 [|c [|m1 [|m2 [|x rest]]]]]]; try discriminate.
  unfold isTimeString, isDigit.
  rewrite ?andb_true_iff, ?N.eqb_eq, ?N.leb_le. intros H.
  assert (W1 : isWhiteSpace h1 = false).
  { unfold isWhiteSpace. repeat (apply orb_false_iff; split);
      try (apply N.eqb_neq; lia).
    apply andb_false_iff. left. apply N.leb_gt. lia. }
  assert (W2 : isWhiteSpace m2 = false).
  { unfold isWhiteSpace. repeat (apply orb_false_iff; split);
      try (apply N.eqb_neq; lia).
    apply andb_false_iff. left. apply N.leb_gt. lia. }
  unfold trim, trimStart. cbn [dropWhile]. rewrite W1.
  cbn [rev app dropWhile]. rewrite W2. reflexivity.
Qed.

Lemma normalizeTime_fixed (s : jsstring) :
  isTimeString s = true -> normalizeTime (JStr s) = s.
Proof.
  intros H. rewrite normalizeTime_string, (trim_isTimeString _ H). now rewrite H.
Qed.

(** ** Conversions *)

Lemma traverse_Forall2 {A B : Type} (f : A -> Completion B) (l : list A) :
  forall ys, traverse f l = Returns ys -> Forall2 (fun x y => f x = Returns y) l ys.
Proof.
  induction l as [|x l IH]; intros ys; cbn [traverse].
  - intros [= <-]. constructor.
  - destruct (f x) as [y| |] eqn:E; cbn [bind]; try discriminate.
    fold (traverse f l). destruct (traverse f l) as [rest| |]; cbn [bind]; try discriminate.
    intros [= <-]. constructor; auto.
Qed.

Lemma traverse_returns {A B : Type} (f : A -> Completion B) (l : list A) :
  (forall x, In x l -> exists y, f x = Returns y) ->
  exists ys, traverse f l = Returns ys.
Proof.
  induction l as [|x l IH]; intros H; cbn [traverse].
  - now exists [].
  - destruct (H x) as (y & ->); [now left|]. cbn [bind]. fold (traverse f l).
    destruct IH as (ys & ->); [intros z Hz; apply H; now right|].
    cbn [bind]. now exists (y :: ys).
Qed.

Lemma bind_never_diverges {A B : Type} (c : Completion A) (k : A -> Completion B) :
  c <> Diverges -> (forall a, k a <> Diverges) -> bind c k <> Diverges.
Proof.
  intros Hc Hk. destruct c; cbn [bind]; [apply Hk | discriminate | now elim Hc].
Qed.

Section Conversions.
Context {NC : NumberConv}.

Lemma ToString_primitive (v : JsVal) :
  isPrimitive v = true -> exists s, ToString v = Returns s.
Proof.
  destruct v as [| |[|]|[q| | |]|s|l|o]; try discriminate; intros _;
    cbn [ToString]; eauto.
Qed.

Lemma ToString_never_diverges (v : JsVal) : ToString v <> Diverges.
Proof.
  revert v.
  fix IH 1. intros v.
  destruct v as [| |[|]|[q| | |]|s|l|o]; cbn [ToString]; try discriminate.
  - unfold joinWith.
    assert (T : traverse (fun x => match x with
                                   | JUndefined | JNull => Returns []
                                   | _ => ToString x
                                   end) l <> Diverges).
    { induction l as [|x l IHl]; cbn [traverse]; [discriminate|].
      assert (X : match x with
                  | JUndefined | JNull => Returns []
                  | _ => ToString x
                  end <> Diverges).
      { pose proof (IH x). destruct x; trivial; discriminate. }
      destruct (match x with
                | JUndefined | JNull => Returns []
                | _ => ToString x
                end) as [y| |]; cbn [bind]; try discriminate; [|now elim X].
      match goal with |- bind ?t _ <> _ => destruct t as [ys| |] end;
        cbn [bind]; try discriminate. now elim IHl. }
    destruct (traverse _ l) as [ys| |]; cbn [bind]; try discriminate. now elim T.
  - destruct (hasOwn "toString" o); discriminate.
Qed.

Lemma ToPrimitive_primitive (v : JsVal) :
  isPrimitive v = true -> ToPrimitive v = Returns v.
Proof. destruct v; try discriminate; reflexivity. Qed.

Lemma ToPrimitive_never_diverges (v : JsVal) : ToPrimitive v <> Diverges.
Proof.
  destruct v; cbn [ToPrimitive]; try discriminate;
    match goal with
    | |- bind (ToString ?x) _ <> _ =>
        pose proof (ToString_never_diverges x) as H; destruct (ToString x);
        cbn [bind]; try discriminate; now elim H
    end.
Qed.

Lemma ToNumber_primitive (v : JsVal) :
  isPrimitive v = true -> exists n, ToNumber v = Returns n.
Proof.
  intros H. unfold ToNumber. rewrite (ToPrimitive_primitive v H). cbn [bind]. eauto.
Qed.

Lemma ToNumber_number (n : JsNum) : ToNumber (JNum n) = Returns n.
Proof. reflexivity. Qed.

(** A conversion to a number ends as the conversion to a primitive does. *)
Lemma ToNumber_returns (v : JsVal) (p : JsVal) :
  ToPrimitive v = Returns p -> exists n, ToNumber v = Returns n.
Proof. intros H. unfold ToNumber. rewrite H. cbn [bind]. eauto. Qed.

Lemma ToNumber_never_diverges (v : JsVal) : ToNumber v <> Diverges.
Proof.
  unfold ToNumber. pose proof (ToPrimitive_never_diverges v) as H.
  destruct (ToPrimitive v); cbn [bind]; try discriminate. now elim H.
Qed.

Lemma js_add_primitive (a b : JsVal) :
  isPrimitive a = true -> isPrimitive b = true ->
  exists v, js_add a b = Returns v /\ isPrimitive v = true.
Proof.
  intros Ha Hb. unfold js_add.
  rewrite (ToPrimitive_primitive a Ha), (ToPrimitive_primitive b Hb). cbn [bind].
  destruct (ToString_primitive a Ha) as (sa & Ea).
  destruct (ToString_primitive b Hb) as (sb & Eb).
  destruct (ToNumber_primitive a Ha) as (na & Na).
  destruct (ToNumber_primitive b Hb) as (nb & Nb).
  destruct a; try discriminate; destruct b; try discriminate;
    rewrite ?Ea, ?Eb, ?Na, ?Nb; cbn [bind]; eauto.
Qed.

(** What [+] returns is primitive. *)
Lemma js_add_returns (a b v : JsVal) :
  js_add a b = Returns v -> isPrimitive v = true.
Proof.
  unfold js_add.
  destruct (ToPrimitive a) as [pa| |] eqn:Ea; cbn [bind]; try discriminate.
  destruct (ToPrimitive b) as [pb| |] eqn:Eb; cbn [bind]; try discriminate.
  destruct pa; destruct pb;
    repeat match goal with
           | |- context [bind ?c _] => destruct c; cbn [bind]
           end;
    try discriminate; intros [= <-]; reflexivity.
Qed.

Lemma js_add_never_diverges (a b : JsVal) : js_add a b <> Diverges.
Proof.
  unfold js_add.
  apply bind_never_diverges; [apply ToPrimitive_never_diverges | intros pa].
  apply bind_never_diverges; [apply ToPrimitive_never_diverges | intros pb].
  destruct pa; destruct pb;
    repeat (apply bind_never_diverges;
            [first [apply ToString_never_diverges | apply ToNumber_never_diverges]
            | intros ?]);
    discriminate.
Qed.

Lemma js_lt_never_diverges (v : JsVal) (n : Q) : js_lt v n <> Diverges.
Proof.
  apply bind_never_diverges; [apply ToNumber_never_diverges | discriminate].
Qed.

Lemma js_neg_never_diverges (v : JsVal) : js_neg v <> Diverges.
Proof.
  apply bind_never_diverges; [apply ToNumber_never_diverges | discriminate].
Qed.

Lemma template_primitive (pieces : list Piece) :
  Forall (fun p => match p with
                   | Text _ => True
                   | Hole v => isPrimitive v = true
                   end) pieces ->
  exists s, template pieces = Returns s.
Proof.
  induction 1 as [|p pieces Hp _ (tail & IH)]; cbn [template]; [eauto|].
  destruct p as [t | v].
  - rewrite IH. cbn [bind]. eauto.
  - destruct (ToString_primitive v Hp) as (s & ->). rewrite IH. cbn [bind]. eauto.
Qed.

(** A template that opens with a text gives a string that opens with it. *)
Lemma template_text (t : string) (rest : list Piece) (s : jsstring) :
  template (Text t :: rest) = Returns s -> exists tail, s = lit t ++ tail.
Proof.
  cbn [template]. destruct (template rest) as [tail| |]; cbn [bind]; try discriminate.
  intros [= <-]. eauto.
Qed.

(** A template returns exactly when each of its holes converts. *)
Lemma template_holes (pieces : list Piece) :
  (exists s, template pieces = Returns s)
  <-> Forall (fun p => match p with
                       | Text _ => True
                       | Hole v => exists s, ToString v = Returns s
                       end) pieces.
Proof.
  induction pieces as [|p pieces IH]; cbn [template].
  - split; [constructor | eauto].
  - destruct p as [t | v].
    + split.
      * intros (s & H). constructor; trivial. apply IH.
        destruct (template pieces); cbn [bind] in H; try discriminate. eauto.
      * intros H. inversion H as [|? ? _ Hrest]; subst.
        apply IH in Hrest. destruct Hrest as (tail & ->). cbn [bind]. eauto.
    + split.
      * intros (s & H).
        destruct (ToString v) as [sv| |] eqn:E; cbn [bind] in H; try discriminate.
        constructor; [eauto|]. apply IH.
        destruct (template pieces); cbn [bind] in H; try discriminate. eauto.
      * intros H. inversion H as [|? ? Hv Hrest]; subst.
        destruct Hv as (sv & ->). apply IH in Hrest. destruct Hrest as (tail & ->). cbn [bind]. eauto.
Qed.

Lemma template_never_diverges (pieces : list Piece) : template pieces <> Diverges.
Proof.
  induction pieces as [|p pieces IH]; cbn [template]; [discriminate|].
  destruct p as [t | v].
  - destruct (template pieces); cbn [bind]; try discriminate. now elim IH.
  - pose proof (ToString_never_diverges v) as H.
    destruct (ToString v); cbn [bind]; try discriminate; [|now elim H].
    destruct (template pieces); cbn [bind]; try discriminate. now elim IH.
Qed.

Lemma joinVals_primitive (sep : jsstring) (vals : list JsVal) :
  Forall (fun v => isPrimitive v = true) vals ->
  exists s, joinVals sep vals = Returns s.
Proof.
  intros H. unfold joinVals, joinWith.
  destruct (traverse_returns
              (fun x => match x with
                        | JUndefined | JNull => Returns []
                        | _ => ToString x
                        end) vals) as (parts & ->).
  - intros x Hx. rewrite Forall_forall in H. specialize (H x Hx).
    destruct (ToString_primitive x H) as (s & E).
    destruct x; eauto.
  - cbn [bind]. eauto.
Qed.

End Conversions.

(** ** The dose-schedule normalizer *)

Section Normalizer.
Context {NC : NumberConv}.


Lemma normalizeTimesPerDay_number (n : JsNum) :
  num_lt (Fin 0) n = true -> normalizeTimesPerDay (JNum n) = Returns n.
Proof. intros H. unfold normalizeTimesPerDay. now rewrite H. Qed.

Lemma normalizeTimesPerDay_positive (value : JsVal) (count : JsNum) :
  normalizeTimesPerDay value = Returns count -> num_lt (Fin 0) count = true.
Proof.
  assert (R : (parsed <- parseInt value ;;
               Returns (if Number_isFinite parsed && num_lt (Fin 0) parsed
                        then parsed else Fin 1)) = Returns count ->
              num_lt (Fin 0) count = true).
  { destruct (parseInt value) as [parsed| |]; cbn [bind]; try discriminate.
    destruct (Number_isFinite parsed && num_lt (Fin 0) parsed) eqn:E;
      intros [= <-]; [|reflexivity].
    now apply andb_true_iff in E. }
  unfold normalizeTimesPerDay.
  destruct value as [| |b|n|s|l|o]; try exact R.
  destruct (num_lt (Fin 0) n) eqn:E; [|exact R]. now intros [= <-].
Qed.


Lemma normalizeTimesPerDay_integer (n : Z) :
  (0 < n)%Z -> normalizeTimesPerDay (jint n) = Returns (Fin (inject_Z n)).
Proof.
  intros H. apply normalizeTimesPerDay_number.
  change (Fin 0) with (Fin (inject_Z 0)). rewrite num_lt_inject. now apply Z.ltb_lt.
Qed.

(** While the counter is below the bound the loop body runs; at the bound
    the test fails and the loop returns what it has built.  Fuel beyond the
    number of tests changes nothing. *)
Lemma doseLoop_run (q : Q) (provided : list JsVal) (extra : nat) :
  forall fuel k,
    k + fuel = Z.to_nat (Qceiling q) ->
    doseLoop (S fuel + extra) (Fin q) provided (Z.of_nat k) (builtTimes provided k)
    = Some (builtTimes provided (k + fuel)).
Proof.
  induction fuel as [|fuel IH]; intros k H.
  - rewrite Nat.add_0_r in *. cbn [Nat.add doseLoop].
    rewrite (beyond_ceiling q (Z.of_nat k)) by lia. reflexivity.
  - cbn [Nat.add doseLoop]. rewrite (below_ceiling q (Z.of_nat k)) by lia.
    replace (Z.of_nat k + 1)%Z with (Z.of_nat (S k)) by lia.
    replace (k + S fuel) with (S k + fuel) by lia.
    rewrite <- IH by lia. reflexivity.
Qed.

Lemma doseLoop_finite (count : JsNum) (n : nat) (provided : list JsVal) (extra : nat) :
  iterations count = Some n ->
  doseLoop (S n + extra) count provided 0 [] = Some (builtTimes provided n).
Proof.
  destruct count as [q| | |]; cbn [iterations]; try discriminate; intros [= <-];
    try reflexivity.
  apply (doseLoop_run q provided extra (Z.to_nat (Qceiling q)) 0). lia.
Qed.

(** Against Infinity the test never fails: whatever the fuel, the loop has
    not returned when it runs out. *)
Lemma doseLoop_infinite (fuel : nat) : forall provided i result,
  doseLoop fuel Infinity provided i result = None.
Proof.
  induction fuel as [|fuel IH]; intros provided i result; cbn [doseLoop num_lt];
    trivial.
Qed.

Lemma normalizeDoseTimes_builtTimes (timesPerDay incoming : JsVal)
      (count : JsNum) (n : nat) :
  normalizeTimesPerDay timesPerDay = Returns count ->
  iterations count = Some n ->
  normalizeDoseTimes timesPerDay incoming
  = Returns (builtTimes (match incoming with JArr l => l | _ => [] end) n).
Proof.
  intros Hc Hn. unfold normalizeDoseTimes. rewrite Hc. cbn [bind]. rewrite Hn.
  pose proof (doseLoop_finite count n
                (match incoming with JArr l => l | _ => [] end) 0 Hn) as E.
  rewrite Nat.add_0_r in E. now rewrite E.
Qed.

(** Whenever [normalizeDoseTimes] returns, it returns the array built in as
    many iterations as the ceiling of a positive finite count. *)
Lemma normalizeDoseTimes_returns (timesPerDay incoming : JsVal)
      (times : list jsstring) :
  normalizeDoseTimes timesPerDay incoming = Returns times ->
  exists q,
    normalizeTimesPerDay timesPerDay = Returns (Fin q)
    /\ (0 < q)%Q
    /\ times = builtTimes (match incoming with JArr l => l | _ => [] end)
                          (Z.to_nat (Qceiling q)).
Proof.
  intros H.
  destruct (normalizeTimesPerDay timesPerDay) as [count| |] eqn:Hc;
    try (unfold normalizeDoseTimes in H; rewrite Hc in H; discriminate).
  pose proof (normalizeTimesPerDay_positive _ _ Hc) as Hp.
  destruct (positive_number count Hp) as [(q & -> & Hq) | ->].
  - exists q. repeat split; trivial.
    rewrite (normalizeDoseTimes_builtTimes _ incoming _ _ Hc eq_refl) in H.
    now injection H as <-.
  - unfold normalizeDoseTimes in H. rewrite Hc in H. discriminate.
Qed.

Lemma builtTimes_length provided n : length (builtTimes provided n) = n.
Proof.
  induction n as [|n IH]; trivial.
  cbn [builtTimes]. rewrite length_app, IH. cbn. lia.
Qed.

Lemma builtTimes_wellformed provided n :
  Forall (fun s => isTimeString s = true) (builtTimes provided n).
Proof.
  induction n as [|n IH]; [constructor|].
  cbn [builtTimes]. apply Forall_app. split; trivial.
  constructor; [apply normalizeTime_wellformed | constructor].
Qed.

Lemma builtTimes_nth_error provided n : forall i,
  i < n -> nth_error (builtTimes provided n) i
           = nth_error (builtTimes provided (S i)) i.
Proof.
  induction n as [|n IH]; intros i H; [lia|].
  destruct (Nat.eq_dec i n) as [->|]; trivial.
  rewrite <- IH by lia.
  cbn [builtTimes]. apply nth_error_app1. rewrite builtTimes_length. lia.
Qed.

Lemma builtTimes_entry provided n i :
  i < n ->
  nth_error (builtTimes provided n) i
  = Some (specEntry provided
            (match i with O => None | S j => nth_error (builtTimes provided n) j end)
            i).
Proof.
  intros H. rewrite builtTimes_nth_error by trivial.
  cbn [builtTimes].
  rewrite nth_error_app2 by (rewrite builtTimes_length; lia).
  rewrite builtTimes_length, Nat.sub_diag. cbn [nth_error]. f_equal.
  unfold specEntry, arr_get at 1.
  replace (Z.of_nat i <? 0)%Z with false by (symmetry; apply Z.ltb_ge; lia).
  rewrite Nat2Z.id.
  assert (P : nullish
                (arr_get (List.map JStr (builtTimes provided i)) (Z.of_nat i - 1))
                (jstr "08:00")
              = JStr (match i with
                      | O => lit "08:00"
                      | S j => nth j (builtTimes provided n) []
                      end)
              /\ isTimeString (match i with
                               | O => lit "08:00"
                               | S j => nth j (builtTimes provided n) []
                               end) = true
              /\ match i with
                 | O => True
                 | S j => nth_error (builtTimes provided n) j
                          = Some (nth j (builtTimes provided n) [])
                 end).
  { destruct i as [|j].
    - repeat split.
    - assert (L : j < length (builtTimes provided n))
        by (rewrite builtTimes_length; lia).
      assert (E : nth_error (builtTimes provided n) j
                  = Some (nth j (builtTimes provided n) []))
        by now apply nth_error_nth'.
      unfold arr_get.
      replace (Z.of_nat (S j) - 1 <? 0)%Z with false
        by (symmetry; apply Z.ltb_ge; lia).
      replace (Z.to_nat (Z.of_nat (S j) - 1)) with j by lia.
      assert (E' : nth_error (builtTimes provided (S j)) j
                   = Some (nth j (builtTimes provided n) [])).
      { rewrite <- E. symmetry. apply builtTimes_nth_error. lia. }
      rewrite (nth_error_nth _ _ _ (map_nth_error JStr _ _ E')).
      repeat split; trivial.
      pose proof (builtTimes_wellformed provided n) as W.
      rewrite Forall_forall in W. apply W. eapply nth_error_In; eauto. }
  destruct P as (P1 & P2 & P3).
  destruct (nth i provided JUndefined) as [| |b|x|s|l|o] eqn:C; cbn [nullish];
    try reflexivity; try apply normalizeTime_string.
  - rewrite P1, (normalizeTime_fixed _ P2).
    destruct i as [|j]; trivial. now rewrite P3.
  - rewrite P1, (normalizeTime_fixed _ P2).
    destruct i as [|j]; trivial. now rewrite P3.
Qed.

(** C1: for every positive integer [n] and every candidate value,
    [normalizeDoseTimes(n, candidates)] returns, and what it returns is
    exactly [n] strings, each of the strict HH:MM shape (hours 00-23,
    minutes 00-59). *)
Theorem normalizeDoseTimes_count_and_shape (n : Z) (candidates : JsVal) :
  (0 < n)%Z ->
  exists times,
    normalizeDoseTimes (jint n) candidates = Returns times
    /\ length times = Z.to_nat n
    /\ Forall (fun s => isTimeString s = true) times.
Proof.
  intros H.
  exists (builtTimes (match candidates with JArr l => l | _ => [] end) (Z.to_nat n)).
  split; [|split].
  - apply (normalizeDoseTimes_builtTimes _ _ _ _ (normalizeTimesPerDay_integer n H)).
    cbn [iterations]. now rewrite Qceiling_Z.
  - apply builtTimes_length.
  - apply builtTimes_wellformed.
Qed.

(** C2: entry [i] of what [normalizeDoseTimes] returns is the candidate at
    [i] when it is present and valid, the default 08:00 when it is present
    and invalid, the previous entry when no candidate is present, and 08:00
    when none is present at index 0; the two worked examples of the
    specification. *)
Theorem normalizeDoseTimes_entries :
  (forall (timesPerDay : JsVal) (provided : list JsVal) (result : list jsstring)
          (i : nat),
      normalizeDoseTimes timesPerDay (JArr provided) = Returns result ->
      i < length result ->
      nth_error result i
      = Some (specEntry provided
                (match i with O => None | S j => nth_error result j end) i))
  /\ normalizeDoseTimes (jint 3) (JArr [jstr "09:00"])
     = Returns [lit "09:00"; lit "09:00"; lit "09:00"]
  /\ normalizeDoseTimes (jint 2) (JArr [jstr "9am"; jstr "14:30"])
     = Returns [lit "08:00"; lit "14:30"].
Proof.
  split; [|split].
  - intros timesPerDay provided result i H Hi.
    destruct (normalizeDoseTimes_returns _ _ _ H) as (q & _ & _ & ->).
    rewrite builtTimes_length in Hi. now apply builtTimes_entry.
  - rewrite (normalizeDoseTimes_builtTimes _ _ _ 3
               (normalizeTimesPerDay_integer 3 eq_refl) eq_refl).
    reflexivity.
  - rewrite (normalizeDoseTimes_builtTimes _ _ _ 2
               (normalizeTimesPerDay_integer 2 eq_refl) eq_refl).
    reflexivity.
Qed.

(** ** The phone normalizer *)

Lemma sliceLast_nonempty (n : nat) (c : N) (s : jsstring) :
  0 < n -> sliceLast n (c :: s) <> [].
Proof.
  intros H E. apply (f_equal (@length N)) in E.
  unfold sliceLast in E. rewrite length_skipn in E. cbn [length] in E. lia.
Qed.

(** The phone normalizer on the string a value converts to. *)
Lemma formatPhoneNumber_converted (phone : JsVal) (s : jsstring) :
  truthy phone = true -> ToString phone = Returns s ->
  formatPhoneNumber phone = Returns (specPhone (filter isDigit s)).
Proof.
  intros Ht Hs. unfold formatPhoneNumber, specPhone. rewrite Ht, Hs. cbn [negb bind].
  destruct (filter isDigit s) as [|d ds] eqn:E; trivial.
  destruct (startsWith (d :: ds) (lit "91") && (12 <=? length (d :: ds))); trivial.
  destruct (sliceLast 10 (d :: ds)) eqn:L; trivial.
  exfalso. revert L. apply sliceLast_nonempty. lia.
Qed.

Lemma formatPhoneNumber_specPhone (s : jsstring) :
  formatPhoneNumber (JStr s) = Returns (specPhone (filter isDigit s)).
Proof.
  destruct s as [|c s]; [reflexivity|].
  now apply formatPhoneNumber_converted.
Qed.


End Normalizer.

Lemma normalizeDoseTimes_count_and_shape_witness :
  (0 < 3)%Z
  /\ exists times,
      @normalizeDoseTimes integerConv (jint 3) (JArr [jstr "09:00"]) = Returns times
      /\ length times = Z.to_nat 3
      /\ Forall (fun s => isTimeString s = true) times.
Proof.
  split; [lia|].
  apply (@normalizeDoseTimes_count_and_shape integerConv 3 (JArr [jstr "09:00"])).
  lia.
Defined.

Lemma normalizeDoseTimes_entries_witness :
  let provided := [jstr " 21:15 "; JNull; jint 7] in
  let result := [lit "21:15"; lit "21:15"; lit "08:00"] in
  @normalizeDoseTimes integerConv (jstr "3") (JArr provided) = Returns result
  /\ 1 < length result
  /\ nth_error result 1 = Some (specEntry provided (nth_error result 0) 1).
Proof.
  cbv zeta. split; [reflexivity|]. split; [cbn; lia|].
  apply (proj1 (@normalizeDoseTimes_entries integerConv)
               (jstr "3") [jstr " 21:15 "; JNull; jint 7]
               [lit "21:15"; lit "21:15"; lit "08:00"] 1).
  - reflexivity.
  - cbn. lia.
Defined.

(** ** Lists and strings *)

Lemma jsstring_eqb_refl (a : jsstring) : jsstring_eqb a a = true.
Proof. unfold jsstring_eqb. now destruct (list_eq_dec N.eq_dec a a). Qed.

Lemma jsstring_eqb_eq (a b : jsstring) : jsstring_eqb a b = true <-> a = b.
Proof.
  unfold jsstring_eqb. destruct (list_eq_dec N.eq_dec a b); split; congruence.
Qed.

Lemma startsWith_app (p rest : jsstring) : startsWith (p ++ rest) p = true.
Proof.
  unfold startsWith. rewrite firstn_app, Nat.sub_diag, firstn_all.
  cbn [firstn]. rewrite app_nil_r. apply jsstring_eqb_refl.
Qed.

Lemma startsWith_other_head (a b : N) (s p : jsstring) :
  a <> b -> startsWith (a :: s) (b :: p) = false.
Proof.
  intros H. unfold startsWith. cbn [length firstn].
  destruct (jsstring_eqb _ _) eqn:E; trivial.
  apply jsstring_eqb_eq in E. congruence.
Qed.

Lemma find_updateFirst {A : Type} (p : A -> bool) (f : A -> A) (l : list A) (x : A) :
  find p l = Some x -> p (f x) = true ->
  find p (updateFirst p f l) = Some (f x).
Proof.
  induction l as [|y l IH]; [discriminate|].
  cbn [find updateFirst]. destruct (p y) eqn:E.
  - intros [= ->] H. cbn [find]. now rewrite H.
  - intros H1 H2. cbn [find]. rewrite E. now apply IH.
Qed.

Lemma find_none_all {A : Type} (p : A -> bool) (l : list A) :
  (forall x, In x l -> p x = false) -> find p l = None.
Proof.
  induction l as [|y l IH]; trivial.
  intros H. cbn [find]. rewrite (H y) by now left.
  apply IH. intros x Hx. apply H. now right.
Qed.

Lemma findIndex_none_all {A : Type} (p : A -> bool) (l : list A) :
  (forall x, In x l -> p x = false) -> findIndex p l = None.
Proof.
  induction l as [|y l IH]; trivial.
  intros H. cbn [findIndex]. rewrite (H y) by now left.
  rewrite IH; trivial. intros x Hx. apply H. now right.
Qed.

Lemma find_findIndex {A : Type} (p : A -> bool) (l : list A) : forall idx x,
  findIndex p l = Some idx -> nth_error l idx = Some x -> find p l = Some x.
Proof.
  induction l as [|y l IH]; intros idx x; [discriminate|].
  cbn [find findIndex]. destruct (p y).
  - intros [= <-]. cbn. congruence.
  - destruct (findIndex p l) as [i|]; [|discriminate].
    intros [= <-]. cbn [nth_error]. now apply IH.
Qed.

Lemma findIndex_holds {A : Type} (p : A -> bool) (l : list A) : forall idx x,
  findIndex p l = Some idx -> nth_error l idx = Some x -> p x = true.
Proof.
  intros idx x H1 H2. pose proof (find_findIndex p l idx x H1 H2) as F.
  apply find_some in F. apply F.
Qed.

Lemma nth_error_setAt {A : Type} (l : list A) : forall idx (x v : A),
  nth_error l idx = Some x -> nth_error (setAt idx v l) idx = Some v.
Proof.
  induction l as [|y l IH]; intros [|idx] x v H; try discriminate; cbn in *; eauto.
Qed.

Lemma find_exists {A : Type} (p : A -> bool) (l : list A) (x : A) :
  In x l -> p x = true -> exists y, find p l = Some y.
Proof.
  induction l as [|z l IH]; [contradiction|].
  intros [-> | H] Hp; cbn [find].
  - rewrite Hp. eauto.
  - destruct (p z); eauto.
Qed.

Lemma find_app_none {A : Type} (p : A -> bool) (l l' : list A) :
  existsb p l = false -> find p (l ++ l') = find p l'.
Proof.
  induction l as [|x l IH]; trivial.
  cbn [existsb app find]. intros H. apply orb_false_iff in H.
  destruct H as [-> H]. now apply IH.
Qed.

Lemma Forall_updateFirst {A : Type} (P : A -> Prop) (p : A -> bool) (f : A -> A)
      (l : list A) :
  (forall x, find p l = Some x -> P (f x)) -> Forall P l -> Forall P (updateFirst p f l).
Proof.
  intros Hf H. induction H as [|x l Hx Hl IH]; cbn [updateFirst]; [constructor|].
  cbn [find] in Hf. destruct (p x); constructor; auto.
Qed.

Lemma Forall_setAt {A : Type} (P : A -> Prop) (v : A) (l : list A) : forall idx,
  P v -> Forall P l -> Forall P (setAt idx v l).
Proof.
  intros idx Hv H. revert idx.
  induction H as [|x l Hx Hl IH]; intros [|idx]; cbn [setAt]; constructor; auto.
Qed.

Lemma updateFirst_same {A : Type} (p : A -> bool) (f : A -> A) (l : list A) :
  (forall x, find p l = Some x -> f x = x) -> updateFirst p f l = l.
Proof.
  induction l as [|y l IH]; intros H; trivial.
  cbn [updateFirst find] in *. destruct (p y).
  - now rewrite H.
  - now rewrite IH.
Qed.

Lemma filter_setAt_other {A : Type} (g : A -> bool) (v : A) (l : list A) :
  forall idx x, nth_error l idx = Some x -> g x = false -> g v = false ->
                filter g (setAt idx v l) = filter g l.
Proof.
  induction l as [|y l IH]; intros [|idx] x H Hx Hv; try discriminate;
    cbn [setAt filter] in *.
  - injection H as ->. now rewrite Hx, Hv.
  - now rewrite (IH idx x).
Qed.

Lemma Forall2_refl_on {A : Type} (R : A -> A -> Prop) (l : list A) :
  (forall x, R x x) -> Forall2 R l l.
Proof. intros H. induction l; constructor; auto. Qed.

Lemma Forall2_updateFirst {A : Type} (R : A -> A -> Prop) (p : A -> bool)
      (f : A -> A) (l : list A) :
  (forall x, R x x) ->
  (forall x, find p l = Some x -> R x (f x)) ->
  Forall2 R l (updateFirst p f l).
Proof.
  intros Hr. induction l as [|y l IH]; intros H; cbn [updateFirst]; [constructor|].
  cbn [find] in H. destruct (p y).
  - constructor; [now apply H | now apply Forall2_refl_on].
  - constructor; auto.
Qed.

Lemma Forall2_setAt {A : Type} (R : A -> A -> Prop) (v : A) (l : list A) :
  (forall x, R x x) ->
  forall idx x, nth_error l idx = Some x -> R x v -> Forall2 R l (setAt idx v l).
Proof.
  intros Hr. induction l as [|y l IH]; intros [|idx] x H Hv; try discriminate;
    cbn [setAt] in *.
  - injection H as ->. constructor; [trivial | now apply Forall2_refl_on].
  - constructor; eauto.
Qed.

(** The medication a store writes is the one found afterwards. *)
Lemma find_storeMedication (d : Db) (isMember : Member.t -> bool)
      (isMedication : Medication.t -> bool) (member : Member.t)
      (med med' : Medication.t) :
  find isMember (members d) = Some member ->
  find isMedication (Member.medications member) = Some med ->
  isMedication med' = true ->
  isMember (Member.with_medications member
              (updateFirst isMedication (fun _ => med') (Member.medications member)))
  = true ->
  exists member',
    find isMember (members (storeMedication d isMember isMedication med')) = Some member'
    /\ find isMedication (Member.medications member') = Some med'.
Proof.
  intros Hm Hmed Hmed' Hm'. unfold storeMedication. cbn [members with_members].
  eexists. split.
  - apply (find_updateFirst isMember _ _ member Hm). exact Hm'.
  - cbn [Member.medications Member.with_medications].
    apply (find_updateFirst isMedication (fun _ => med') _ med Hmed). exact Hmed'.
Qed.

(** ** Supply and consumption *)

Section Consume.
Context {NC : NumberConv}.

(** The warning converts the names the dose entry has converted. *)
Lemma warning_after_dose (name memberName supply : JsVal) (m : jsstring) :
  template [Text "Dose taken: "; Hole name; Text " ("; Hole memberName;
            Text "). Remaining: "; Hole supply] = Returns m ->
  exists w,
    template [Text "WARNING: Low supply for "; Hole name; Text " (";
              Hole memberName; Text "). Notify head of family."] = Returns w.
Proof.
  intros H. apply template_holes.
  assert (F : exists s, template [Text "Dose taken: "; Hole name; Text " (";
                                  Hole memberName; Text "). Remaining: ";
                                  Hole supply] = Returns s) by eauto.
  apply template_holes in F.
  inversion F as [|? ? _ F1]; subst. inversion F1 as [|? ? H1 F2]; subst.
  inversion F2 as [|? ? _ F3]; subst. inversion F3 as [|? ? H3 _]; subst.
  repeat constructor; trivial.
Qed.

(** The log part of a consume: thrown on the first template with nothing
    logged, or answered 200 with the dose entry, under the warning exactly
    when the new supply is at most 5 and the old one above 5. *)
Lemma consumeLog_cases (env : Env) (d2 : Db) (user : User.t)
      (memberId medId : jsstring) (member : Member.t) (med2 : Medication.t)
      (oldSupply : JsVal) (newSupply old : JsNum) :
  ToNumber oldSupply = Returns old ->
  (consumeLog env d2 user memberId medId member med2 oldSupply newSupply = Thrown d2
   /\ template [Text "Dose taken: "; Hole (Medication.name med2);
                Text " ("; Hole (Member.name member);
                Text "). Remaining: "; Hole (Medication.supply med2)] = Throws)
  \/ exists r doseEntry warning,
      status r = 200
      /\ Log.familyId doseEntry = User.familyId user
      /\ Log.familyId warning = User.familyId user
      /\ isLowSupplyWarning doseEntry = false
      /\ isLowSupplyWarning warning = true
      /\ consumeLog env d2 user memberId medId member med2 oldSupply newSupply
         = Answered r
             (with_logs d2
                ((if num_le newSupply (Fin 5) && num_lt (Fin 5) old
                  then [warning; doseEntry] else [doseEntry]) ++ logs d2)).
Proof.
  intros Hold. unfold consumeLog.
  destruct (template [Text "Dose taken: "; Hole (Medication.name med2);
                      Text " ("; Hole (Member.name member);
                      Text "). Remaining: "; Hole (Medication.supply med2)])
    as [m| |] eqn:Hm; cbn [attempt].
  - right.
    destruct (warning_after_dose _ _ _ _ Hm) as (w & Hw).
    destruct (template_text _ _ _ Hm) as (mt & ->).
    destruct (template_text _ _ _ Hw) as (wt & Ew).
    assert (D : forall id stamp,
               isLowSupplyWarning
                 (Log.mk id (User.familyId user) stamp
                    (JStr (lit "Dose taken: " ++ mt))) = false).
    { intros id stamp. unfold isLowSupplyWarning. cbn [Log.message].
      now apply startsWith_other_head. }
    assert (W : forall id stamp,
               isLowSupplyWarning (Log.mk id (User.familyId user) stamp (JStr w)) = true).
    { intros id stamp. unfold isLowSupplyWarning. cbn [Log.message].
      rewrite Ew. apply startsWith_app. }
    exists (json (BConsume
                    (mkConsumeView memberId medId
                       (Medication.supply med2) (Medication.consumedCount med2)
                       (js_or (Medication.timesPerDay med2) (jint 1))
                       (js_or (Medication.doseTimes med2)
                              (JArr [JStr (normalizeTime (jstr "08:00"))]))))),
      (Log.mk (randomUUID env 0) (User.familyId user) (nowISO env 0)
              (JStr (lit "Dose taken: " ++ mt))),
      (Log.mk (randomUUID env 1) (User.familyId user) (nowISO env 1) (JStr w)).
    split; [reflexivity|]. split; [reflexivity|]. split; [reflexivity|].
    split; [apply D|]. split; [apply W|].
    unfold js_gt. rewrite Hold. cbn [bind].
    destruct (num_le newSupply (Fin 5)); cbn [andb attempt]; [|reflexivity].
    destruct (num_lt (Fin 5) old); [|reflexivity].
    rewrite Hw. reflexivity.
  - now left.
  - now elim (template_never_diverges _ Hm).
Qed.

(** Where a consume that has found its medication can stop, and with what
    written. *)
Lemma consume_cases (env : Env) (d : Db) (user : User.t)
      (memberId medId : jsstring) (reqBody : JsVal)
      (member : Member.t) (med : Medication.t) :
  find (ownedBy memberId (User.familyId user)) (members d) = Some member ->
  find (sameMedId (JStr medId)) (Member.medications member) = Some med ->
  let change :=
    match prop reqBody "change" with JUndefined => jint (-1) | v => v end in
  let store :=
    storeMedication d (ownedBy memberId (User.familyId user)) (sameMedId (JStr medId)) in
  (consume env d user memberId medId reqBody = Thrown d
   /\ js_add (Medication.supply med) change = Throws)
  \/ exists sum summed old,
      js_add (Medication.supply med) change = Returns sum
      /\ ToNumber sum = Returns summed
      /\ ToNumber (Medication.supply med) = Returns old
      /\ (consume env d user memberId medId reqBody
          = Thrown (store (Medication.with_stock med (JNum (Math_max (Fin 0) summed))
                             (Medication.consumedCount med)))
          \/ exists negative taken newConsumed,
              js_lt change 0 = Returns negative
              /\ (if negative then js_neg change else Returns (jint 0)) = Returns taken
              /\ js_add (js_or (Medication.consumedCount med) (jint 0)) taken
                 = Returns newConsumed
              /\ consume env d user memberId medId reqBody
                 = consumeLog env
                     (store (Medication.with_stock med
                               (JNum (Math_max (Fin 0) summed)) newConsumed))
                     user memberId medId member
                     (Medication.with_stock med (JNum (Math_max (Fin 0) summed))
                                            newConsumed)
                     (Medication.supply med) (Math_max (Fin 0) summed)).
Proof.
  intros Hm Hmed. cbv zeta. unfold consume. rewrite Hm, Hmed.
  destruct (js_add (Medication.supply med) _) as [sum| |] eqn:Hsum; cbn [attempt];
    [right | now left | now elim (js_add_never_diverges _ _ Hsum)].
  assert (P : isPrimitive sum = true) by exact (js_add_returns _ _ _ Hsum).
  destruct (ToNumber_primitive sum P) as (summed & Hsummed).
  assert (O : exists old, ToNumber (Medication.supply med) = Returns old).
  { unfold js_add in Hsum.
    destruct (ToPrimitive (Medication.supply med)) as [pa| |] eqn:Ea;
      cbn [bind] in Hsum; try discriminate.
    exact (ToNumber_returns _ _ Ea). }
  destruct O as (old & Hold).
  exists sum, summed, old. repeat (split; trivial).
  rewrite Hsummed. cbn [attempt].
  destruct (js_lt _ 0) as [negative| |] eqn:Hneg; cbn [attempt];
    [| now left | now elim (js_lt_never_diverges _ _ Hneg)].
  destruct (if negative then js_neg _ else Returns (jint 0))
    as [taken| |] eqn:Htaken; cbn [attempt]; [| now left |].
  - destruct (js_add (js_or _ _) taken) as [newConsumed| |] eqn:Hc; cbn [attempt];
      [| now left | now elim (js_add_never_diverges _ _ Hc)].
    right. now exists negative, taken, newConsumed.
  - exfalso. destruct negative; [|discriminate].
    now elim (js_neg_never_diverges _ Htaken).
Qed.

End Consume.

Section ConsumeArithmetic.
Context {NC : NumberConv}.

Lemma js_add_integers (a b : Z) : js_add (jint a) (jint b) = Returns (jint (a + b)).
Proof.
  unfold js_add, jint. cbn [ToPrimitive ToNumber bind num_add].
  unfold Qplus, inject_Z. cbn [Qnum Qden Pos.mul].
  now rewrite !Z.mul_1_r.
Qed.

Lemma Math_max_integer (x : Z) :
  Math_max (Fin 0) (Fin (inject_Z x)) = Fin (inject_Z (Z.max 0 x)).
Proof.
  unfold Math_max, Qcompare, inject_Z, Z.max. cbn [Qnum Qden].
  rewrite !Z.mul_1_r. now destruct (0 ?= x)%Z.
Qed.


Lemma js_lt_integer (c : Z) : js_lt (jint c) 0 = Returns (c <? 0)%Z.
Proof.
  unfold js_lt, jint. cbn [ToNumber ToPrimitive bind]. f_equal.
  apply (num_lt_inject c 0).
Qed.

Lemma num_le_inject (a b : Z) :
  num_le (Fin (inject_Z a)) (Fin (inject_Z b)) = (a <=? b)%Z.
Proof.
  unfold num_le, Qcompare, inject_Z. cbn [Qnum Qden]. rewrite !Z.mul_1_r.
  unfold Z.leb. now destruct (a ?= b)%Z.
Qed.

Lemma requested_change (reqBody : JsVal) (c : Z) :
  requestsChange reqBody c ->
  match prop reqBody "change" with JUndefined => jint (-1) | v => v end = jint c.
Proof. intros [-> | [-> ->]]; reflexivity. Qed.

(** A consume on an integer supply with an integer change gets as far as
    the log with the new stock written. *)
Lemma consume_integer_supply (env : Env) (d : Db) (user : User.t)
      (memberId medId : jsstring) (reqBody : JsVal)
      (member : Member.t) (med : Medication.t) (s c : Z) :
  find (ownedBy memberId (User.familyId user)) (members d) = Some member ->
  find (sameMedId (JStr medId)) (Member.medications member) = Some med ->
  Medication.supply med = jint s ->
  requestsChange reqBody c ->
  isPrimitive (Medication.consumedCount med) = true ->
  exists newConsumed,
    js_add (js_or (Medication.consumedCount med) (jint 0))
           (jint (if (c <? 0)%Z then - c else 0))
    = Returns newConsumed
    /\ consume env d user memberId medId reqBody
       = consumeLog env
           (storeMedication d (ownedBy memberId (User.familyId user))
              (sameMedId (JStr medId))
              (Medication.with_stock med (jint (Z.max 0 (s + c))) newConsumed))
           user memberId medId member
           (Medication.with_stock med (jint (Z.max 0 (s + c))) newConsumed)
           (jint s) (Fin (inject_Z (Z.max 0 (s + c)))).
Proof.
  intros Hm Hmed Hs Hc Hk.
  assert (K : isPrimitive (js_or (Medication.consumedCount med) (jint 0)) = true).
  { unfold js_or. now destruct (truthy _). }
  destruct (js_add_primitive _ (jint (if (c <? 0)%Z then - c else 0)) K eq_refl)
    as (newConsumed & Hadd & _).
  exists newConsumed. split; trivial.
  unfold consume. rewrite Hm, Hmed, (requested_change _ _ Hc), Hs.
  rewrite (js_add_integers s c). cbn [attempt].
  unfold jint at 1. rewrite ToNumber_number. cbn [attempt].
  rewrite Math_max_integer, js_lt_integer. cbn [attempt].
  assert (T : (if (c <? 0)%Z then js_neg (jint c) else Returns (jint 0))
              = Returns (jint (if (c <? 0)%Z then - c else 0))).
  { destruct (c <? 0)%Z; reflexivity. }
  rewrite T. cbn [attempt]. rewrite Hadd. cbn [attempt]. reflexivity.
Qed.

Lemma ownedBy_stored (memberId familyId : jsstring) (member : Member.t)
      (meds : list Medication.t) :
  ownedBy memberId familyId (Member.with_medications member meds)
  = ownedBy memberId familyId member.
Proof. reflexivity. Qed.

(** The medication found after a consume that got as far as the log. *)
Lemma findMedication_after_log (env : Env) (d : Db) (user : User.t)
      (memberId medId : jsstring) (member : Member.t) (med med2 : Medication.t)
      (oldSupply : JsVal) (newSupply old : JsNum) (d' : Db) :
  find (ownedBy memberId (User.familyId user)) (members d) = Some member ->
  find (sameMedId (JStr medId)) (Member.medications member) = Some med ->
  Medication.id med2 = Medication.id med ->
  ToNumber oldSupply = Returns old ->
  after (consumeLog env
           (storeMedication d (ownedBy memberId (User.familyId user))
              (sameMedId (JStr medId)) med2)
           user memberId medId member med2 oldSupply newSupply) = Some d' ->
  findMedication d' (User.familyId user) memberId medId = Some med2.
Proof.
  intros Hm Hmed Hid Hold Hafter.
  destruct (find_storeMedication d _ _ member med med2 Hm Hmed) as (member' & F1 & F2).
  { unfold sameMedId. rewrite Hid. apply find_some in Hmed. apply Hmed. }
  { rewrite ownedBy_stored. apply find_some in Hm. apply Hm. }
  assert (G : members d'
              = members (storeMedication d (ownedBy memberId (User.familyId user))
                           (sameMedId (JStr medId)) med2)).
  { destruct (consumeLog_cases env
                (storeMedication d (ownedBy memberId (User.familyId user))
                   (sameMedId (JStr medId)) med2)
                user memberId medId member med2 oldSupply newSupply old Hold)
      as [[E _] | (r & doseEntry & warning & _ & _ & _ & _ & _ & E)];
      rewrite E in Hafter; injection Hafter as <-; reflexivity. }
  unfold findMedication. rewrite G, F1. exact F2.
Qed.

(** C4 (amended): a consume that finds a medication with an integer supply,
    for an integer change (-1 when the request has none), a member and a
    medication whose names are primitive values and a primitive
    consumedCount, is answered 200 and puts its new entries in front of the
    log: the dose entry, and with it the low-supply warning exactly when
    the supply was strictly above 5 before and is at most 5 after.  On a
    supply of 6, adding one and consuming three times gives the supplies 7,
    6, 5 and 4 and a single warning, logged by the consume that went from 6
    to 5. *)
Theorem consume_low_supply_warning :
  (forall (env : Env) (d : Db) (user : User.t) (memberId medId : jsstring)
          (reqBody : JsVal) (member : Member.t) (med : Medication.t) (s c : Z),
      find (ownedBy memberId (User.familyId user)) (members d) = Some member ->
      find (sameMedId (JStr medId)) (Member.medications member) = Some med ->
      Medication.supply med = jint s ->
      requestsChange reqBody c ->
      isPrimitive (Medication.consumedCount med) = true ->
      isPrimitive (Medication.name med) = true ->
      isPrimitive (Member.name member) = true ->
      exists r d' med' newEntries,
        consume env d user memberId medId reqBody = Answered r d'
        /\ status r = 200
        /\ findMedication d' (User.familyId user) memberId medId = Some med'
        /\ Medication.supply med' = jint (Z.max 0 (s + c))
        /\ logs d' = newEntries ++ logs d
        /\ ((5 < s)%Z /\ (Z.max 0 (s + c) <= 5)%Z -> countWarnings newEntries = 1)
        /\ (~ ((5 < s)%Z /\ (Z.max 0 (s + c) <= 5)%Z) -> countWarnings newEntries = 0)
        /\ length newEntries = 1 + countWarnings newEntries)
  /\ (let step := fun (change : Z) (before : Db) =>
                    stateAfter before
                      (@consume integerConv exampleEnv before asha (lit "m1") (lit "med1")
                                (JObj [field "change" (jint change)])) in
      let d1 := step 1%Z exampleDb in
      let d2 := step (-1)%Z d1 in
      let d3 := step (-1)%Z d2 in
      let d4 := step (-1)%Z d3 in
      List.map (fun d => option_map Medication.supply
                           (findMedication d (lit "f1") (lit "m1") (lit "med1")))
               [exampleDb; d1; d2; d3; d4]
      = [Some (jint 6); Some (jint 7); Some (jint 6); Some (jint 5); Some (jint 4)]
      /\ List.map (fun d => countWarnings (logs d)) [exampleDb; d1; d2; d3; d4]
         = [0; 0; 0; 1; 1]
      /\ List.map (fun d => length (logs d)) [exampleDb; d1; d2; d3; d4]
         = [0; 1; 2; 4; 5]).
Proof.
  split; [|vm_compute; repeat split].
  intros env d user memberId medId reqBody member med s c
         Hm Hmed Hs Hc Hk Hname Hmember.
  destruct (consume_integer_supply env d user memberId medId reqBody member med s c
              Hm Hmed Hs Hc Hk) as (newConsumed & _ & E).
  set (med2 := Medication.with_stock med (jint (Z.max 0 (s + c))) newConsumed) in *.
  set (d2 := storeMedication d _ _ med2) in *.
  destruct (consumeLog_cases env d2 user memberId medId member med2 (jint s)
              (Fin (inject_Z (Z.max 0 (s + c)))) (Fin (inject_Z s)) eq_refl)
    as [[_ T] | (r & doseEntry & warning & Hr & _ & _ & Hd & Hw & L)].
  - exfalso.
    destruct (template_primitive
                [Text "Dose taken: "; Hole (Medication.name med2);
                 Text " ("; Hole (Member.name member);
                 Text "). Remaining: "; Hole (Medication.supply med2)])
      as (m & Em); [|rewrite Em in T; discriminate].
    repeat constructor; trivial.
  - rewrite <- E in L.
    assert (A : after (consume env d user memberId medId reqBody) = Some
                  (with_logs d2
                     ((if num_le (Fin (inject_Z (Z.max 0 (s + c)))) (Fin 5)
                          && num_lt (Fin 5) (Fin (inject_Z s))
                       then [warning; doseEntry] else [doseEntry]) ++ logs d2)))
      by now rewrite L.
    rewrite E in A.
    pose proof (findMedication_after_log env d user memberId medId member med med2
                  (jint s) _ (Fin (inject_Z s)) _ Hm Hmed eq_refl eq_refl A) as F.
    eexists r, _, med2, _. split; [exact L|]. split; [exact Hr|].
    split; [exact F|]. split; [reflexivity|]. split; [reflexivity|].
    change (Fin 5) with (Fin (inject_Z 5)). rewrite num_le_inject, num_lt_inject.
    unfold countWarnings.
    destruct (Z.leb_spec (Z.max 0 (s + c)) 5); destruct (Z.ltb_spec 5 s);
      cbn [andb filter]; rewrite ?Hd, ?Hw; cbn [length];
      (split; [intros; lia | split; [intros N; try reflexivity; elim N; lia | reflexivity]]).
Qed.


End ConsumeArithmetic.

Lemma startWorld_reachable : @reachable integerConv exampleDb startWorld.
Proof. apply reach_start. reflexivity. Qed.

Lemma sessionWorld_reachable : @reachable integerConv exampleDb sessionWorld.
Proof.
  apply reach_step with (w := startWorld) (env := exampleEnv) (req := loginRequest);
    [exact startWorld_reachable | reflexivity].
Qed.

(** C4 as stated fails: in a state of a run, a consume takes the supply of
    a medication from 6 to 5 and the warning is not logged.  The name of
    the medication is an object that no conversion to a string accepts: the
    new supply is written, the message of the dose entry throws, and the
    request is answered 500 with the log as it was. *)
Lemma consume_crossing_without_warning :
  let w := unnamedMedicationWorld in
  let request := PostConsume bearer (lit "uuid-0") (lit "med7") consumeOne in
  @reachable integerConv exampleDb w
  /\ option_map Medication.supply
       (findMedication (db w) (lit "f1") (lit "uuid-0") (lit "med7"))
     = Some (jint 6)
  /\ exists r w',
      @handle integerConv exampleEnv w request = Answered r w'
      /\ status r = 500
      /\ option_map Medication.supply
           (findMedication (db w') (lit "f1") (lit "uuid-0") (lit "med7"))
         = Some (jint 5)
      /\ logs (db w') = logs (db w)
      /\ countWarnings (logs (db w')) = 0.
Proof.
  cbv zeta. split; [|split].
  - apply reach_step with (w := sessionWorld) (env := exampleEnv)
                          (req := unnamedMedicationRequest);
      [exact sessionWorld_reachable | reflexivity].
  - reflexivity.
  - eexists. eexists. split; [vm_compute; reflexivity|]. repeat split.
Qed.

Lemma consume_low_supply_warning_witness :
  find (ownedBy (lit "m1") (User.familyId asha)) (members exampleDb) = Some child
  /\ find (sameMedId (jstr "med1")) (Member.medications child) = Some syrup
  /\ Medication.supply syrup = jint 6
  /\ requestsChange (JObj []) (-1)%Z
  /\ exists r d' med' newEntries,
      @consume integerConv exampleEnv exampleDb asha (lit "m1") (lit "med1") (JObj [])
      = Answered r d'
      /\ status r = 200
      /\ Medication.supply med' = jint 5
      /\ logs d' = newEntries ++ logs exampleDb
      /\ countWarnings newEntries = 1
      /\ length newEntries = 2.
Proof.
  split; [reflexivity|]. split; [reflexivity|]. split; [reflexivity|].
  split; [right; split; reflexivity|].
  destruct (proj1 (@consume_low_supply_warning integerConv) exampleEnv exampleDb asha
                  (lit "m1") (lit "med1") (JObj []) child syrup 6%Z (-1)%Z
                  eq_refl eq_refl eq_refl (or_intror (conj eq_refl eq_refl))
                  eq_refl eq_refl eq_refl)
    as (r & d' & med' & newEntries & H1 & H2 & _ & H4 & H5 & H6 & _ & H8).
  exists r, d', med', newEntries.
  assert (C : countWarnings newEntries = 1) by (apply H6; split; [lia | cbn; lia]).
  repeat split; trivial. rewrite H8, C. reflexivity.
Defined.


(** ** Missing entities *)

Lemma no_owned_member (d : Db) (familyId memberId : jsstring) :
  refersToNoMember d familyId (JStr memberId) ->
  forall m, In m (members d) -> ownedBy memberId familyId m = false.
Proof.
  intros H m Hm. unfold ownedBy.
  destruct (jsstring_eqb (Member.id m) memberId) eqn:E1; trivial.
  destruct (jsstring_eqb (Member.familyId m) familyId) eqn:E2; trivial.
  apply jsstring_eqb_eq in E2. exfalso. now apply (H m Hm).
Qed.

Lemma no_reminder_target (d : Db) (familyId : jsstring) (memberId : JsVal) :
  refersToNoMember d familyId memberId ->
  forall m, In m (members d) -> reminderTarget memberId familyId m = false.
Proof.
  intros H m Hm. unfold reminderTarget.
  destruct (strict_eq (JStr (Member.id m)) memberId) eqn:E1; trivial.
  destruct (jsstring_eqb (Member.familyId m) familyId) eqn:E2; trivial.
  apply jsstring_eqb_eq in E2. exfalso. now apply (H m Hm).
Qed.

Section MissingEntities.
Context {NC : NumberConv}.

(** C8 (amended): a request of an authenticated user that names a member
    absent from the user's family is answered 404 by the update (head of
    family), consume and reminder routes; one that names a medication the
    found member does not have is answered 404 by the consume route and
    400 by the reminder route; the persisted document is unchanged in
    every one of these cases. *)
Theorem missing_entity_responses :
  (forall env d user memberId reqBody,
      isHeadOfFamily user = true ->
      refersToNoMember d (User.familyId user) (JStr memberId) ->
      updateMember env d user memberId reqBody
      = Answered (fail 404 "Member not found") d)
  /\ (forall env d user memberId medId reqBody,
        refersToNoMember d (User.familyId user) (JStr memberId) ->
        consume env d user memberId medId reqBody
        = Answered (fail 404 "Member not found") d)
  /\ (forall env d user memberId medId reqBody member,
        find (ownedBy memberId (User.familyId user)) (members d) = Some member ->
        refersToNoMedication member (JStr medId) ->
        consume env d user memberId medId reqBody
        = Answered (fail 404 "Medication not found") d)
  /\ (forall env d user reqBody,
        refersToNoMember d (User.familyId user) (prop reqBody "memberId") ->
        triggerReminder env d user reqBody
        = Answered (fail 404 "Member not found") d)
  /\ (forall env d user reqBody member,
        find (reminderTarget (prop reqBody "memberId") (User.familyId user))
             (members d) = Some member ->
        refersToNoMedication member (prop reqBody "medicationId") ->
        triggerReminder env d user reqBody
        = Answered (fail 400 "Medication not found for member") d).
Proof.
  repeat split.
  - intros env d user memberId reqBody Hhead H. unfold updateMember.
    rewrite Hhead. cbn [negb].
    now rewrite (findIndex_none_all _ _ (no_owned_member _ _ _ H)).
  - intros env d user memberId medId reqBody H. unfold consume.
    now rewrite (find_none_all _ _ (no_owned_member _ _ _ H)).
  - intros env d user memberId medId reqBody member Hm H. unfold consume.
    rewrite Hm. now rewrite (find_none_all (sameMedId (JStr medId)) _ H).
  - intros env d user reqBody H. unfold triggerReminder. cbv zeta.
    now rewrite (find_none_all _ _ (no_reminder_target _ _ _ H)).
  - intros env d user reqBody member Hm H. unfold triggerReminder. cbv zeta.
    rewrite Hm.
    now rewrite (find_none_all (sameMedId (prop reqBody "medicationId")) _ H).
Qed.

End MissingEntities.

(** C8 as stated fails: the reminder route answers 400, not 404, when the
    medication id matches no medication of the found member. *)
Lemma triggerReminder_unknown_medication_is_400 :
  let reqBody := reminderFor "m1" "med9" in
  find (reminderTarget (prop reqBody "memberId") (User.familyId asha))
       (members exampleDb) = Some child
  /\ find (sameMedId (prop reqBody "medicationId")) (Member.medications child) = None
  /\ exists r,
      @triggerReminder integerConv exampleEnv exampleDb asha reqBody
      = Answered r exampleDb
      /\ status r = 400
      /\ status r <> 404.
Proof.
  cbv zeta. split; [reflexivity|]. split; [reflexivity|].
  eexists. split; [reflexivity|]. split; [reflexivity|].
  vm_compute. discriminate.
Qed.

Lemma missing_entity_responses_witness :
  @updateMember integerConv exampleEnv exampleDb asha (lit "m7") (JObj [])
  = Answered (fail 404 "Member not found") exampleDb
  /\ @consume integerConv exampleEnv exampleDb asha (lit "m7") (lit "med1") (JObj [])
     = Answered (fail 404 "Member not found") exampleDb
  /\ @consume integerConv exampleEnv exampleDb asha (lit "m1") (lit "med9") (JObj [])
     = Answered (fail 404 "Medication not found") exampleDb
  /\ @triggerReminder integerConv exampleEnv exampleDb asha (reminderFor "m7" "med1")
     = Answered (fail 404 "Member not found") exampleDb
  /\ @triggerReminder integerConv exampleEnv exampleDb asha (reminderFor "m1" "med9")
     = Answered (fail 400 "Medication not found for member") exampleDb.
Proof.
  assert (NoM7 : forall v, v = jstr "m7" ->
                 refersToNoMember exampleDb (User.familyId asha) v).
  { intros v -> m [<- | [<- | [<- | [<- | []]]]]; vm_compute; discriminate. }
  assert (NoMed9 : refersToNoMedication child (jstr "med9")).
  { intros x [<- | []]. reflexivity. }
  destruct (@missing_entity_responses integerConv) as (H1 & H2 & H3 & H4 & H5).
  split; [|split; [|split; [|split]]].
  - apply H1; [reflexivity | now apply NoM7].
  - apply H2. now apply NoM7.
  - apply (H3 _ _ _ _ _ _ child); [reflexivity | exact NoMed9].
  - apply H4. now apply NoM7.
  - apply (H5 _ _ _ _ child); [reflexivity | exact NoMed9].
Defined.

(** ** Registration *)

Lemma strict_eq_refl (v : JsVal) :
  truthy v = true -> isPrimitive v = true -> strict_eq v v = true.
Proof.
  destruct v as [| |b|[q| | |]|s|l|o]; try discriminate; intros _ _; cbn [strict_eq];
    trivial.
  - now destruct b.
  - apply Qeq_bool_iff. reflexivity.
  - apply jsstring_eqb_refl.
Qed.

Section Registration.
Context {NC : NumberConv}.

(** C9 (amended): when the state holds a user whose username is [u], a
    registration request whose username is [u], a truthy primitive, and
    whose password is truthy is answered 409 and changes nothing: no user,
    family or session is created.  Registering the same name and password
    twice from the empty state answers 200 then 409. *)
Theorem register_duplicate_username :
  (forall (env : Env) (w : World) (reqBody : JsVal) (existing : User.t),
      In existing (users (db w)) ->
      User.username existing = prop reqBody "username" ->
      truthy (prop reqBody "username") = true ->
      isPrimitive (prop reqBody "username") = true ->
      truthy (prop reqBody "password") = true ->
      register env w reqBody = Answered (fail 409 "Username already exists") w)
  /\ (let reqBody := JObj [field "username" (jstr "asha"); field "password" (jstr "secret")] in
      let first := @register integerConv exampleEnv emptyWorld reqBody in
      let second := @register integerConv exampleEnv (stateAfter emptyWorld first) reqBody in
      option_map status (answerOf first) = Some 200
      /\ option_map status (answerOf second) = Some 409
      /\ after second = after first).
Proof.
  split; [|vm_compute; repeat split].
  intros env w reqBody existing Hin Hname Hu Hprim Hp.
  unfold register. rewrite Hu, Hp. cbn [negb orb].
  assert (E : existsb (fun u => strict_eq (User.username u) (prop reqBody "username"))
                      (users (db w)) = true).
  { apply existsb_exists. exists existing. split; trivial.
    rewrite Hname. now apply strict_eq_refl. }
  now rewrite E.
Qed.

End Registration.

(** C9 as stated fails twice over: a request that repeats a username but
    carries no password is answered 400, and one whose username is an
    array is never equal to the stored one, so that it registers again. *)
Lemma register_same_username_not_always_409 :
  (let w := mkWorld exampleDb [] in
   let reqBody := JObj [field "username" (jstr "asha")] in
   In asha (users (db w))
   /\ User.username asha = prop reqBody "username"
   /\ option_map status (answerOf (@register integerConv exampleEnv w reqBody))
      = Some 400)
  /\ (let reqBody :=
        JObj [field "username" (JArr [jstr "asha"]); field "password" (jstr "secret")] in
      let first := @register integerConv exampleEnv emptyWorld reqBody in
      let second := @register integerConv exampleEnv (stateAfter emptyWorld first) reqBody in
      (exists u, In u (users (db (stateAfter emptyWorld first)))
                 /\ User.username u = prop reqBody "username")
      /\ option_map status (answerOf second) = Some 200
      /\ length (users (db (stateAfter emptyWorld second))) = 2
      /\ length (families (db (stateAfter emptyWorld second))) = 2).
Proof.
  split.
  - cbv zeta. split; [now left|]. split; reflexivity.
  - cbv zeta. split; [|vm_compute; repeat split].
    eexists. split; [left; reflexivity|]. reflexivity.
Qed.

Lemma register_duplicate_username_witness :
  let w := mkWorld exampleDb [(lit "token-0", lit "u1")] in
  let reqBody := JObj [field "username" (jstr "ravi"); field "password" (jstr "x")] in
  In ravi (users (db w))
  /\ @register integerConv exampleEnv w reqBody
     = Answered (fail 409 "Username already exists") w.
Proof.
  cbv zeta. split; [right; now left|].
  apply (proj1 (@register_duplicate_username integerConv) exampleEnv _ _ ravi);
    solve [reflexivity | right; now left].
Defined.

(** ** Member update *)

Lemma mapMedications_built (build : JsVal -> JsVal -> Completion Medication.t)
      (env : Env) (meds : list JsVal) : forall k built,
  mapMedications build env k meds = Returns built ->
  Forall2 (fun med b => exists medId, build med medId = Returns b) meds (fst built).
Proof.
  induction meds as [|med meds IH]; intros k built; cbn [mapMedications].
  - intros [= <-]. constructor.
  - destruct (if truthy (prop med "id") then (prop med "id", k)
              else (JStr (randomUUID env k), S k)) as [medId k1].
    assert (G : (b <- build med medId ;;
                 more <- mapMedications build env k1 meds ;;
                 Returns (b :: fst more, snd more)) = Returns built ->
                Forall2 (fun med b => exists medId, build med medId = Returns b)
                        (med :: meds) (fst built)).
    { destruct (build med medId) as [b| |] eqn:Eb; cbn [bind]; try discriminate.
      destruct (mapMedications build env k1 meds) as [more| |] eqn:E; cbn [bind];
        try discriminate.
      intros [= <-]. cbn [fst]. constructor; eauto. }
    destruct med; try discriminate; exact G.
Qed.

Section MemberUpdate.
Context {NC : NumberConv}.

(** The answers of the update route, and the document after each. *)
Lemma updateMember_cases (env : Env) (d : Db) (user : User.t) (memberId : jsstring)
      (reqBody : JsVal) :
  (exists r, updateMember env d user memberId reqBody = Answered r d
             /\ (status r = 403 \/ status r = 404))
  \/ updateMember env d user memberId reqBody = Thrown d
  \/ updateMember env d user memberId reqBody = Hung
  \/ exists idx existing phone meds built,
      isHeadOfFamily user = true
      /\ findIndex (ownedBy memberId (User.familyId user)) (members d) = Some idx
      /\ nth_error (members d) idx = Some existing
      /\ bodyMedications reqBody = Returns meds
      /\ mapMedications (updatedMedication existing) env 0 meds = Returns built
      /\ (phone = Member.phone existing
          \/ exists formatted,
              formatPhoneNumber (prop reqBody "phone") = Returns formatted
              /\ phone = JStr formatted)
      /\ let updated :=
           Member.mk (Member.id existing) (Member.familyId existing)
             (nullish (prop reqBody "name") (Member.name existing))
             (nullish (prop reqBody "ageGroup") (Member.ageGroup existing))
             phone (fst built) in
         let d1 := with_members d (setAt idx updated (members d)) in
         updateMember env d user memberId reqBody = Thrown d1
         \/ exists entry,
             Log.familyId entry = User.familyId user
             /\ updateMember env d user memberId reqBody
                = Answered (json (BMember updated)) (with_logs d1 (entry :: logs d1)).
Proof.
  unfold updateMember.
  destruct (isHeadOfFamily user) eqn:Hhead; cbn [negb];
    [|left; eexists; split; [reflexivity | now left]].
  destruct (findIndex _ _) as [idx|] eqn:Hidx;
    [|left; eexists; split; [reflexivity | now right]].
  destruct (nth_error _ _) as [existing|] eqn:Hnth;
    [|left; eexists; split; [reflexivity | now right]].
  match goal with
  | |- context [attempt ?c d _] =>
      assert (P : c = Throws \/ c = Diverges
                  \/ exists phone, c = Returns phone
                     /\ (phone = Member.phone existing
                         \/ exists formatted,
                             formatPhoneNumber (prop reqBody "phone") = Returns formatted
                             /\ phone = JStr formatted))
  end.
  { destruct (prop reqBody "phone") eqn:Ep;
      [right; right; eexists; split; [reflexivity | now left] | ..];
      (destruct (formatPhoneNumber _) as [formatted| |] eqn:Ef; cbn [bind];
       [right; right; eexists; split; [reflexivity|]; right; eauto
       | now left | right; now left]). }
  destruct P as [-> | [-> | (phone & -> & Hphone)]]; cbn [attempt]; auto.
  destruct (bodyMedications reqBody) as [meds| |] eqn:Hbody; cbn [attempt]; auto.
  destruct (mapMedications _ env 0 meds) as [built| |] eqn:Hmap; cbn [attempt]; auto.
  do 3 right. exists idx, existing, phone, meds, built.
  repeat (split; trivial). cbv zeta.
  destruct (template _) as [message| |] eqn:Ht; cbn [attempt]; auto.
  - right. eexists. split; [|reflexivity]. reflexivity.
  - exfalso. revert Ht. apply template_never_diverges.
Qed.

(** C10: a successful member update gives each medication of the request
    body the consumedCount of the stored medication with the same id,
    whatever consumedCount the body carries, and 0 when no stored
    medication has that id. *)
Theorem updateMember_keeps_consumedCount
        (env : Env) (d : Db) (user : User.t) (memberId : jsstring)
        (reqBody : JsVal) (r : Response) (d' : Db) :
  updateMember env d user memberId reqBody = Answered r d' ->
  status r = 200 ->
  exists existing meds updated,
    find (ownedBy memberId (User.familyId user)) (members d) = Some existing
    /\ bodyMedications reqBody = Returns meds
    /\ r = json (BMember updated)
    /\ In updated (members d')
    /\ Forall2 (keptConsumedCount existing) meds (Member.medications updated).
Proof.
  intros H Hr.
  destruct (updateMember_cases env d user memberId reqBody)
    as [(r0 & E & Hs) | [E | [E | (idx & existing & phone & meds & built & _ & Hidx
                                   & Hnth & Hbody & Hmap & _ & [E | (entry & _ & E)])]]];
    rewrite E in H; try discriminate.
  - injection H as <- <-. destruct Hs as [Hs | Hs]; rewrite Hs in Hr; discriminate.
  - injection H as <- <-.
    exists existing, meds. eexists.
    split; [exact (find_findIndex _ _ _ _ Hidx Hnth)|].
    split; [exact Hbody|]. split; [reflexivity|]. split.
    + cbn [members with_logs with_members].
      eapply nth_error_In, nth_error_setAt. exact Hnth.
    + cbn [Member.medications].
      eapply Forall2_impl; [|exact (mapMedications_built _ _ _ _ _ Hmap)].
      intros med b (medId & Eb). unfold updatedMedication in Eb.
      repeat (revert Eb; branch; try discriminate; intros Eb).
      injection Eb as <-. reflexivity.
Qed.

End MemberUpdate.

Lemma updateMember_keeps_consumedCount_witness :
  exists r d' updated,
    @updateMember integerConv exampleEnv exampleDb asha (lit "m2") updateRequest
    = Answered r d'
    /\ status r = 200
    /\ r = json (BMember updated)
    /\ Forall2 (keptConsumedCount elder) updateItems (Member.medications updated)
    /\ List.map Medication.consumedCount (Member.medications updated)
       = [jint 3; jint 0].
Proof.
  destruct (@updateMember integerConv exampleEnv exampleDb asha (lit "m2") updateRequest)
    as [r d'| |] eqn:E; try (vm_compute in E; discriminate).
  assert (Hr : status r = 200) by (vm_compute in E; injection E as <- _; reflexivity).
  destruct (@updateMember_keeps_consumedCount integerConv exampleEnv exampleDb asha
              (lit "m2") updateRequest r d' E Hr)
    as (existing & meds & updated & H1 & H2 & H3 & _ & H5).
  injection H1 as <-. injection H2 as <-.
  exists r, d', updated. split; [reflexivity|]. split; [exact Hr|].
  split; [exact H3|]. split; [exact H5|].
  vm_compute in E. injection E as <- _. injection H3 as <-. reflexivity.
Defined.

(** ** Where a handler can stop *)

Lemma traverse_never_diverges {A B : Type} (f : A -> Completion B) (l : list A) :
  (forall x, f x <> Diverges) -> traverse f l <> Diverges.
Proof.
  intros Hf. induction l as [|x l IH]; cbn [traverse]; [discriminate|].
  apply bind_never_diverges; [apply Hf|]. intros y.
  apply bind_never_diverges; [exact IH|]. discriminate.
Qed.

Lemma ownedBy_family (memberId familyId : jsstring) (m : Member.t) :
  ownedBy memberId familyId m = true -> Member.familyId m = familyId.
Proof.
  unfold ownedBy. intros H. apply andb_true_iff in H. now apply jsstring_eqb_eq.
Qed.

Lemma reminderTarget_family (memberId : JsVal) (familyId : jsstring) (m : Member.t) :
  reminderTarget memberId familyId m = true -> Member.familyId m = familyId.
Proof.
  unfold reminderTarget. intros H. apply andb_true_iff in H.
  now apply jsstring_eqb_eq.
Qed.

Lemma Forall2_right {A B : Type} (P : B -> Prop) (R : A -> B -> Prop)
      (l : list A) (l' : list B) :
  (forall x y, R x y -> P y) -> Forall2 R l l' -> Forall P l'.
Proof. intros H F. induction F; constructor; eauto. Qed.

Section Outcomes.
Context {NC : NumberConv}.

Lemma formatPhoneNumber_never_diverges (phone : JsVal) :
  formatPhoneNumber phone <> Diverges.
Proof.
  unfold formatPhoneNumber. destruct (negb (truthy phone)); [discriminate|].
  apply bind_never_diverges; [apply ToString_never_diverges | discriminate].
Qed.

Lemma joinVals_never_diverges (sep : jsstring) (vals : list JsVal) :
  joinVals sep vals <> Diverges.
Proof.
  unfold joinVals, joinWith. apply bind_never_diverges; [|discriminate].
  apply traverse_never_diverges. intros x.
  destruct x; try discriminate; apply ToString_never_diverges.
Qed.

Lemma callPayload_never_diverges (member : Member.t) (medication : Medication.t)
      (scheduledDoseTime : JsVal) (heads : list User.t) (minor : bool) :
  callPayload member medication scheduledDoseTime heads minor <> Diverges.
Proof.
  unfold callPayload. apply bind_never_diverges.
  - apply traverse_never_diverges. intros h. apply formatPhoneNumber_never_diverges.
  - intros formatted. apply bind_never_diverges; [|discriminate].
    apply formatPhoneNumber_never_diverges.
Qed.

Lemma ageBranch_never_diverges (env : Env) (member : Member.t)
      (medication : Medication.t) (timesPerDay normalizedDoseTime : JsVal)
      (headNames reminderTime : jsstring) :
  ageBranch env member medication timesPerDay normalizedDoseTime headNames reminderTime
  <> Diverges.
Proof.
  unfold ageBranch. destruct (isMinor member);
    repeat (apply bind_never_diverges; [apply template_never_diverges | intros ?]);
    discriminate.
Qed.

(** The entries of the age branch carry the family of the member. *)
Lemma ageBranch_entries (env : Env) (member : Member.t)
      (medication : Medication.t) (timesPerDay normalizedDoseTime : JsVal)
      (headNames reminderTime : jsstring)
      (produced : list jsstring) (entries : list Log.t) (uuids dates : nat) :
  ageBranch env member medication timesPerDay normalizedDoseTime headNames reminderTime
  = Returns (produced, entries, uuids, dates) ->
  Forall (fun e => Log.familyId e = Member.familyId member) entries.
Proof.
  unfold ageBranch. destruct (isMinor member);
    repeat (branch; try discriminate);
    intros [= <- <- <- <-]; repeat constructor.
Qed.

(** ** The member routes *)

Lemma createMember_cases (env : Env) (d : Db) (user : User.t) (reqBody : JsVal) :
  (exists r, createMember env d user reqBody = Answered r d
             /\ (status r = 403 \/ status r = 400))
  \/ createMember env d user reqBody = Thrown d
  \/ createMember env d user reqBody = Hung
  \/ exists phone meds built,
      formatPhoneNumber (prop reqBody "phone") = Returns phone
      /\ bodyMedications reqBody = Returns meds
      /\ mapMedications newMedication env 1 meds = Returns built
      /\ let member :=
           Member.mk (randomUUID env 0) (User.familyId user)
                     (prop reqBody "name") (prop reqBody "ageGroup")
                     (JStr phone) (fst built) in
         let d1 := with_members d (members d ++ [member]) in
         createMember env d user reqBody = Thrown d1
         \/ exists entry,
             Log.familyId entry = User.familyId user
             /\ createMember env d user reqBody
                = Answered (mkResponse 201 (BMember member))
                           (with_logs d1 (entry :: logs d1)).
Proof.
  unfold createMember.
  destruct (negb (isHeadOfFamily user));
    [left; eexists; split; [reflexivity | now left]|].
  destruct (negb (truthy _) || negb (truthy _));
    [left; eexists; split; [reflexivity | now right]|].
  destruct (formatPhoneNumber _) as [phone| |] eqn:Hphone; cbn [attempt]; auto.
  destruct (bodyMedications reqBody) as [meds| |] eqn:Hbody; cbn [attempt]; auto.
  destruct (mapMedications _ env 1 meds) as [built| |] eqn:Hmap; cbn [attempt]; auto.
  do 3 right. exists phone, meds, built. repeat (split; trivial). cbv zeta.
  destruct (template _) as [message| |] eqn:Ht; cbn [attempt]; auto.
  - right. eexists. split; [|reflexivity]. reflexivity.
  - exfalso. revert Ht. apply template_never_diverges.
Qed.

Lemma createMember_step (env : Env) (d : Db) (user : User.t) (reqBody : JsVal)
      (d' : Db) :
  after (createMember env d user reqBody) = Some d' ->
  DbStep (User.familyId user) d d'.
Proof.
  assert (Same : DbStep (User.familyId user) d d).
  { exists (members d), []. split; [constructor|]. split; [now destruct d | constructor]. }
  destruct (createMember_cases env d user reqBody)
    as [(r & -> & _) | [-> | [-> | (phone & meds & built & Hphone & _ & Hmap & H)]]];
    cbn [after]; try (intros [= <-]; exact Same); try discriminate.
  cbv zeta in H.
  assert (Added : MembersStep (User.familyId user) (members d)
                    (members d
                     ++ [Member.mk (randomUUID env 0) (User.familyId user)
                           (prop reqBody "name") (prop reqBody "ageGroup")
                           (JStr phone) (fst built)])).
  { eapply step_added; [reflexivity | exact Hphone | reflexivity |].
    cbn [Member.medications].
    eapply Forall2_right; [|exact (mapMedications_built _ _ _ _ _ Hmap)].
    intros med b (medId & E). eauto. }
  destruct H as [-> | (entry & Hf & ->)]; cbn [after]; intros [= <-].
  - eexists _, []. split; [exact Added|]. split; [reflexivity | constructor].
  - eexists _, [entry]. split; [exact Added|]. split; [reflexivity|].
    now constructor.
Qed.

Lemma updateMember_step (env : Env) (d : Db) (user : User.t) (memberId : jsstring)
      (reqBody : JsVal) (d' : Db) :
  after (updateMember env d user memberId reqBody) = Some d' ->
  DbStep (User.familyId user) d d'.
Proof.
  assert (Same : DbStep (User.familyId user) d d).
  { exists (members d), []. split; [constructor|]. split; [now destruct d | constructor]. }
  destruct (updateMember_cases env d user memberId reqBody)
    as [(r & -> & _) | [-> | [-> | (idx & existing & phone & meds & built & _ & Hidx
                                    & Hnth & _ & Hmap & Hphone & H)]]];
    cbn [after]; try (intros [= <-]; exact Same); try discriminate.
  cbv zeta in H.
  assert (Updated : MembersStep (User.familyId user) (members d)
                      (setAt idx
                         (Member.mk (Member.id existing) (Member.familyId existing)
                            (nullish (prop reqBody "name") (Member.name existing))
                            (nullish (prop reqBody "ageGroup") (Member.ageGroup existing))
                            phone (fst built))
                         (members d))).
  { eapply step_updated; [exact Hnth | | reflexivity | reflexivity | |].
    - exact (ownedBy_family _ _ _ (findIndex_holds _ _ _ _ Hidx Hnth)).
    - cbn [Member.phone]. destruct Hphone as [-> | (formatted & E & ->)]; eauto.
    - cbn [Member.medications].
      eapply Forall2_right; [|exact (mapMedications_built _ _ _ _ _ Hmap)].
      intros med b (medId & E). eauto. }
  destruct H as [-> | (entry & Hf & ->)]; cbn [after]; intros [= <-].
  - eexists _, []. split; [exact Updated|]. split; [reflexivity | constructor].
  - eexists _, [entry]. split; [exact Updated|]. split; [reflexivity|].
    now constructor.
Qed.

(** ** The consume route *)

(** Every way a consume ends, with the document it leaves. *)
Lemma consume_outcomes (env : Env) (d : Db) (user : User.t)
      (memberId medId : jsstring) (reqBody : JsVal) :
  (exists r, consume env d user memberId medId reqBody = Answered r d
             /\ status r = 404)
  \/ exists member med,
      find (ownedBy memberId (User.familyId user)) (members d) = Some member
      /\ find (sameMedId (JStr medId)) (Member.medications member) = Some med
      /\ (consume env d user memberId medId reqBody = Thrown d
          \/ exists newSupply newConsumed,
              (newSupply = NaN \/ newSupply = Infinity
               \/ exists q, newSupply = Fin q /\ (0 <= q)%Q)
              /\ let d2 :=
                   storeMedication d (ownedBy memberId (User.familyId user))
                     (sameMedId (JStr medId))
                     (Medication.with_stock med (JNum newSupply) newConsumed) in
                 consume env d user memberId medId reqBody = Thrown d2
                 \/ exists r entries,
                     consume env d user memberId medId reqBody
                     = Answered r (with_logs d2 (entries ++ logs d2))
                     /\ status r = 200
                     /\ Forall (fun e => Log.familyId e = User.familyId user) entries
                     /\ 1 <= length entries).
Proof.
  destruct (find (ownedBy memberId (User.familyId user)) (members d))
    as [member|] eqn:Hm.
  2: { left. unfold consume. rewrite Hm. eexists. split; reflexivity. }
  destruct (find (sameMedId (JStr medId)) (Member.medications member))
    as [med|] eqn:Hmed.
  2: { left. unfold consume. rewrite Hm, Hmed. eexists. split; reflexivity. }
  right. exists member, med. split; trivial. split; trivial.
  destruct (consume_cases env d user memberId medId reqBody member med Hm Hmed)
    as [[E _] | (sum & summed & old & _ & _ & Hold & H)]; [now left|].
  right.
  assert (Floor : Math_max (Fin 0) summed = NaN \/ Math_max (Fin 0) summed = Infinity
                  \/ exists q, Math_max (Fin 0) summed = Fin q /\ (0 <= q)%Q).
  { destruct summed as [y| | |]; cbn [Math_max]; auto.
    - right; right. unfold Math_max. destruct (0 ?= y)%Q eqn:C.
      + exists 0%Q. split; [reflexivity | apply Qle_refl].
      + exists y. split; trivial. apply Qlt_le_weak. now apply Qlt_alt.
      + exists 0%Q. split; [reflexivity | apply Qle_refl].
    - right; right. exists 0%Q. split; [reflexivity | apply Qle_refl]. }
  destruct H as [E | (negative & taken & newConsumed & _ & _ & _ & E)].
  - exists (Math_max (Fin 0) summed), (Medication.consumedCount med).
    split; trivial. now left.
  - exists (Math_max (Fin 0) summed), newConsumed. split; trivial. cbv zeta.
    rewrite E.
    match goal with
    | |- context [consumeLog env ?d2 user memberId medId member ?med2 ?o ?n] =>
        destruct (consumeLog_cases env d2 user memberId medId member med2 o n old Hold)
          as [[-> _] | (r & doseEntry & warning & Hr & Hd & Hw & _ & _ & ->)]
    end; [now left|].
    right. eexists r, _. split; [reflexivity|]. split; trivial.
    destruct (num_le _ _ && num_lt _ _); cbn [length]; split;
      repeat constructor; trivial.
Qed.

Lemma consume_step (env : Env) (d : Db) (user : User.t)
      (memberId medId : jsstring) (reqBody : JsVal) (d' : Db) :
  after (consume env d user memberId medId reqBody) = Some d' ->
  DbStep (User.familyId user) d d'.
Proof.
  assert (Same : DbStep (User.familyId user) d d).
  { exists (members d), []. split; [constructor|]. split; [now destruct d | constructor]. }
  destruct (consume_outcomes env d user memberId medId reqBody)
    as [(r & -> & _) | (member & med & Hm & Hmed & [-> | (newSupply & newConsumed & _ & H)])];
    cbn [after]; try (intros [= <-]; exact Same).
  cbv zeta in H.
  assert (Stored : MembersStep (User.familyId user) (members d)
                     (members (storeMedication d (ownedBy memberId (User.familyId user))
                                 (sameMedId (JStr medId))
                                 (Medication.with_stock med (JNum newSupply) newConsumed)))).
  { cbn [storeMedication with_members members].
    eapply step_stored; [exact Hm | | exact Hmed | right; eauto].
    apply find_some in Hm. exact (ownedBy_family _ _ _ (proj2 Hm)). }
  destruct H as [-> | (r & entries & -> & _ & Hf & _)]; cbn [after]; intros [= <-].
  - eexists _, []. split; [exact Stored|]. split; [reflexivity | constructor].
  - eexists _, entries. split; [exact Stored|]. split; [reflexivity | exact Hf].
Qed.

(** ** The log route *)

Lemma postLog_step (env : Env) (d : Db) (user : User.t) (reqBody : JsVal) :
  DbStep (User.familyId user) d (snd (postLog env d user reqBody))
  /\ (status (fst (postLog env d user reqBody)) = 201
      \/ (status (fst (postLog env d user reqBody)) = 400
          /\ snd (postLog env d user reqBody) = d)).
Proof.
  unfold postLog. destruct (negb (truthy _)); cbn [fst snd]; split; auto.
  - exists (members d), []. split; [constructor|]. split; [now destruct d | constructor].
  - eexists (members d), [_]. split; [constructor|]. split; [reflexivity|].
    now constructor.
Qed.

(** ** The reminder route *)

(** Every way a reminder ends: answered 404 or 400 with the document as it
    was; thrown before anything is logged, with the schedule seeded; or
    with the entries of the age branch and of the multi-head branch in
    front of the log, answered or thrown by the call that follows. *)
Lemma triggerReminder_cases (env : Env) (d : Db) (user : User.t) (reqBody : JsVal) :
  (exists r, triggerReminder env d user reqBody = Answered r d
             /\ (status r = 404 \/ status r = 400))
  \/ exists member found,
      find (reminderTarget (prop reqBody "memberId") (User.familyId user))
           (members d) = Some member
      /\ find (sameMedId (prop reqBody "medicationId")) (Member.medications member)
         = Some found
      /\ let d1 :=
           storeMedication d
             (reminderTarget (prop reqBody "memberId") (User.familyId user))
             (sameMedId (prop reqBody "medicationId")) (seedSchedule found) in
         triggerReminder env d user reqBody = Thrown d1
         \/ exists entries,
             Forall (fun e => Log.familyId e = User.familyId user) entries
             /\ (triggerReminder env d user reqBody
                 = Thrown (with_logs d1 (entries ++ logs d1))
                 \/ exists view,
                     triggerReminder env d user reqBody
                     = Answered (json (BReminder view))
                                (with_logs d1 (entries ++ logs d1))
                     /\ rv_scheduledDoseTime view
                        = (if truthy (prop reqBody "doseTime")
                           then JStr (normalizeTime (prop reqBody "doseTime"))
                           else js_or (js_first (Medication.doseTimes (seedSchedule found)))
                                      (jstr "08:00"))).
Proof.
  unfold triggerReminder. cbv zeta.
  destruct (find _ (members d)) as [member|] eqn:Hm;
    [|left; eexists; split; [reflexivity | now left]].
  destruct (find _ (Member.medications member)) as [found|] eqn:Hfound;
    [|left; eexists; split; [reflexivity | now right]].
  right. exists member, found. split; trivial. split; trivial.
  assert (Hfam : Member.familyId member = User.familyId user).
  { apply find_some in Hm. exact (reminderTarget_family _ _ _ (proj2 Hm)). }
  destruct (joinVals _ _) as [joined| |] eqn:Hj; cbn [attempt];
    [| now left | now elim (joinVals_never_diverges _ _ Hj)].
  destruct (ToNumber _) as [interval| |] eqn:Hn; cbn [attempt];
    [| now left | now elim (ToNumber_never_diverges _ Hn)].
  destruct (ageBranch _ _ _ _ _ _ _) as [[[[events1 entries1] uuids] dates]| |] eqn:Hb;
    cbn [attempt]; [| now left | now elim (ageBranch_never_diverges _ _ _ _ _ _ _ Hb)].
  apply ageBranch_entries in Hb. rewrite Hfam in Hb.
  right.
  destruct (1 <? length _);
    [eexists (_ :: entries1) | exists entries1];
    (destruct (callPayload _ _ _ _ _) as [call| |] eqn:Hc; cbn [attempt];
     [ | | now elim (callPayload_never_diverges _ _ _ _ _ Hc)]);
    (split; [| first [left; reflexivity | right; eexists; split; reflexivity]]);
    first [exact Hb | constructor; [exact Hfam | exact Hb]].
Qed.

Lemma triggerReminder_step (env : Env) (d : Db) (user : User.t) (reqBody : JsVal) :
  exists d', after (triggerReminder env d user reqBody) = Some d'
             /\ DbStep (User.familyId user) d d'.
Proof.
  assert (Same : DbStep (User.familyId user) d d).
  { exists (members d), []. split; [constructor|]. split; [now destruct d | constructor]. }
  destruct (triggerReminder_cases env d user reqBody)
    as [(r & -> & _) | (member & found & Hm & Hfound & H)];
    cbn [after]; [eauto|].
  cbv zeta in H.
  assert (Stored : MembersStep (User.familyId user) (members d)
                     (members (storeMedication d
                                 (reminderTarget (prop reqBody "memberId")
                                                 (User.familyId user))
                                 (sameMedId (prop reqBody "medicationId"))
                                 (seedSchedule found)))).
  { cbn [storeMedication with_members members].
    eapply step_stored; [exact Hm | | exact Hfound | now left].
    apply find_some in Hm. exact (reminderTarget_family _ _ _ (proj2 Hm)). }
  destruct H as [-> | (entries & Hf & [-> | (view & -> & _)])]; cbn [after];
    eexists; (split; [reflexivity|]).
  - eexists _, []. split; [exact Stored|]. split; [reflexivity | constructor].
  - eexists _, entries. split; [exact Stored|]. split; [reflexivity | exact Hf].
  - eexists _, entries. split; [exact Stored|]. split; [reflexivity | exact Hf].
Qed.

(** ** Registration *)

Lemma register_cases (env : Env) (w : World) (reqBody : JsVal) :
  (exists r, register env w reqBody = Answered r w
             /\ (status r = 400 \/ status r = 409))
  \/ register env w reqBody = Thrown w
  \/ exists phone,
      formatPhoneNumber (prop reqBody "phone") = Returns phone
      /\ truthy (prop reqBody "username") = true
      /\ truthy (prop reqBody "password") = true
      /\ existsb (fun u => strict_eq (User.username u) (prop reqBody "username"))
                 (users (db w)) = false
      /\ exists role,
          let user :=
            User.mk (randomUUID env 1) (prop reqBody "username")
                    (prop reqBody "password") (JStr phone) role (randomUUID env 0) in
          register env w reqBody
          = Answered (json (BAuth (createToken env) (viewOf user)))
              (mkWorld
                 (mkDb (users (db w) ++ [user])
                       (families (db w)
                        ++ [Family.mk (User.familyId user) [User.id user]])
                       (members (db w)) (logs (db w)))
                 (sessions_set (createToken env) (User.id user) (sessions w))).
Proof.
  unfold register.
  destruct (negb (truthy (prop reqBody "username"))
            || negb (truthy (prop reqBody "password"))) eqn:T;
    [left; eexists; split; [reflexivity | now left]|].
  apply orb_false_iff in T. destruct T as [Tu Tp]. apply negb_false_iff in Tu, Tp.
  destruct (existsb _ _) eqn:E; [left; eexists; split; [reflexivity | now right]|].
  destruct (formatPhoneNumber _) as [phone| |] eqn:Hphone; cbn [attempt].
  - right; right. exists phone. repeat (split; trivial). eexists. reflexivity.
  - now (right; left).
  - now elim (formatPhoneNumber_never_diverges _ Hphone).
Qed.

End Outcomes.

(** ** What a request can change *)

Lemma inFamily_other (fam fam' : jsstring) (m : Member.t) :
  Member.familyId m = fam -> fam <> fam' -> inFamily fam' m = false.
Proof.
  intros <- H. unfold inFamily.
  destruct (jsstring_eqb (Member.familyId m) fam') eqn:E; trivial.
  apply jsstring_eqb_eq in E. contradiction.
Qed.

Lemma filter_updateFirst_found {A : Type} (g p : A -> bool) (f : A -> A)
      (l : list A) (x : A) :
  find p l = Some x -> g x = false -> g (f x) = false ->
  filter g (updateFirst p f l) = filter g l.
Proof.
  induction l as [|y l IH]; [discriminate|].
  cbn [find updateFirst]. destruct (p y); cbn [filter].
  - intros [= ->] -> ->. reflexivity.
  - intros H Hx Hf. now rewrite IH.
Qed.

(** A case analysis for routes behind [requireAuth]. *)
Lemma authenticated_cases {NC : NumberConv} (P : Outcome World -> Prop)
      (w : World) (a : option jsstring)
      (handler : User.t -> jsstring -> Outcome World) :
  (forall user token, requireAuth w a = inl (user, token) -> P (handler user token)) ->
  (forall remaining, requireAuth w a = inr remaining ->
                     P (Answered (fail 401 "Unauthorized") (mkWorld (db w) remaining))) ->
  P (authenticated w a handler).
Proof.
  intros H1 H2. unfold authenticated.
  destruct (requireAuth w a) as [[user token]|remaining]; auto.
Qed.

Lemma after_synchronous {S : Type} (o : Outcome S) : after (synchronous o) = after o.
Proof. now destruct o. Qed.

Lemma after_onDb {NC : NumberConv} (w : World) (o : Outcome Db) :
  after (onDb w o) = option_map (fun d => mkWorld d (sessions w)) (after o).
Proof. now destruct o. Qed.

Section DocumentFrames.
Context {NC : NumberConv}.

(** A step on the members leaves the other families as they are. *)
Lemma MembersStep_other_families (fam familyId : jsstring) (ms ms' : list Member.t) :
  MembersStep fam ms ms' -> fam <> familyId ->
  filter (inFamily familyId) ms' = filter (inFamily familyId) ms.
Proof.
  intros H Hother.
  destruct H as [ | member given phone Hf _ _ _
                  | idx existing updated Hnth Hf _ Hf' _ _
                  | isMember isMedication member med med' Hm Hf _ _ ].
  - reflexivity.
  - rewrite filter_app. cbn [filter].
    rewrite (inFamily_other fam familyId) by trivial. apply app_nil_r.
  - apply (filter_setAt_other _ _ _ idx existing Hnth);
      apply (inFamily_other fam); trivial. congruence.
  - apply (filter_updateFirst_found _ _ _ _ member Hm);
      apply (inFamily_other fam); trivial.
Qed.

(** What a request leaves behind: the document as it was; one more user
    and the family of which that user is the only head; or a step of the
    authenticated user's family on members and log. *)
Lemma handle_after (env : Env) (w : World) (req : Request) (w' : World) :
  after (handle env w req) = Some w' ->
  db w' = db w
  \/ (exists user given phone,
         formatPhoneNumber given = Returns phone
         /\ User.phone user = JStr phone
         /\ db w' = mkDb (users (db w) ++ [user])
                         (families (db w)
                          ++ [Family.mk (User.familyId user) [User.id user]])
                         (members (db w)) (logs (db w)))
  \/ exists user token,
      requireAuth w (authorizationOf req) = inl (user, token)
      /\ DbStep (User.familyId user) (db w) (db w').
Proof.
  destruct req; cbn [handle authorizationOf];
    try (apply (authenticated_cases
                  (fun o => after o = Some w' ->
                            db w' = db w \/ _ \/ _));
         [intros user token A | intros remaining _ [= <-]; now left];
         rewrite ?after_synchronous, ?after_onDb).
  - rewrite after_synchronous.
    destruct (register_cases env w reqBody)
      as [(r & -> & _) | [-> | (phone & Hphone & _ & _ & _ & role & ->)]];
      cbn [after]; intros [= <-]; [now left | now left |].
    right; left. eexists (User.mk _ _ _ (JStr phone) _ _), _, phone.
    split; [exact Hphone|]. split; reflexivity.
  - unfold answered. cbn [after]. intros [= <-]. left. unfold login.
    destruct (negb (truthy _) || negb (truthy _)); trivial.
    destruct (find _ _); trivial.
  - cbn [answered after logout snd]. intros [= <-]. now left.
  - cbn [after]. intros [= <-]. now left.
  - cbn [after]. intros [= <-]. now left.
  - destruct (after (createMember env (db w) user reqBody)) as [d'|] eqn:E;
      [|discriminate].
    cbn [option_map]. intros [= <-]. right; right. exists user, token.
    split; trivial. now apply (createMember_step env (db w) user reqBody).
  - destruct (after (updateMember env (db w) user id reqBody)) as [d'|] eqn:E;
      [|discriminate].
    cbn [option_map]. intros [= <-]. right; right. exists user, token.
    split; trivial. now apply (updateMember_step env (db w) user id reqBody).
  - destruct (after (consume env (db w) user memberId medId reqBody)) as [d'|] eqn:E;
      [|discriminate].
    cbn [option_map]. intros [= <-]. right; right. exists user, token.
    split; trivial. now apply (consume_step env (db w) user memberId medId reqBody).
  - unfold answered. cbn [after option_map]. intros [= <-]. right; right.
    exists user, token. split; trivial. apply postLog_step.
  - destruct (triggerReminder_step env (db w) user reqBody) as (d' & -> & H).
    cbn [option_map]. intros [= <-]. right; right. now exists user, token.
Qed.

(** The entries a request adds to the log all carry the family of the user
    the request was authenticated as. *)
Theorem handle_logs_for_caller (env : Env) (w : World) (req : Request) (w' : World) :
  after (handle env w req) = Some w' ->
  exists entries,
    logs (db w') = entries ++ logs (db w)
    /\ (entries = []
        \/ exists user token,
            requireAuth w (authorizationOf req) = inl (user, token)
            /\ Forall (fun e => Log.familyId e = User.familyId user) entries).
Proof.
  intros H.
  destruct (handle_after env w req w' H)
    as [-> | [(user & given & phone & _ & _ & ->)
             | (user & token & A & ms & entries & _ & -> & Hf)]].
  - exists []. split; [reflexivity | now left].
  - exists []. split; [reflexivity | now left].
  - exists entries. split; [reflexivity|]. right. now exists user, token.
Qed.

(** The answers of the routes that write the document: a success status
    when anything was written. *)
Lemma handle_answer (env : Env) (w : World) (req : Request) (r : Response)
      (w' : World) :
  handle env w req = Answered r w' ->
  status r = 200 \/ status r = 201
  \/ (400 <= status r < 500 /\ db w' = db w)
  \/ (r = uncaught
      /\ users (db w') = users (db w)
      /\ families (db w') = families (db w)
      /\ logs (db w') = logs (db w)).
Proof.
  assert (Same : forall o : Outcome Db,
             (exists r0, o = Answered r0 (db w)
                         /\ (status r0 = 400 \/ status r0 = 403 \/ status r0 = 404))
             \/ o = Thrown (db w) ->
             synchronous (onDb w o) = Answered r w' ->
             status r = 200 \/ status r = 201
             \/ (400 <= status r < 500 /\ db w' = db w)
             \/ (r = uncaught
                 /\ users (db w') = users (db w)
                 /\ families (db w') = families (db w)
                 /\ logs (db w') = logs (db w))).
  { intros o [(r0 & -> & Hs) | ->]; cbn [synchronous onDb]; intros [= <- <-].
    - right; right; left. split; [|reflexivity]. lia.
    - do 3 right. now repeat split. }
  destruct req; cbn [handle];
    try (apply (authenticated_cases
                  (fun o => o = Answered r w' -> _ \/ _ \/ _ \/ _));
         [intros user token A
         | intros remaining _ [= <- <-]; right; right; left;
           split; [cbn; lia | reflexivity]]).
  - destruct (register_cases env w reqBody)
      as [(r0 & -> & Hs) | [-> | (phone & _ & _ & _ & _ & role & ->)]];
      cbn [synchronous]; intros [= <- <-].
    + right; right; left. split; [lia | reflexivity].
    + do 3 right. now repeat split.
    + now left.
  - unfold answered, login.
    destruct (negb (truthy _) || negb (truthy _));
      [intros [= <- <-]; right; right; left; split; [cbn; lia | reflexivity]|].
    destruct (find _ _); intros [= <- <-];
      [now left | right; right; left; split; [cbn; lia | reflexivity]].
  - intros [= <- <-]. now left.
  - intros [= <- <-]. now left.
  - unfold getMembers. destruct (negb (isHeadOfFamily user)); intros [= <- <-];
      [right; right; left; split; [cbn; lia | reflexivity] | now left].
  - destruct (createMember_cases env (db w) user reqBody)
      as [(r0 & E & Hs) | [E | [E | (phone & meds & built & _ & _ & _ & H)]]].
    + apply Same. left. exists r0. split; trivial. tauto.
    + apply Same. now right.
    + rewrite E. discriminate.
    + cbv zeta in H. destruct H as [-> | (entry & _ & ->)];
        cbn [synchronous onDb]; intros [= <- <-].
      * do 3 right. now repeat split.
      * right; now left.
  - destruct (updateMember_cases env (db w) user id reqBody)
      as [(r0 & E & Hs)
         | [E | [E | (idx & existing & phone & meds & built & _ & _ & _ & _ & _ & _ & H)]]].
    + apply Same. left. exists r0. split; trivial. tauto.
    + apply Same. now right.
    + rewrite E. discriminate.
    + cbv zeta in H. destruct H as [-> | (entry & _ & ->)];
        cbn [synchronous onDb]; intros [= <- <-].
      * do 3 right. now repeat split.
      * now left.
  - destruct (consume_outcomes env (db w) user memberId medId reqBody)
      as [(r0 & E & Hs)
         | (member & med & _ & _ & [E | (newSupply & newConsumed & _ & H)])].
    + apply Same. left. exists r0. split; trivial. tauto.
    + apply Same. now right.
    + cbv zeta in H. destruct H as [-> | (r0 & entries & -> & Hr & _)];
        cbn [synchronous onDb]; intros [= <- <-].
      * do 3 right. now repeat split.
      * now left.
  - destruct (postLog_step env (db w) user reqBody) as (_ & [Hs | [Hs E]]);
      unfold answered; cbn [onDb]; intros [= <- <-]; cbn [db].
    + right; now left.
    + right; right; left. split; [lia | exact E].
  - destruct (triggerReminder_cases env (db w) user reqBody)
      as [(r0 & -> & Hs) | (member & found & _ & _ & H)];
      cbn [onDb].
    + intros [= <- <-]. right; right; left. split; [lia | reflexivity].
    + cbv zeta in H.
      destruct H as [-> | (entries & _ & [-> | (view & -> & _)])]; cbn [onDb];
        try discriminate.
      intros [= <- <-]. now left.
Qed.

(** A request answered with a client-error status (400 to 499) leaves the
    document as it was; one answered 500 leaves users, families and the
    log as they were. *)
Theorem error_leaves_document (env : Env) (w : World) (req : Request)
        (r : Response) (w' : World) :
  handle env w req = Answered r w' ->
  (400 <= status r < 500 -> db w' = db w)
  /\ (status r = 500 ->
      users (db w') = users (db w)
      /\ families (db w') = families (db w)
      /\ logs (db w') = logs (db w)).
Proof.
  intros H.
  destruct (handle_answer env w req r w' H)
    as [Hs | [Hs | [[Hs E] | (-> & E)]]]; split; intros Hr; trivial;
    try (rewrite Hs in Hr; lia); try (cbn in Hr; lia); lia.
Qed.

(** A request leaves the members of every family other than the caller's
    exactly as they were. *)
Theorem other_families_untouched (env : Env) (w : World) (req : Request)
        (familyId : jsstring) (w' : World) :
  (forall user token,
      requireAuth w (authorizationOf req) = inl (user, token) ->
      User.familyId user <> familyId) ->
  after (handle env w req) = Some w' ->
  filter (inFamily familyId) (members (db w'))
  = filter (inFamily familyId) (members (db w)).
Proof.
  intros Hother H.
  destruct (handle_after env w req w' H)
    as [-> | [(user & given & phone & _ & _ & ->)
             | (user & token & A & ms & entries & Hs & -> & _)]];
    try reflexivity.
  cbn [members].
  exact (MembersStep_other_families _ _ _ _ Hs (Hother user token A)).
Qed.

End DocumentFrames.

(** ** Consumption and update, beyond the fields they are about *)

Lemma sameButStock_refl (med : Medication.t) : sameButStock med med.
Proof. now destruct med. Qed.

Lemma sameButStocks_refl (m : Member.t) : sameButStocks m m.
Proof.
  exists (Member.medications m). split; [now destruct m|].
  apply Forall2_refl_on, sameButStock_refl.
Qed.

Lemma Math_max_floored (summed : JsNum) : isFloored (JNum (Math_max (Fin 0) summed)).
Proof.
  destruct summed as [y| | |]; cbn [Math_max].
  - right; right. unfold Math_max. destruct (0 ?= y)%Q eqn:C.
    + exists 0%Q. split; [reflexivity | apply Qle_refl].
    + exists y. split; trivial. apply Qlt_le_weak. now apply Qlt_alt.
    + exists 0%Q. split; [reflexivity | apply Qle_refl].
  - now left.
  - right; now left.
  - right; right. exists 0%Q. split; [reflexivity | apply Qle_refl].
Qed.

Section ConsumeFrames.
Context {NC : NumberConv}.

(** The medication a consume has written is the one found afterwards. *)
Lemma findMedication_stored (d : Db) (familyId memberId medId : jsstring)
      (member : Member.t) (med : Medication.t) (s c : JsVal) (entries : list Log.t) :
  find (ownedBy memberId familyId) (members d) = Some member ->
  find (sameMedId (JStr medId)) (Member.medications member) = Some med ->
  findMedication
    (with_logs (storeMedication d (ownedBy memberId familyId) (sameMedId (JStr medId))
                  (Medication.with_stock med s c))
               entries)
    familyId memberId medId
  = Some (Medication.with_stock med s c).
Proof.
  intros Hm Hmed.
  destruct (find_storeMedication d _ _ member med (Medication.with_stock med s c)
              Hm Hmed) as (member' & F1 & F2).
  - apply find_some in Hmed. exact (proj2 Hmed).
  - rewrite ownedBy_stored. apply find_some in Hm. exact (proj2 Hm).
  - unfold findMedication. cbn [members with_logs]. now rewrite F1.
Qed.

Lemma findMedication_written (d : Db) (familyId memberId medId : jsstring)
      (member : Member.t) (med : Medication.t) (s c : JsVal) :
  find (ownedBy memberId familyId) (members d) = Some member ->
  find (sameMedId (JStr medId)) (Member.medications member) = Some med ->
  findMedication
    (storeMedication d (ownedBy memberId familyId) (sameMedId (JStr medId))
       (Medication.with_stock med s c))
    familyId memberId medId
  = Some (Medication.with_stock med s c).
Proof.
  intros Hm Hmed.
  exact (findMedication_stored d familyId memberId medId member med s c
           (logs (storeMedication d (ownedBy memberId familyId)
                    (sameMedId (JStr medId)) (Medication.with_stock med s c)))
           Hm Hmed).
Qed.

(** A consume that finds its medication always ends, and whatever the
    request carries the supply it leaves is the one it found, when the
    addition threw before anything was written, or a number that is not
    negative (NaN when the operands are not numbers); a consume that is
    answered leaves such a number. *)
Theorem consume_supply_floor (env : Env) (d : Db) (user : User.t)
        (memberId medId : jsstring) (reqBody : JsVal) (med : Medication.t) :
  findMedication d (User.familyId user) memberId medId = Some med ->
  exists d' med',
    after (consume env d user memberId medId reqBody) = Some d'
    /\ findMedication d' (User.familyId user) memberId medId = Some med'
    /\ (d' = d \/ isFloored (Medication.supply med'))
    /\ (forall r, consume env d user memberId medId reqBody = Answered r d' ->
                  isFloored (Medication.supply med')).
Proof.
  intros Hfound. pose proof Hfound as H. unfold findMedication in H.
  destruct (find (ownedBy memberId (User.familyId user)) (members d))
    as [member|] eqn:Hm; [|discriminate].
  destruct (consume_cases env d user memberId medId reqBody member med Hm H)
    as [[E _] | (sum & summed & old & _ & _ & Hold
                 & [E | (negative & taken & newConsumed & _ & _ & _ & E)])].
  - exists d, med. rewrite E. split; [reflexivity|]. split; [exact Hfound|].
    split; [now left | discriminate].
  - eexists _, _. rewrite E. split; [reflexivity|].
    split; [exact (findMedication_written d _ _ _ member med _ _ Hm H)|].
    split; [right; apply Math_max_floored | discriminate].
  - rewrite E.
    match goal with
    | |- context [consumeLog env ?d2 user memberId medId member ?med2 ?o ?n] =>
        destruct (consumeLog_cases env d2 user memberId medId member med2 o n old Hold)
          as [[-> _] | (r & doseEntry & warning & _ & _ & _ & _ & _ & ->)]
    end.
    + eexists _, _. split; [reflexivity|].
      split; [exact (findMedication_written d _ _ _ member med _ _ Hm H)|].
      split; [right; apply Math_max_floored | discriminate].
    + eexists _, _. split; [reflexivity|].
      split; [exact (findMedication_stored d _ _ _ member med _ _ _ Hm H)|].
      split; [right; apply Math_max_floored | intros _ _; apply Math_max_floored].
Qed.

(** Adding stock never raises the low-supply warning: with an integer
    supply and a non-negative integer change, no warning is among the
    entries the consume puts in front of the log, and they are the dose
    entry alone when the consume is answered. *)
Theorem consume_restock_never_warns (env : Env) (d : Db) (user : User.t)
        (memberId medId : jsstring) (reqBody : JsVal) (med : Medication.t)
        (s c : Z) :
  findMedication d (User.familyId user) memberId medId = Some med ->
  Medication.supply med = jint s ->
  prop reqBody "change" = jint c ->
  (0 <= c)%Z ->
  exists d' newEntries,
    after (consume env d user memberId medId reqBody) = Some d'
    /\ logs d' = newEntries ++ logs d
    /\ countWarnings newEntries = 0
    /\ (forall r, consume env d user memberId medId reqBody = Answered r d' ->
                  length newEntries = 1).
Proof.
  intros Hfound Hs Hc Hpos. unfold findMedication in Hfound.
  destruct (find (ownedBy memberId (User.familyId user)) (members d))
    as [member|] eqn:Hm; [|discriminate].
  destruct (consume_cases env d user memberId medId reqBody member med Hm Hfound)
    as [[E _] | (sum & summed & old & Hsum & Hsummed & Hold
                 & [E | (negative & taken & newConsumed & _ & _ & _ & E)])].
  - exists d, []. rewrite E. repeat split. discriminate.
  - eexists _, []. rewrite E. repeat split. discriminate.
  - rewrite (requested_change reqBody c (or_introl Hc)), Hs in Hsum.
    rewrite js_add_integers in Hsum. injection Hsum as <-.
    unfold jint in Hsummed at 1. rewrite ToNumber_number in Hsummed.
    injection Hsummed as <-.
    rewrite Hs in Hold. unfold jint in Hold. rewrite ToNumber_number in Hold.
    injection Hold as <-.
    rewrite E.
    match goal with
    | |- context [consumeLog env ?d2 user memberId medId member ?med2 ?o ?n] =>
        destruct (consumeLog_cases env d2 user memberId medId member med2 o n
                    (Fin (inject_Z s)))
          as [[-> _] | (r & doseEntry & warning & _ & _ & _ & Hd & _ & ->)]
    end.
    + rewrite Hs. reflexivity.
    + eexists _, []. repeat split. discriminate.
    + rewrite Math_max_integer.
      change (Fin 5) with (Fin (inject_Z 5)). rewrite num_le_inject, num_lt_inject.
      assert (C : ((Z.max 0 (s + c) <=? 5)%Z && (5 <? s)%Z) = false).
      { destruct (Z.leb_spec (Z.max 0 (s + c)) 5); destruct (Z.ltb_spec 5 s);
          trivial. lia. }
      rewrite C. exists (with_logs
                           (storeMedication d (ownedBy memberId (User.familyId user))
                              (sameMedId (JStr medId))
                              (Medication.with_stock med
                                 (JNum (Fin (inject_Z (Z.max 0 (s + c))))) newConsumed))
                           ([doseEntry] ++ logs d)), [doseEntry].
      split; [reflexivity|]. split; [reflexivity|]. split; [|reflexivity].
      unfold countWarnings. cbn [filter]. now rewrite Hd.
Qed.

(** A consume changes nothing but the supply and consumedCount of
    medications: every member keeps its place, its identity and its other
    fields, and every medication its place and its other fields. *)
Theorem consume_changes_only_stock (env : Env) (d : Db) (user : User.t)
        (memberId medId : jsstring) (reqBody : JsVal) (d' : Db) :
  after (consume env d user memberId medId reqBody) = Some d' ->
  Forall2 sameButStocks (members d) (members d').
Proof.
  destruct (consume_outcomes env d user memberId medId reqBody)
    as [(r & -> & _) | (member & med & Hm & Hmed & [-> | (newSupply & newConsumed & _ & H)])];
    cbn [after]; try (intros [= <-]; apply Forall2_refl_on, sameButStocks_refl).
  cbv zeta in H.
  assert (G : Forall2 sameButStocks (members d)
                (members (storeMedication d (ownedBy memberId (User.familyId user))
                            (sameMedId (JStr medId))
                            (Medication.with_stock med (JNum newSupply) newConsumed)))).
  { cbn [storeMedication with_members members].
    apply Forall2_updateFirst; [apply sameButStocks_refl|].
    intros x Hx. rewrite Hm in Hx. injection Hx as <-.
    eexists. split; [reflexivity|].
    apply Forall2_updateFirst; [apply sameButStock_refl|].
    intros y Hy. rewrite Hmed in Hy. injection Hy as <-.
    unfold sameButStock. now destruct med. }
  destruct H as [-> | (r & entries & -> & _)]; cbn [after]; intros [= <-]; exact G.
Qed.

(** A member update never moves, renumbers or re-homes a member: every
    member keeps its place, id and family, and every member other than the
    one addressed is unchanged. *)
Theorem updateMember_keeps_identity (env : Env) (d : Db) (user : User.t)
        (memberId : jsstring) (reqBody : JsVal) (d' : Db) :
  after (updateMember env d user memberId reqBody) = Some d' ->
  Forall2 (fun before after =>
             Member.id after = Member.id before
             /\ Member.familyId after = Member.familyId before
             /\ (ownedBy memberId (User.familyId user) before = false ->
                 after = before))
          (members d) (members d').
Proof.
  assert (R : forall l : list Member.t,
             Forall2 (fun before after =>
                        Member.id after = Member.id before
                        /\ Member.familyId after = Member.familyId before
                        /\ (ownedBy memberId (User.familyId user) before = false ->
                            after = before)) l l).
  { intros l. apply Forall2_refl_on. intros x. repeat split. }
  destruct (updateMember_cases env d user memberId reqBody)
    as [(r & -> & _) | [-> | [-> | (idx & existing & phone & meds & built & _ & Hidx
                                    & Hnth & _ & _ & _ & H)]]];
    cbn [after]; try (intros [= <-]; apply R); try discriminate.
  cbv zeta in H.
  assert (G : forall updated,
             Member.id updated = Member.id existing ->
             Member.familyId updated = Member.familyId existing ->
             Forall2 (fun before after =>
                        Member.id after = Member.id before
                        /\ Member.familyId after = Member.familyId before
                        /\ (ownedBy memberId (User.familyId user) before = false ->
                            after = before))
                     (members d) (setAt idx updated (members d))).
  { intros updated Hi Hf.
    apply (Forall2_setAt _ _ _ (fun x => conj eq_refl (conj eq_refl (fun _ => eq_refl)))
                         idx existing Hnth).
    repeat split; trivial. intros E.
    rewrite (findIndex_holds _ _ _ _ Hidx Hnth) in E. discriminate. }
  destruct H as [-> | (entry & _ & ->)]; cbn [after]; intros [= <-];
    cbn [members with_logs with_members]; now apply G.
Qed.

End ConsumeFrames.

(** * Further properties of the helpers *)








Lemma firstn_succ_nth {A : Type} (d : A) (l : list A) : forall k,
  k < length l -> firstn (S k) l = firstn k l ++ [nth k l d].
Proof.
  induction l as [|x l IH]; intros k H; [cbn in H; lia|].
  destruct k as [|k]; [reflexivity|].
  cbn [firstn nth app]. f_equal. apply IH. cbn in H. lia.
Qed.

Lemma filter_all_digits (s : jsstring) : Forall (fun c => isDigit c = true) (filter isDigit s).
Proof. apply Forall_forall. intros c H. now apply filter_In in H. Qed.

Lemma filter_digits_fixed (s : jsstring) :
  Forall (fun c => isDigit c = true) s -> filter isDigit s = s.
Proof.
  induction 1 as [|c s Hc _ IH]; trivial. cbn [filter]. now rewrite Hc, IH.
Qed.

Lemma sliceLast_digits (n : nat) (s : jsstring) :
  Forall (fun c => isDigit c = true) s ->
  Forall (fun c => isDigit c = true) (sliceLast n s).
Proof.
  intros H. rewrite Forall_forall in *. intros c Hc. apply H.
  unfold sliceLast in Hc. rewrite <- (firstn_skipn (length s - n) s).
  apply in_or_app. now right.
Qed.

Lemma firstn_digits (n : nat) (s : jsstring) :
  Forall (fun c => isDigit c = true) s ->
  Forall (fun c => isDigit c = true) (firstn n s).
Proof.
  intros H. rewrite Forall_forall in *. intros c Hc. apply H.
  rewrite <- (firstn_skipn n s). apply in_or_app. now left.
Qed.

Lemma startsWith_91 (s : jsstring) :
  startsWith s (lit "91") = true -> exists rest, s = lit "91" ++ rest.
Proof.
  unfold startsWith. intros H. apply jsstring_eqb_eq in H.
  exists (skipn 2 s). rewrite <- H at 1. symmetry. apply firstn_skipn.
Qed.

(** What the phone normalizer makes of a string of digits: nothing, or
    [+91] followed by one to ten of them. *)
Lemma specPhone_cases (digits : jsstring) :
  Forall (fun c => isDigit c = true) digits ->
  specPhone digits = []
  \/ exists ds, specPhone digits = lit "+91" ++ ds
                /\ 1 <= length ds <= 10
                /\ Forall (fun c => isDigit c = true) ds.
Proof.
  intros D. unfold specPhone.
  destruct digits as [|d ds] eqn:E; [now left|]. right.
  destruct (startsWith (d :: ds) (lit "91") && (12 <=? length (d :: ds))) eqn:C.
  - apply andb_true_iff in C. destruct C as [C1 C2].
    apply Nat.leb_le in C2.
    destruct (startsWith_91 _ C1) as (rest & Hr). rewrite Hr in *.
    assert (Dr : Forall (fun c => isDigit c = true) rest).
    { apply Forall_app in D. apply D. }
    rewrite length_app in C2. cbn [lit length] in C2.
    exists (firstn 10 rest). split; [reflexivity|]. split.
    + rewrite length_firstn. cbn in C2. lia.
    + now apply firstn_digits.
  - destruct (sliceLast 10 (d :: ds)) as [|c cs] eqn:L.
    + exfalso. revert L. apply sliceLast_nonempty. lia.
    + exists (c :: cs). split; [reflexivity|]. rewrite <- L. split.
      * unfold sliceLast. rewrite length_skipn. cbn [length]. lia.
      * now apply sliceLast_digits.
Qed.

Section HelperProperties.
Context {NC : NumberConv}.

(** ** normalizeTimesPerDay *)








(** ** normalizeTime *)

(** Normalizing a normalized time changes nothing. *)
Theorem normalizeTime_idempotent (value : JsVal) :
  normalizeTime (JStr (normalizeTime value)) = normalizeTime value.
Proof. apply normalizeTime_fixed, normalizeTime_wellformed. Qed.

(** ** normalizeDoseTimes *)

(** When the normalized count is a number other than Infinity, the result
    is not empty, its length is the ceiling of the count and every entry
    has the strict HH:MM shape.  When it is Infinity the loop never ends,
    however many times its test is made.  When the count cannot be
    normalized, the exception is the one of the count. *)
Theorem normalizeDoseTimes_never_empty (timesPerDay incoming : JsVal) :
  (forall q,
      normalizeTimesPerDay timesPerDay = Returns (Fin q) ->
      exists times,
        normalizeDoseTimes timesPerDay incoming = Returns times
        /\ times <> []
        /\ length times = Z.to_nat (Qceiling q)
        /\ Forall (fun s => isTimeString s = true) times)
  /\ (normalizeTimesPerDay timesPerDay = Returns Infinity ->
      normalizeDoseTimes timesPerDay incoming = Diverges
      /\ forall fuel provided, doseLoop fuel Infinity provided 0 [] = None)
  /\ (normalizeTimesPerDay timesPerDay = Throws ->
      normalizeDoseTimes timesPerDay incoming = Throws)
  /\ (forall times,
         normalizeDoseTimes timesPerDay incoming = Returns times ->
         times <> [] /\ Forall (fun s => isTimeString s = true) times).
Proof.
  assert (NE : forall q n provided,
             (0 < q)%Q -> n = Z.to_nat (Qceiling q) -> builtTimes provided n <> []).
  { intros q n provided Hq -> E. apply (f_equal (@length _)) in E.
    rewrite builtTimes_length in E. pose proof (positive_ceiling q Hq).
    cbn [length] in E. lia. }
  split; [|split; [|split]].
  - intros q Hq.
    pose proof (normalizeTimesPerDay_positive _ _ Hq) as Hpos.
    apply num_lt_Fin in Hpos.
    rewrite (normalizeDoseTimes_builtTimes timesPerDay incoming (Fin q)
               (Z.to_nat (Qceiling q)) Hq eq_refl).
    eexists. split; [reflexivity|]. split; [now apply (NE q)|].
    split; [apply builtTimes_length | apply builtTimes_wellformed].
  - intros H. split.
    + unfold normalizeDoseTimes. now rewrite H.
    + intros fuel provided. apply doseLoop_infinite.
  - intros H. unfold normalizeDoseTimes. now rewrite H.
  - intros times H.
    destruct (normalizeDoseTimes_returns _ _ _ H) as (q & _ & Hq & ->).
    split; [now apply (NE q) | apply builtTimes_wellformed].
Qed.

(** On an array of well-formed times the loop copies the first entries. *)
Lemma builtTimes_of_times (times : list jsstring) : forall k,
  Forall (fun s => isTimeString s = true) times ->
  k <= length times ->
  builtTimes (List.map JStr times) k = firstn k times.
Proof.
  intros k W. induction k as [|k IH]; intros H; [reflexivity|].
  cbn [builtTimes]. rewrite IH by lia.
  rewrite (@firstn_succ_nth jsstring [] times k) by lia. f_equal. f_equal.
  unfold arr_get at 1.
  replace (Z.of_nat k <? 0)%Z with false by (symmetry; apply Z.ltb_ge; lia).
  rewrite Nat2Z.id.
  assert (E : nth_error times k = Some (nth k times [])) by (apply nth_error_nth'; lia).
  rewrite (nth_error_nth _ _ _ (map_nth_error JStr _ _ E)). cbn [nullish].
  apply normalizeTime_fixed.
  rewrite Forall_forall in W. apply W. eapply nth_error_In; eauto.
Qed.

(** Normalizing an already normalized schedule with the same count changes
    nothing. *)
Theorem normalizeDoseTimes_idempotent (timesPerDay incoming : JsVal)
        (times : list jsstring) :
  normalizeDoseTimes timesPerDay incoming = Returns times ->
  normalizeDoseTimes timesPerDay (JArr (List.map JStr times)) = Returns times.
Proof.
  intros H.
  destruct (normalizeDoseTimes_returns _ _ _ H) as (q & Hq & _ & E).
  rewrite (normalizeDoseTimes_builtTimes timesPerDay (JArr (List.map JStr times))
             (Fin q) (Z.to_nat (Qceiling q)) Hq eq_refl).
  f_equal. rewrite builtTimes_of_times.
  - rewrite E at 1. rewrite <- (builtTimes_length
                                  (match incoming with JArr l => l | _ => [] end)
                                  (Z.to_nat (Qceiling q))) at 1.
    rewrite <- E. apply firstn_all.
  - rewrite E. apply builtTimes_wellformed.
  - rewrite E. now rewrite builtTimes_length.
Qed.

(** ** formatPhoneNumber *)

(** Whatever the value, a result is empty or [+91] followed by one to ten
    digits. *)
Lemma formatPhoneNumber_cases (phone : JsVal) (s : jsstring) :
  formatPhoneNumber phone = Returns s ->
  s = []
  \/ exists ds, s = lit "+91" ++ ds
                /\ 1 <= length ds <= 10
                /\ Forall (fun c => isDigit c = true) ds.
Proof.
  destruct (truthy phone) eqn:T.
  - destruct (ToString phone) as [converted| |] eqn:E.
    + rewrite (formatPhoneNumber_converted phone converted T E).
      intros [= <-]. apply specPhone_cases, filter_all_digits.
    + unfold formatPhoneNumber. rewrite T, E. discriminate.
    + unfold formatPhoneNumber. rewrite T, E. discriminate.
  - unfold formatPhoneNumber. rewrite T. intros [= <-]. now left.
Qed.

(** Whatever the value, a result is empty or [+91] followed by one to ten
    digits, thirteen code units at most; the only exception is the one of
    [String(phone)] on a truthy value, and the call always ends. *)
Theorem formatPhoneNumber_shape (phone : JsVal) :
  (forall s, formatPhoneNumber phone = Returns s ->
             (s = [] \/ isNormalizedPhone s) /\ length s <= 13)
  /\ (formatPhoneNumber phone = Throws
      <-> truthy phone = true /\ ToString phone = Throws)
  /\ formatPhoneNumber phone <> Diverges.
Proof.
  split; [|split].
  - intros s H.
    destruct (formatPhoneNumber_cases phone s H) as [-> | (ds & -> & L & D)].
    + split; [now left | cbn; lia].
    + split; [right; now exists ds|].
      rewrite length_app. cbn [lit List.map list_ascii_of_string length]. lia.
  - unfold formatPhoneNumber. destruct (truthy phone); cbn [negb].
    + destruct (ToString phone); cbn [bind]; split; try discriminate; intuition.
      discriminate.
    + split; [discriminate | intros [H _]; discriminate].
  - unfold formatPhoneNumber. destruct (negb (truthy phone)); [discriminate|].
    apply bind_never_diverges; [apply ToString_never_diverges | discriminate].
Qed.

(** A string with at least ten digits is formatted to a number that
    formats to itself. *)
Theorem formatPhoneNumber_stable (s : jsstring) :
  10 <= length (filter isDigit s) ->
  exists p, formatPhoneNumber (JStr s) = Returns p
            /\ formatPhoneNumber (JStr p) = Returns p.
Proof.
  intros H. exists (specPhone (filter isDigit s)).
  split; [apply formatPhoneNumber_specPhone|].
  rewrite formatPhoneNumber_specPhone. f_equal.
  pose proof (filter_all_digits s) as D.
  set (digits := filter isDigit s) in *.
  assert (T : forall ds, Forall (fun c => isDigit c = true) ds -> length ds = 10 ->
              specPhone (filter isDigit (lit "+91" ++ ds)) = lit "+91" ++ ds).
  { intros ds Hd Hl. cbn [lit List.map list_ascii_of_string app filter].
    change (isDigit (N_of_ascii "+")) with false.
    change (isDigit (N_of_ascii "9")) with true.
    change (isDigit (N_of_ascii "1")) with true. cbn iota.
    rewrite (filter_digits_fixed ds Hd). unfold specPhone.
    replace (startsWith (N_of_ascii "9" :: N_of_ascii "1" :: ds) (lit "91")) with true
      by (symmetry; apply (startsWith_app (lit "91") ds)).
    cbn [length]. rewrite Hl. cbn [Nat.leb andb].
    rewrite firstn_all2 by (cbn [length]; lia). reflexivity. }
  assert (P : exists ds, specPhone digits = lit "+91" ++ ds
                         /\ Forall (fun c => isDigit c = true) ds
                         /\ length ds = 10).
  { unfold specPhone.
    destruct digits as [|d ds] eqn:E; [cbn in H; lia|].
    destruct (startsWith (d :: ds) (lit "91") && (12 <=? length (d :: ds))) eqn:C.
    - apply andb_true_iff in C. destruct C as [C1 C2]. apply Nat.leb_le in C2.
      destruct (startsWith_91 _ C1) as (rest & Hr). rewrite Hr in *.
      assert (Dr : Forall (fun c => isDigit c = true) rest).
      { apply Forall_app in D. apply D. }
      rewrite length_app in C2. cbn [lit List.map list_ascii_of_string length] in C2.
      exists (firstn 10 rest). split; [reflexivity|]. split.
      + now apply firstn_digits.
      + rewrite length_firstn. lia.
    - exists (sliceLast 10 (d :: ds)). split; [reflexivity|]. split.
      + now apply sliceLast_digits.
      + unfold sliceLast. rewrite length_skipn. lia. }
  destruct P as (ds & -> & Hd & Hl). now apply T.
Qed.

(** A string with one to eight digits gains another 91 when it is formatted
    a second time. *)
Theorem formatPhoneNumber_short_grows (s : jsstring) :
  1 <= length (filter isDigit s) <= 8 ->
  formatPhoneNumber (JStr s) = Returns (lit "+91" ++ filter isDigit s)
  /\ formatPhoneNumber (JStr (lit "+91" ++ filter isDigit s))
     = Returns (lit "+9191" ++ filter isDigit s).
Proof.
  intros H.
  pose proof (filter_all_digits s) as D.
  set (digits := filter isDigit s) in *.
  assert (S1 : forall ds, ds <> [] -> length ds <= 10 ->
               (startsWith ds (lit "91") && (12 <=? length ds)) = false
               /\ sliceLast 10 ds = ds).
  { intros ds _ Hl. split.
    - apply andb_false_iff. right. apply Nat.leb_gt. lia.
    - unfold sliceLast. replace (length ds - 10) with 0 by lia. reflexivity. }
  assert (F1 : specPhone digits = lit "+91" ++ digits).
  { unfold specPhone.
    destruct digits as [|d ds] eqn:E; [cbn in H; lia|].
    destruct (S1 (d :: ds)) as [-> ->]; [discriminate | lia | reflexivity]. }
  split.
  - rewrite formatPhoneNumber_specPhone. fold digits. now rewrite F1.
  - rewrite formatPhoneNumber_specPhone. f_equal.
    cbn [lit List.map list_ascii_of_string app filter].
    change (isDigit (N_of_ascii "+")) with false.
    change (isDigit (N_of_ascii "9")) with true.
    change (isDigit (N_of_ascii "1")) with true. cbn iota.
    rewrite (filter_digits_fixed digits D). unfold specPhone.
    destruct (S1 (N_of_ascii "9" :: N_of_ascii "1" :: digits)) as [-> ->];
      [discriminate | cbn [length]; lia | reflexivity].
Qed.

End HelperProperties.

(** * Invariants of a run *)

Lemma traverse_map {A B : Type} (f : A -> Completion B) (g : A -> B) (l : list A) :
  (forall x, In x l -> f x = Returns (g x)) -> traverse f l = Returns (List.map g l).
Proof.
  induction l as [|x l IH]; intros H; [reflexivity|].
  cbn [traverse List.map]. rewrite (H x) by now left. cbn [bind].
  rewrite IH by (intros y Hy; apply H; now right). reflexivity.
Qed.

Lemma map_JStr_injective (a b : list jsstring) :
  List.map JStr a = List.map JStr b -> a = b.
Proof.
  revert b. induction a as [|x a IH]; intros [|y b] H; try discriminate; trivial.
  cbn in H. injection H as -> H. f_equal. now apply IH.
Qed.

Section MedicationInvariant.
Context {NC : NumberConv}.
Variable P : Medication.t -> Prop.
Hypothesis P_scheduled :
  forall count incoming times med,
    num_lt (Fin 0) count = true ->
    normalizeDoseTimes (JNum count) incoming = Returns times ->
    Medication.timesPerDay med = JNum count ->
    Medication.doseTimes med = timesArray times ->
    P med.
Hypothesis P_stock :
  forall med s c, P med -> P (Medication.with_stock med s c).
Hypothesis P_seed : forall med, P med -> P (seedSchedule med).

Lemma newMedication_all (med medId : JsVal) (b : Medication.t) :
  newMedication med medId = Returns b -> P b.
Proof.
  unfold newMedication.
  destruct (normalizeTimesPerDay _) as [count| |] eqn:Hc; cbn [bind]; try discriminate.
  destruct (normalizeDoseTimes _ _) as [times| |] eqn:Ht; cbn [bind]; try discriminate.
  intros [= <-].
  eapply P_scheduled; [exact (normalizeTimesPerDay_positive _ _ Hc) | exact Ht | |];
    reflexivity.
Qed.

Lemma updatedMedication_all (existing : Member.t) (med medId : JsVal)
      (b : Medication.t) :
  updatedMedication existing med medId = Returns b -> P b.
Proof.
  unfold updatedMedication.
  destruct (normalizeTimesPerDay _) as [count| |] eqn:Hc; cbn [bind]; try discriminate.
  destruct (nonEmpty _) as [filled| |]; cbn [bind]; try discriminate.
  destruct (normalizeDoseTimes _ _) as [times| |] eqn:Ht; cbn [bind]; try discriminate.
  intros [= <-].
  eapply P_scheduled; [exact (normalizeTimesPerDay_positive _ _ Hc) | exact Ht | |];
    reflexivity.
Qed.

Lemma sanitizeMedication_all (med b : Medication.t) :
  sanitizeMedication med = Returns b -> P b.
Proof.
  unfold sanitizeMedication.
  destruct (normalizeTimesPerDay _) as [count| |] eqn:Hc; cbn [bind]; try discriminate.
  destruct (nonEmpty _) as [filled| |]; cbn [bind]; try discriminate.
  destruct (normalizeDoseTimes _ _) as [times| |] eqn:Ht; cbn [bind]; try discriminate.
  intros [= <-].
  eapply P_scheduled; [exact (normalizeTimesPerDay_positive _ _ Hc) | exact Ht | |];
    reflexivity.
Qed.

Lemma found_all (ms : list Member.t) (p : Member.t -> bool) (q : Medication.t -> bool)
      (member : Member.t) (med : Medication.t) :
  Forall (fun m => Forall P (Member.medications m)) ms ->
  find p ms = Some member ->
  find q (Member.medications member) = Some med -> P med.
Proof.
  intros H Hm Hmed. apply find_some in Hm, Hmed.
  rewrite Forall_forall in H.
  specialize (H member (proj1 Hm)). rewrite Forall_forall in H.
  exact (H med (proj1 Hmed)).
Qed.

Lemma MembersStep_all (fam : jsstring) (ms ms' : list Member.t) :
  MembersStep fam ms ms' ->
  Forall (fun m => Forall P (Member.medications m)) ms ->
  Forall (fun m => Forall P (Member.medications m)) ms'.
Proof.
  intros H Hall.
  destruct H as [ | member given phone _ _ _ Hb
                  | idx existing updated _ _ _ _ _ Hb
                  | isMember isMedication member med med' Hm _ Hmed Hmed' ].
  - exact Hall.
  - apply Forall_app. split; trivial. constructor; [|constructor].
    eapply Forall_impl; [|exact Hb].
    intros b (m & medId & E). exact (newMedication_all _ _ _ E).
  - apply Forall_setAt; trivial.
    eapply Forall_impl; [|exact Hb].
    intros b (m & medId & E). exact (updatedMedication_all _ _ _ _ E).
  - pose proof (found_all _ _ _ _ _ Hall Hm Hmed) as Hp.
    apply Forall_updateFirst; trivial.
    intros x Hx. rewrite Hm in Hx. injection Hx as <-.
    cbn [Member.medications Member.with_medications].
    apply Forall_updateFirst.
    + intros _ _. destruct Hmed' as [-> | (s & c & ->)]; auto.
    + apply find_some in Hm. rewrite Forall_forall in Hall. apply Hall, Hm.
Qed.

Lemma sanitizeDb_all (loaded d : Db) :
  sanitizeDb loaded = Returns d -> AllMedications P d.
Proof.
  unfold sanitizeDb.
  destruct (traverse sanitizeUser _) as [us| |]; cbn [bind]; try discriminate.
  destruct (traverse sanitizeMember _) as [ms| |] eqn:Hms; cbn [bind]; try discriminate.
  intros [= <-]. unfold AllMedications. cbn [members].
  eapply Forall2_right; [|exact (traverse_Forall2 _ _ _ Hms)].
  intros m m' E. unfold sanitizeMember in E. cbv beta in E.
  destruct (formatPhoneNumber _) as [phone| |]; cbn [bind] in E; try discriminate.
  destruct (traverse sanitizeMedication _) as [meds| |] eqn:Hmeds; cbn [bind] in E;
    try discriminate.
  injection E as <-. cbn [Member.medications].
  eapply Forall2_right; [|exact (traverse_Forall2 _ _ _ Hmeds)].
  intros med b. apply sanitizeMedication_all.
Qed.

Lemma reachable_all (loaded : Db) (w : World) :
  reachable loaded w -> AllMedications P (db w).
Proof.
  induction 1 as [d Hd | w env req w' _ IH Hstep].
  - exact (sanitizeDb_all _ _ Hd).
  - destruct (handle_after env w req w' Hstep)
      as [-> | [(user & given & phone & _ & _ & ->)
               | (user & token & _ & ms & entries & Hs & -> & _)]]; trivial.
    unfold AllMedications. cbn [members].
    exact (MembersStep_all _ _ _ Hs IH).
Qed.

End MedicationInvariant.

(** ** Schedules *)

Section ScheduleInvariant.
Context {NC : NumberConv}.

Lemma scheduled_shape (count : JsNum) (incoming : JsVal) (times : list jsstring)
      (med : Medication.t) :
  num_lt (Fin 0) count = true ->
  normalizeDoseTimes (JNum count) incoming = Returns times ->
  Medication.timesPerDay med = JNum count ->
  Medication.doseTimes med = timesArray times ->
  ScheduleOk med /\ TimesWellFormed med.
Proof.
  intros Hpos Ht Hc Hd.
  destruct (normalizeDoseTimes_returns _ _ _ Ht) as (q & Hq & Hq0 & E).
  rewrite (normalizeTimesPerDay_number count Hpos) in Hq. injection Hq as ->.
  assert (L : length times = Z.to_nat (Qceiling q))
    by (rewrite E; apply builtTimes_length).
  split.
  - now exists q, times.
  - exists times. split; trivial. split.
    + intros ->. pose proof (positive_ceiling q Hq0). cbn [length] in L. lia.
    + rewrite E. apply builtTimes_wellformed.
Qed.

(** A schedule in that shape is never seeded again by the reminder route. *)
Lemma seedSchedule_ok (med : Medication.t) : ScheduleOk med -> seedSchedule med = med.
Proof.
  intros (q & times & Ht & Hq & Hd & Hl). unfold seedSchedule. rewrite Hd.
  cbn [truthy negb orb js_length]. rewrite length_map, Hl.
  pose proof (positive_ceiling q Hq).
  unfold jint, strict_eq, num_eq.
  destruct (Qeq_bool _ _) eqn:E; trivial.
  apply Qeq_bool_iff in E. apply (proj1 (inject_Z_injective _ _)) in E. lia.
Qed.

Lemma reachable_shapes (loaded : Db) (w : World) :
  reachable loaded w ->
  AllMedications (fun med => ScheduleOk med /\ TimesWellFormed med) (db w).
Proof.
  apply (reachable_all (fun med => ScheduleOk med /\ TimesWellFormed med)).
  - intros count incoming times med. apply scheduled_shape.
  - intros med s c [(q & times & H) (times' & H')]. split.
    + now exists q, times.
    + now exists times'.
  - intros med [H1 H2]. now rewrite (seedSchedule_ok med H1).
Qed.

Lemma reachable_found (loaded : Db) (w : World) (p : Member.t -> bool)
      (q : Medication.t -> bool) (member : Member.t) (med : Medication.t) :
  reachable loaded w ->
  find p (members (db w)) = Some member ->
  find q (Member.medications member) = Some med ->
  ScheduleOk med /\ TimesWellFormed med.
Proof.
  intros Hr.
  exact (found_all (fun med => ScheduleOk med /\ TimesWellFormed med) _ p q member med
                   (reachable_shapes loaded w Hr)).
Qed.

(** In every reachable state every medication has a positive [timesPerDay]
    and exactly ceiling([timesPerDay]) dose times. *)
Theorem reachable_schedules (loaded : Db) (w : World) :
  reachable loaded w -> SchedulesOk (db w).
Proof.
  intros Hr. pose proof (reachable_shapes loaded w Hr) as H.
  unfold SchedulesOk. eapply Forall_impl; [|exact H].
  intros m Hm. eapply Forall_impl; [|exact Hm]. now intros med [H1 _].
Qed.

(** In every state of a run, every stored schedule has a positive
    [timesPerDay], as many dose times as its ceiling, at least one, and
    each of them a well-formed HH:MM string. *)
Theorem reachable_schedules_wellformed (loaded : Db) (w : World)
        (member : Member.t) (med : Medication.t) :
  reachable loaded w ->
  In member (members (db w)) -> In med (Member.medications member) ->
  exists q times,
    Medication.timesPerDay med = JNum (Fin q)
    /\ (0 < q)%Q
    /\ Medication.doseTimes med = JArr (List.map JStr times)
    /\ length times = Z.to_nat (Qceiling q)
    /\ times <> []
    /\ Forall (fun s => isTimeString s = true) times.
Proof.
  intros Hr Hm Hmed.
  pose proof (reachable_shapes loaded w Hr) as H.
  unfold AllMedications in H.
  rewrite Forall_forall in H. specialize (H member Hm).
  rewrite Forall_forall in H.
  destruct (H med Hmed) as [(q & times & Ht & Hq & Hd & Hl) (times' & Hd' & Hne & Hw)].
  rewrite Hd in Hd'. injection Hd' as E. apply map_JStr_injective in E. subst times'.
  now exists q, times.
Qed.

(** Hence the length invariant wherever [timesPerDay] is an integer. *)
Corollary reachable_integer_schedules (loaded : Db) (w : World)
          (member : Member.t) (med : Medication.t) (n : Z) :
  reachable loaded w ->
  In member (members (db w)) -> In med (Member.medications member) ->
  Medication.timesPerDay med = jint n ->
  lengthMatches med = true.
Proof.
  intros Hr Hm Hmed Hn.
  pose proof (reachable_schedules loaded w Hr) as H.
  unfold SchedulesOk in H. rewrite Forall_forall in H.
  specialize (H member Hm). rewrite Forall_forall in H.
  destruct (H med Hmed) as (q & times & Ht & Hq & Hd & Hl).
  rewrite Hn in Ht. injection Ht as <-.
  unfold lengthMatches. rewrite Hd, Hn. cbn [js_length].
  rewrite length_map, Hl, Qceiling_Z.
  change (inject_Z 0 < inject_Z n)%Q in Hq.
  rewrite <- Zlt_Qlt in Hq. rewrite Z2Nat.id by lia.
  unfold jint, strict_eq, num_eq. apply Qeq_bool_iff. reflexivity.
Qed.

(** A medication in that shape is left as it is by the startup pass. *)
Lemma sanitizeMedication_fixed (med : Medication.t) :
  ScheduleOk med -> TimesWellFormed med -> sanitizeMedication med = Returns med.
Proof.
  intros (q & times & Ht & Hq & Hd & Hl) (times' & Hd' & Hne & Hw).
  rewrite Hd in Hd'. injection Hd' as E. apply map_JStr_injective in E. subst times'.
  pose proof (positive_ceiling q Hq) as Hc.
  unfold sanitizeMedication. rewrite Ht, Hd.
  assert (T : js_or (JNum (Fin q)) (js_or (js_length (JArr (List.map JStr times))) (jint 1))
              = JNum (Fin q)).
  { unfold js_or at 1. cbn [truthy].
    destruct (Qeq_bool q 0) eqn:E; trivial.
    apply Qeq_bool_iff in E. rewrite E in Hq. now apply Qlt_irrefl in Hq. }
  rewrite T.
  assert (N : normalizeTimesPerDay (JNum (Fin q)) = Returns (Fin q)).
  { apply normalizeTimesPerDay_number. now apply num_lt_Fin. }
  rewrite N. cbn [bind].
  assert (E : nonEmpty (JArr (List.map JStr times)) = Returns true).
  { unfold nonEmpty, js_gt. cbn [truthy js_length].
    unfold jint. rewrite ToNumber_number. cbn [bind]. f_equal.
    change (Fin 0) with (Fin (inject_Z 0)).
    rewrite num_lt_inject. apply Z.ltb_lt. rewrite length_map, Hl. lia. }
  rewrite E. cbn [bind].
  rewrite (normalizeDoseTimes_builtTimes (JNum (Fin q)) (JArr (List.map JStr times))
             (Fin q) (Z.to_nat (Qceiling q)) N eq_refl).
  cbn [bind]. rewrite builtTimes_of_times by (trivial; lia).
  rewrite <- Hl, firstn_all. unfold timesArray. rewrite <- Hd, <- Ht.
  now destruct med.
Qed.

(** In a run the reminder route finds nothing to seed: the document it
    writes back is the one it read. *)
Lemma reminder_stores_nothing (loaded : Db) (w : World) (isMember : Member.t -> bool)
      (isMedication : Medication.t -> bool) (member : Member.t)
      (found : Medication.t) :
  reachable loaded w ->
  find isMember (members (db w)) = Some member ->
  find isMedication (Member.medications member) = Some found ->
  storeMedication (db w) isMember isMedication (seedSchedule found) = db w.
Proof.
  intros Hr Hm Hfound.
  destruct (reachable_found loaded w _ _ _ _ Hr Hm Hfound) as [H1 _].
  rewrite (seedSchedule_ok found H1).
  unfold storeMedication, with_members.
  rewrite updateFirst_same; [now destruct (db w)|].
  intros x Hx. rewrite Hm in Hx. injection Hx as <-.
  rewrite updateFirst_same; [now destruct member|].
  intros y Hy. rewrite Hfound in Hy. now injection Hy as <-.
Qed.

(** In a run, a reminder always ends, and it changes no member and no
    medication: it only adds to the log. *)
Theorem reminder_changes_only_log (loaded : Db) (w : World) (env : Env)
        (authorization : option jsstring) (reqBody : JsVal) :
  reachable loaded w ->
  exists w',
    after (handle env w (PostTrigger authorization reqBody)) = Some w'
    /\ members (db w') = members (db w)
    /\ users (db w') = users (db w)
    /\ families (db w') = families (db w).
Proof.
  intros Hr. cbn [handle].
  apply (authenticated_cases
           (fun o => exists w', after o = Some w'
                                /\ members (db w') = members (db w)
                                /\ users (db w') = users (db w)
                                /\ families (db w') = families (db w)));
    [intros user token _ | intros remaining _; eexists; now repeat split].
  destruct (triggerReminder_cases env (db w) user reqBody)
    as [(r & -> & _) | (member & found & Hm & Hfound & H)];
    [eexists; now repeat split|].
  cbv zeta in H. rewrite (reminder_stores_nothing loaded w _ _ _ _ Hr Hm Hfound) in H.
  destruct H as [-> | (entries & _ & [-> | (view & -> & _)])];
    eexists; now repeat split.
Qed.

(** In a run, the scheduled dose time a reminder reports is always a
    well-formed HH:MM string. *)
Theorem reminder_reports_wellformed_time (loaded : Db) (w : World) (env : Env)
        (authorization : option jsstring) (reqBody : JsVal) (view : ReminderView)
        (w' : World) :
  reachable loaded w ->
  handle env w (PostTrigger authorization reqBody) = Answered (json (BReminder view)) w' ->
  exists s, rv_scheduledDoseTime view = JStr s /\ isTimeString s = true.
Proof.
  intros Hr. cbn [handle].
  apply (authenticated_cases
           (fun o => o = Answered (json (BReminder view)) w' ->
                     exists s, rv_scheduledDoseTime view = JStr s
                               /\ isTimeString s = true));
    [intros user token _ | discriminate].
  destruct (triggerReminder_cases env (db w) user reqBody)
    as [(r & -> & Hs) | (member & found & Hm & Hfound & H)].
  { cbn [onDb]. intros [= -> _]. cbn in Hs. destruct Hs; discriminate. }
  cbv zeta in H.
  destruct (reachable_found loaded w _ _ _ _ Hr Hm Hfound)
    as [H1 (times & Hd & Hne & Hw)].
  rewrite (seedSchedule_ok found H1) in H.
  destruct H as [-> | (entries & _ & [-> | (view0 & -> & Hv)])]; cbn [onDb];
    try discriminate.
  intros [= <- _]. rewrite Hv.
  destruct (truthy (prop reqBody "doseTime")).
  - eexists. split; [reflexivity | apply normalizeTime_wellformed].
  - rewrite Hd. destruct times as [|t times]; [now elim Hne|].
    inversion Hw as [|? ? Ht _]; subst.
    cbn [List.map js_first arr_get Z.ltb Z.compare Z.to_nat nth].
    exists t. split; trivial. unfold js_or. cbn [truthy].
    destruct t; [discriminate | reflexivity].
Qed.

End ScheduleInvariant.

(** C7 fails on the code: a numeric [timesPerDay] that is not an integer
    passes [normalizeTimesPerDay] unrounded, and the loop of
    [normalizeDoseTimes] then runs once more than its integer part.  After
    a login and one member creation, answered 201, the state holds a
    medication with [timesPerDay] 2.5 and three dose times. *)
Theorem fractional_timesPerDay_breaks_length :
  let start := mkWorld (returned exampleDb (@sanitizeDb integerConv exampleDb)) [] in
  let w1 := stateAfter start (@handle integerConv exampleEnv start loginRequest) in
  let created := @handle integerConv exampleEnv w1 fractionalRequest in
  let w2 := stateAfter w1 created in
  @reachable integerConv exampleDb w2
  /\ option_map status (answerOf created) = Some 201
  /\ exists member med,
      In member (members (db w2))
      /\ In med (Member.medications member)
      /\ Medication.timesPerDay med = JNum (Fin (5 # 2))
      /\ js_length (Medication.doseTimes med) = jint 3
      /\ lengthMatches med = false.
Proof.
  cbv zeta. split; [|split; [reflexivity|]].
  - apply reach_step with (w := sessionWorld) (env := exampleEnv)
                          (req := fractionalRequest);
      [exact sessionWorld_reachable | reflexivity].
  - eexists. eexists. split; [|split].
    + vm_compute. do 4 right. left. reflexivity.
    + left. reflexivity.
    + repeat split.
Qed.

(** ** Records and phones *)

Section RunInvariants.
Context {NC : NumberConv}.

Lemma PhoneOk_formatted (given : JsVal) (phone : jsstring) :
  formatPhoneNumber given = Returns phone -> PhoneOk (JStr phone).
Proof.
  intros H. exists phone. split; trivial.
  destruct (formatPhoneNumber_cases given phone H) as [E | (ds & E & L)]; [now left|].
  right. now exists ds.
Qed.

Lemma MembersStep_phones (fam : jsstring) (ms ms' : list Member.t) :
  MembersStep fam ms ms' ->
  Forall (fun m => PhoneOk (Member.phone m)) ms ->
  Forall (fun m => PhoneOk (Member.phone m)) ms'.
Proof.
  intros H Hall.
  destruct H as [ | member given phone _ Hf Hp _
                  | idx existing updated Hnth _ _ _ Hp _
                  | isMember isMedication member med med' Hm _ _ _ ].
  - exact Hall.
  - apply Forall_app. split; trivial. constructor; [|constructor].
    rewrite Hp. exact (PhoneOk_formatted _ _ Hf).
  - apply Forall_setAt; trivial.
    destruct Hp as [-> | (given & phone & Hf & ->)].
    + rewrite Forall_forall in Hall. apply Hall. eapply nth_error_In; eauto.
    + exact (PhoneOk_formatted _ _ Hf).
  - apply Forall_updateFirst; trivial.
    intros x Hx. cbn [Member.phone Member.with_medications].
    apply find_some in Hx. rewrite Forall_forall in Hall. apply Hall, Hx.
Qed.

Lemma sanitizeDb_phones (loaded d : Db) :
  sanitizeDb loaded = Returns d -> PhonesOk d.
Proof.
  intros Hd. unfold sanitizeDb in Hd.
  destruct (traverse sanitizeUser _) as [us| |] eqn:Hus; cbn [bind] in Hd;
    try discriminate.
  destruct (traverse sanitizeMember _) as [ms| |] eqn:Hms; cbn [bind] in Hd;
    try discriminate.
  injection Hd as <-. split; cbn [db users members].
  - eapply Forall2_right; [|exact (traverse_Forall2 _ _ _ Hus)].
    intros u u' E. unfold sanitizeUser in E.
    destruct (formatPhoneNumber _) as [phone| |] eqn:Hf; cbn [bind] in E;
      try discriminate.
    injection E as <-. exact (PhoneOk_formatted _ _ Hf).
  - eapply Forall2_right; [|exact (traverse_Forall2 _ _ _ Hms)].
    intros m m' E. unfold sanitizeMember in E.
    destruct (formatPhoneNumber _) as [phone| |] eqn:Hf; cbn [bind] in E;
      try discriminate.
    destruct (traverse sanitizeMedication _) as [meds| |]; cbn [bind] in E;
      try discriminate.
    injection E as <-. exact (PhoneOk_formatted _ _ Hf).
Qed.

Lemma handle_keeps_phones (env : Env) (w : World) (req : Request) (w' : World) :
  PhonesOk (db w) -> after (handle env w req) = Some w' -> PhonesOk (db w').
Proof.
  intros [IHu IHm] Hstep.
  destruct (handle_after env w req w' Hstep)
    as [-> | [(user & given & phone & Hf & Hp & ->)
             | (user & token & _ & ms & entries & Hs & -> & _)]].
  - now split.
  - split; cbn [users members]; trivial.
    apply Forall_app. split; trivial. constructor; [|constructor].
    rewrite Hp. exact (PhoneOk_formatted _ _ Hf).
  - split; cbn [users members]; trivial.
    exact (MembersStep_phones _ _ _ Hs IHm).
Qed.

Lemma reachable_phones (loaded : Db) (w : World) :
  reachable loaded w -> PhonesOk (db w).
Proof.
  induction 1 as [d Hd | w env req w' _ IH Hstep].
  - exact (sanitizeDb_phones _ _ Hd).
  - exact (handle_keeps_phones env w req w' IH Hstep).
Qed.

(** In every state of a run, the phone of every user and of every member
    is a string, empty or [+91] followed by one to ten digits. *)
Theorem reachable_phones_normalized (loaded : Db) (w : World) :
  reachable loaded w ->
  Forall (fun u => PhoneOk (User.phone u)) (users (db w))
  /\ Forall (fun m => PhoneOk (Member.phone m)) (members (db w)).
Proof.
  induction 1 as [d Hd | w env req w' _ IH Hstep].
  - exact (sanitizeDb_phones _ _ Hd).
  - exact (handle_keeps_phones env w req w' IH Hstep).
Qed.

(** Nothing that was in the document at startup, and nothing added since,
    is ever removed: users and families only grow at the end and the log
    only grows in front. *)
Theorem run_keeps_records (loaded : Db) (w : World) :
  reachable loaded w ->
  exists sanitized newUsers newFamilies newEntries,
    traverse sanitizeUser (users loaded) = Returns sanitized
    /\ users (db w) = sanitized ++ newUsers
    /\ families (db w) = families loaded ++ newFamilies
    /\ logs (db w) = newEntries ++ logs loaded.
Proof.
  induction 1 as [d Hd | w env req w' _ (us & nu & nf & ne & Hus & Hu & Hf & Hl) Hstep].
  - unfold sanitizeDb in Hd.
    destruct (traverse sanitizeUser _) as [us| |] eqn:Hus; cbn [bind] in Hd;
      try discriminate.
    destruct (traverse sanitizeMember _) as [ms| |]; cbn [bind] in Hd;
      try discriminate.
    injection Hd as <-. exists us, [], [], []. cbn [db users families logs].
    now rewrite !app_nil_r.
  - destruct (handle_after env w req w' Hstep)
      as [-> | [(user & given & phone & _ & _ & ->)
               | (user & token & _ & ms & entries & _ & -> & _)]].
    + now exists us, nu, nf, ne.
    + eexists us, (nu ++ [_]), (nf ++ [_]), ne. cbn [users families logs].
      rewrite Hu, Hf, !app_assoc. now repeat split.
    + exists us, nu, nf, (entries ++ ne). cbn [users families logs].
      rewrite Hl, app_assoc. now repeat split.
Qed.

(** Restarting the server on the document of any state of a run starts,
    and leaves every medication as it is. *)
Theorem restart_keeps_schedules (loaded : Db) (w : World) :
  reachable loaded w ->
  exists d',
    sanitizeDb (db w) = Returns d'
    /\ List.map Member.medications (members d')
       = List.map Member.medications (members (db w)).
Proof.
  intros Hr.
  pose proof (reachable_shapes loaded w Hr) as H.
  destruct (reachable_phones loaded w Hr) as [Hu Hm].
  unfold sanitizeDb.
  rewrite (traverse_map sanitizeUser
             (fun u => User.mk (User.id u) (User.username u) (User.password u)
                               (JStr (returned [] (formatPhoneNumber (User.phone u))))
                               (User.role u) (User.familyId u))).
  2: { intros u Hin. rewrite Forall_forall in Hu.
       destruct (Hu u Hin) as (s & E & _). unfold sanitizeUser.
       rewrite E, formatPhoneNumber_specPhone. reflexivity. }
  cbn [bind].
  rewrite (traverse_map sanitizeMember
             (fun m => Member.mk (Member.id m) (Member.familyId m) (Member.name m)
                                 (Member.ageGroup m)
                                 (JStr (returned [] (formatPhoneNumber (Member.phone m))))
                                 (Member.medications m))).
  2: { intros m Hin. rewrite Forall_forall in Hm.
       destruct (Hm m Hin) as (s & E & _). unfold sanitizeMember.
       rewrite E, formatPhoneNumber_specPhone. cbn [bind returned].
       rewrite (traverse_map sanitizeMedication (fun med => med)).
       - cbn [bind]. now rewrite map_id.
       - intros med Hmed. unfold AllMedications in H. rewrite Forall_forall in H.
         specialize (H m Hin). rewrite Forall_forall in H.
         destruct (H med Hmed) as [H1 H2]. now apply sanitizeMedication_fixed. }
  cbn [bind]. eexists. split; [reflexivity|].
  cbn [members]. rewrite map_map. reflexivity.
Qed.

End RunInvariants.

(** * Reminders *)

Lemma strict_eq_string (v : JsVal) (s : jsstring) :
  strict_eq v (JStr s) = true <-> v = JStr s.
Proof.
  destruct v; cbn [strict_eq]; split; try discriminate.
  - intros H. apply jsstring_eqb_eq in H. now subst.
  - intros [= ->]. apply jsstring_eqb_refl.
Qed.

Lemma find_first_filter {A : Type} (p : A -> bool) (l : list A) :
  find p l = match filter p l with
             | [] => None
             | x :: _ => Some x
             end.
Proof.
  induction l as [|x l IH]; trivial. cbn [find filter]. now destruct (p x).
Qed.

Lemma find_existsb {A : Type} (p : A -> bool) (l : list A) :
  existsb p l = match find p l with
                | Some _ => true
                | None => false
                end.
Proof.
  induction l as [|x l IH]; trivial. cbn [find existsb]. now destruct (p x).
Qed.

Lemma compact_In {A : Type} (l : list (option A)) (x : A) :
  In x (compact l) -> In (Some x) l.
Proof.
  induction l as [|[y|] l IH]; cbn [compact]; [contradiction| |].
  - intros [-> | H]; [now left | right; auto].
  - intros H. right. auto.
Qed.

(** The heads the reminder route finds are the registered heads of the
    family, and users of the document. *)
Lemma getFamilyHeads_registered (d : Db) (familyId : jsstring) :
  length (getFamilyHeads d familyId) = registeredHeads d familyId.
Proof.
  unfold getFamilyHeads, registeredHeads. rewrite find_first_filter.
  destruct (filter _ (families d)) as [|family rest]; trivial.
  induction (Family.headUserIds family) as [|id ids IH]; trivial.
  cbn [List.map compact filter]. rewrite find_existsb.
  destruct (find _ (users d)); cbn [length]; now rewrite IH.
Qed.

Lemma getFamilyHeads_users (d : Db) (familyId : jsstring) (h : User.t) :
  In h (getFamilyHeads d familyId) -> In h (users d).
Proof.
  unfold getFamilyHeads. destruct (find _ (families d)) as [family|]; [|contradiction].
  intros H. apply compact_In, in_map_iff in H. destruct H as (id & H & _).
  apply find_some in H. apply H.
Qed.

Section Reminders.
Context {NC : NumberConv}.

(** With names and times that are primitive values, the age branch
    returns: one event and one entry for a minor, otherwise four events
    and two entries that share the date read once. *)
Lemma ageBranch_counts (env : Env) (member : Member.t) (medication : Medication.t)
      (timesPerDay normalizedDoseTime : JsVal) (headNames reminderTime : jsstring) :
  isPrimitive (Member.name member) = true ->
  isPrimitive (Medication.name medication) = true ->
  isPrimitive timesPerDay = true ->
  isPrimitive normalizedDoseTime = true ->
  exists produced entries uuids dates,
    ageBranch env member medication timesPerDay normalizedDoseTime headNames reminderTime
    = Returns (produced, entries, uuids, dates)
    /\ (if isMinor member
        then length produced = 1 /\ length entries = 1
        else length produced = 4
             /\ exists first second,
                 entries = [first; second]
                 /\ Log.timestamp first = Log.timestamp second).
Proof.
  intros Hmember Hmed Htimes Hdose. unfold ageBranch.
  destruct (isMinor member).
  - destruct (template_primitive
                [Text "Minor reminder: "; Hole (Medication.name medication);
                 Text " ("; Hole timesPerDay;
                 Text "x/day, scheduled dose at "; Hole normalizedDoseTime;
                 Text "). Calling head(s) "; Hole (JStr headNames);
                 Text " now ("; Hole (JStr reminderTime); Text ")."])
      as (event & ->); [repeat constructor; trivial|].
    destruct (template_primitive
                [Text "REMINDER (Minor): Immediate call to head(s) ";
                 Hole (JStr headNames); Text " for "; Hole (Member.name member);
                 Text "'s "; Hole (Medication.name medication);
                 Text " dose scheduled "; Hole normalizedDoseTime; Text "."])
      as (message & ->); [repeat constructor; trivial|].
    cbn [bind]. do 4 eexists. split; [reflexivity|]. now split.
  - destruct (template_primitive
                [Text "Calling "; Hole (Member.name member);
                 Text " now ("; Hole (JStr reminderTime); Text ") for ";
                 Hole (Medication.name medication);
                 Text " dose scheduled "; Hole normalizedDoseTime; Text "."])
      as (calling & ->); [repeat constructor; trivial|].
    destruct (template_primitive
                [Text "REMINDER (Adult): Immediate call to "; Hole (Member.name member);
                 Text " at "; Hole (JStr reminderTime); Text " for ";
                 Hole (Medication.name medication);
                 Text " dose scheduled "; Hole normalizedDoseTime; Text "."])
      as (first & ->); [repeat constructor; trivial|].
    destruct (template_primitive
                [Text "REMINDER (Adult): 2 missed calls for "; Hole (Member.name member);
                 Text ", escalating to head(s) "; Hole (JStr headNames); Text "."])
      as (second & ->); [repeat constructor; trivial|].
    cbn [bind]. do 4 eexists. split; [reflexivity|]. split; [reflexivity|].
    do 2 eexists. split; reflexivity.
Qed.

(** The call is prepared without an exception when the phones are those
    of a run. *)
Lemma callPayload_returns (member : Member.t) (medication : Medication.t)
      (scheduledDoseTime : JsVal) (heads : list User.t) (minor : bool) :
  PhoneOk (Member.phone member) ->
  Forall (fun h => PhoneOk (User.phone h)) heads ->
  exists call,
    callPayload member medication scheduledDoseTime heads minor = Returns call.
Proof.
  intros (s & Hs & _) Hheads. unfold callPayload.
  destruct (traverse_returns (fun h => formatPhoneNumber (User.phone h)) heads)
    as (formatted & ->).
  { intros h Hin. rewrite Forall_forall in Hheads.
    destruct (Hheads h Hin) as (p & -> & _).
    rewrite formatPhoneNumber_specPhone. eauto. }
  cbn [bind]. rewrite Hs, formatPhoneNumber_specPhone. cbn [bind]. eauto.
Qed.

(** A reminder for a member and a medication of a run, with names that
    are primitive values. *)
Lemma triggerReminder_counts (loaded : Db) (w : World) (env : Env) (user : User.t)
      (reqBody : JsVal) (member : Member.t) (found : Medication.t) :
  reachable loaded w ->
  find (reminderTarget (prop reqBody "memberId") (User.familyId user))
       (members (db w)) = Some member ->
  find (sameMedId (prop reqBody "medicationId")) (Member.medications member)
  = Some found ->
  isPrimitive (Member.name member) = true ->
  isPrimitive (Medication.name found) = true ->
  Forall (fun u => isPrimitive (User.username u) = true) (users (db w)) ->
  exists view newEntries,
    triggerReminder env (db w) user reqBody
    = Answered (json (BReminder view)) (with_logs (db w) (newEntries ++ logs (db w)))
    /\ ReminderCounts (isMinor member)
                      (2 <=? registeredHeads (db w) (Member.familyId member))
                      (events view) newEntries.
Proof.
  intros Hr Hm Hfound Hname Hmed Husers.
  destruct (reachable_found loaded w _ _ _ _ Hr Hm Hfound)
    as [Hok (times & Hd & Hne & Hw)].
  pose proof (reachable_phones loaded w Hr) as [Hup Hmp].
  pose proof (reminder_stores_nothing loaded w _ _ _ _ Hr Hm Hfound) as Hsame.
  pose proof (seedSchedule_ok found Hok) as Hseed.
  destruct Hok as (q & times' & Ht & Hq & _ & _).
  unfold triggerReminder. cbv zeta. rewrite Hm, Hfound, Hsame, Hseed.
  set (heads := getFamilyHeads (db w) (Member.familyId member)).
  assert (Hin : forall h, In h heads -> In h (users (db w))).
  { intros h. apply getFamilyHeads_users. }
  destruct (joinVals_primitive (lit ", ") (List.map User.username heads))
    as (joined & ->).
  { apply Forall_forall. intros v Hv. apply in_map_iff in Hv.
    destruct Hv as (h & <- & Hh). rewrite Forall_forall in Husers.
    apply Husers, Hin, Hh. }
  cbn [attempt].
  assert (Ptimes : isPrimitive (js_or (Medication.timesPerDay found) (jint 1)) = true).
  { rewrite Ht. unfold js_or. now destruct (truthy _). }
  destruct (ToNumber_primitive _ Ptimes) as (interval & ->). cbn [attempt].
  set (normalizedDoseTime :=
         if truthy (prop reqBody "doseTime")
         then JStr (normalizeTime (prop reqBody "doseTime"))
         else js_or (js_first (Medication.doseTimes found)) (jstr "08:00")).
  assert (Pdose : isPrimitive normalizedDoseTime = true).
  { subst normalizedDoseTime. destruct (truthy (prop reqBody "doseTime")); trivial.
    rewrite Hd. destruct times as [|t times]; [now elim Hne|].
    cbn [List.map js_first arr_get Z.ltb Z.compare Z.to_nat nth].
    unfold js_or. now destruct (truthy (JStr t)). }
  set (headNames := match joined with [] => lit "Head of family" | _ => joined end).
  destruct (ageBranch_counts env member found
              (js_or (Medication.timesPerDay found) (jint 1)) normalizedDoseTime
              headNames (currentTimeHHMM env) Hname Hmed Ptimes Pdose)
    as (produced & entries & uuids & dates & -> & Hcounts).
  cbn [attempt].
  destruct (callPayload_returns member found normalizedDoseTime heads (isMinor member))
    as (call & Hcall).
  { apply find_some in Hm. rewrite Forall_forall in Hmp. apply Hmp, Hm. }
  { apply Forall_forall. intros h Hh. rewrite Forall_forall in Hup. apply Hup, Hin, Hh. }
  assert (Hcount : (1 <? length heads) = (2 <=? registeredHeads (db w) (Member.familyId member))).
  { subst heads. now rewrite getFamilyHeads_registered. }
  rewrite <- Hcount.
  destruct (1 <? length heads); cbn [logs with_logs]; rewrite Hcall; cbn [attempt].
  - eexists _, (_ :: entries). split; [reflexivity|].
    cbn [events]. eexists produced, [_], entries, [_].
    split; [reflexivity|]. split; [reflexivity|]. split; [exact Hcounts | now split].
  - eexists _, entries. split; [reflexivity|].
    cbn [events]. exists produced, [], entries, [].
    split; [reflexivity|]. split; [reflexivity|]. split; [exact Hcounts | now split].
Qed.

(** C3 (amended): in a state of a run, a reminder requested by an
    authenticated user for a member of the user's family and one of the
    member's medications, the names of both and the usernames being
    primitive values, is answered with the events and puts its entries in
    front of the log: for an ageGroup of Minor one event and one entry,
    for any other ageGroup four events and two entries bearing the same
    timestamp, and in both cases one more event, last, and one more entry,
    on top, when the family has two registered heads or more.  In the two
    families of the example, one with two heads and one with a single
    head, a minor gives 2 events and 2 entries, then 1 and 1, and a member
    who is not a minor 5 and 3, then 4 and 2. *)
Theorem triggerReminder_events_and_logs :
  (forall (loaded : Db) (w : World) (env : Env) (authorization : option jsstring)
          (reqBody : JsVal) (user : User.t) (token : jsstring)
          (member : Member.t) (found : Medication.t),
      reachable loaded w ->
      requireAuth w authorization = inl (user, token) ->
      find (reminderTarget (prop reqBody "memberId") (User.familyId user))
           (members (db w)) = Some member ->
      find (sameMedId (prop reqBody "medicationId")) (Member.medications member)
      = Some found ->
      isPrimitive (Member.name member) = true ->
      isPrimitive (Medication.name found) = true ->
      Forall (fun u => isPrimitive (User.username u) = true) (users (db w)) ->
      exists view w' newEntries,
        handle env w (PostTrigger authorization reqBody)
        = Answered (json (BReminder view)) w'
        /\ logs (db w') = newEntries ++ logs (db w)
        /\ (Member.ageGroup member = jstr "Minor" ->
            ReminderCounts true (2 <=? registeredHeads (db w) (Member.familyId member))
                           (events view) newEntries)
        /\ (Member.ageGroup member <> jstr "Minor" ->
            ReminderCounts false (2 <=? registeredHeads (db w) (Member.familyId member))
                           (events view) newEntries))
  /\ (let counts := fun (w : World) (memberId medicationId : string) =>
        match @handle integerConv exampleEnv w
                (PostTrigger bearer (reminderFor memberId medicationId)) with
        | Answered (mkResponse 200 (BReminder view)) w' =>
            Some (length (events view), length (logs (db w')) - length (logs (db w)))
        | _ => None
        end in
      registeredHeads (db sessionWorld) (lit "f1") = 2
      /\ registeredHeads (db zoyaWorld) (lit "f2") = 1
      /\ counts sessionWorld "m1"%string "med1"%string = Some (2, 2)
      /\ counts sessionWorld "m2"%string "med2"%string = Some (5, 3)
      /\ counts zoyaWorld "m3"%string "med3"%string = Some (1, 1)
      /\ counts zoyaWorld "m4"%string "med3"%string = Some (4, 2)).
Proof.
  split; [|vm_compute; repeat split].
  intros loaded w env authorization reqBody user token member found
         Hr Hauth Hm Hfound Hname Hmed Husers.
  destruct (triggerReminder_counts loaded w env user reqBody member found
              Hr Hm Hfound Hname Hmed Husers) as (view & newEntries & E & Hc).
  exists view. eexists. exists newEntries.
  cbn [handle]. unfold authenticated. rewrite Hauth, E. cbn [onDb].
  split; [reflexivity|]. split; [reflexivity|]. split.
  - intros Hminor.
    assert (M : isMinor member = true) by (apply strict_eq_string; exact Hminor).
    now rewrite M in Hc.
  - intros Hother.
    destruct (isMinor member) eqn:Hminor; trivial.
    apply strict_eq_string in Hminor. contradiction.
Qed.

End Reminders.

(** C3 as stated fails: in a state of a run, a reminder for a member whose
    ageGroup is Minor produces no event and no log entry.  The name of the
    member is an object that no conversion to a string accepts: the message
    of the log entry throws inside the asynchronous handler, which sends no
    response and leaves the log as it was. *)
Lemma triggerReminder_minor_without_event :
  let w := unnamedMemberWorld in
  let request := PostTrigger bearer (reminderFor "uuid-0" "med8") in
  @reachable integerConv exampleDb w
  /\ (exists member,
         find (reminderTarget (jstr "uuid-0") (lit "f1")) (members (db w)) = Some member
         /\ Member.ageGroup member = jstr "Minor"
         /\ exists found,
             find (sameMedId (jstr "med8")) (Member.medications member) = Some found)
  /\ @handle integerConv exampleEnv w request = Thrown w
  /\ answerOf (@handle integerConv exampleEnv w request) = None
  /\ option_map (fun w' => logs (db w')) (after (@handle integerConv exampleEnv w request))
     = Some (logs (db w)).
Proof.
  cbv zeta. split; [|split; [|split; [|split]]].
  - apply reach_step with (w := sessionWorld) (env := exampleEnv)
                          (req := unnamedMemberRequest);
      [exact sessionWorld_reachable | reflexivity].
  - eexists. split; [reflexivity|]. split; [reflexivity|].
    eexists. reflexivity.
  - vm_compute. reflexivity.
  - vm_compute. reflexivity.
  - vm_compute. reflexivity.
Qed.

Lemma triggerReminder_events_and_logs_witness :
  requireAuth sessionWorld bearer = inl (returned asha (@sanitizeUser integerConv asha),
                                         lit "token-1")
  /\ Member.ageGroup elder <> jstr "Minor"
  /\ registeredHeads (db sessionWorld) (Member.familyId elder) = 2
  /\ exists view w' newEntries,
      @handle integerConv exampleEnv sessionWorld (PostTrigger bearer reminderRequest)
      = Answered (json (BReminder view)) w'
      /\ logs (db w') = newEntries ++ logs (db sessionWorld)
      /\ length (events view) = 5
      /\ length newEntries = 3.
Proof.
  split; [reflexivity|]. split; [discriminate|]. split; [reflexivity|].
  destruct (proj1 (@triggerReminder_events_and_logs integerConv)
              exampleDb sessionWorld exampleEnv bearer reminderRequest
              (returned asha (@sanitizeUser integerConv asha)) (lit "token-1")
              (returned elder (@sanitizeMember integerConv elder))
              (returned tablets (@sanitizeMedication integerConv tablets))
              sessionWorld_reachable eq_refl eq_refl eq_refl eq_refl eq_refl)
    as (view & w' & newEntries & E & L & _ & Hc).
  { vm_compute. repeat constructor. }
  exists view, w', newEntries. split; [exact E|]. split; [exact L|].
  destruct Hc as (be & ee & bn & en & -> & -> & (Hb & first & second & -> & _) & Hx).
  { discriminate. }
  change (2 <=? registeredHeads (db sessionWorld)
                  (Member.familyId (returned elder (@sanitizeMember integerConv elder))))
    with true in Hx.
  destruct Hx as [Hx1 Hx2]. rewrite !length_app, Hb, Hx1, Hx2. split; reflexivity.
Defined.

(** * Sessions *)

Lemma sessions_get_set (token userId : jsstring) (s : Sessions) :
  sessions_get token (sessions_set token userId s) = Some userId.
Proof.
  induction s as [|[k v] s IH]; cbn [sessions_set sessions_get].
  - now rewrite jsstring_eqb_refl.
  - destruct (jsstring_eqb k token) eqn:E; cbn [sessions_get]; now rewrite E.
Qed.

Lemma sessions_get_delete (token : jsstring) (s : Sessions) :
  sessions_get token (sessions_delete token s) = None.
Proof.
  induction s as [|[k v] s IH]; trivial.
  unfold sessions_delete in *. cbn [filter fst].
  destruct (jsstring_eqb k token) eqn:E; cbn [negb]; trivial.
  cbn [sessions_get]. now rewrite E.
Qed.

Lemma splitSpace_no_space (s : jsstring) : forall current,
  ~ In 32%N s -> splitSpace s current = [current ++ s].
Proof.
  induction s as [|c s IH]; intros current H; cbn [splitSpace].
  - now rewrite app_nil_r.
  - destruct (N.eqb_spec c 32) as [->|_]; [elim H; now left|].
    rewrite IH by (intros Hs; apply H; now right).
    now rewrite <- app_assoc.
Qed.

Lemma splitSpace_scheme (scheme token : jsstring) : forall current,
  ~ In 32%N scheme -> ~ In 32%N token ->
  splitSpace (scheme ++ 32%N :: token) current = [current ++ scheme; token].
Proof.
  induction scheme as [|c scheme IH]; intros current H1 H2.
  - cbn [app splitSpace N.eqb Pos.eqb]. rewrite app_nil_r.
    now rewrite splitSpace_no_space.
  - cbn [app splitSpace].
    destruct (N.eqb_spec c 32) as [->|_]; [elim H1; now left|].
    rewrite IH; trivial; [|intros Hs; apply H1; now right].
    now rewrite <- app_assoc.
Qed.

(** The first word of a split, and the second. *)
Lemma splitSpace_first (s : jsstring) : forall current first,
  nth_error (splitSpace s current) 0 = Some first ->
  exists word rest,
    first = current ++ word
    /\ s = word ++ rest
    /\ ~ In 32%N word
    /\ (rest = [] \/ exists more, rest = 32%N :: more).
Proof.
  induction s as [|c s IH]; intros current first; cbn [splitSpace].
  - intros [= <-]. exists [], []. rewrite app_nil_r. repeat split; auto.
  - destruct (N.eqb_spec c 32) as [->|Hc].
    + intros [= <-]. exists [], (32%N :: s). rewrite app_nil_r.
      repeat split; eauto.
    + intros H. destruct (IH _ _ H) as (word & rest & -> & -> & Hw & Hr).
      exists (c :: word), rest. rewrite <- app_assoc. repeat split; trivial.
      intros [E | E]; [now elim Hc | contradiction].
Qed.

Lemma splitSpace_second (s : jsstring) : forall current token,
  nth_error (splitSpace s current) 1 = Some token ->
  carriesToken s token.
Proof.
  induction s as [|c s IH]; intros current token; cbn [splitSpace].
  - discriminate.
  - destruct (N.eqb_spec c 32) as [->|Hc].
    + cbn [nth_error]. intros H.
      destruct (splitSpace_first _ _ _ H) as (word & rest & -> & -> & Hw & Hr).
      exists [], rest. repeat split; auto.
    + intros H. destruct (IH _ _ H) as (scheme & rest & -> & Hs & Ht & Hr).
      exists (c :: scheme), rest. repeat split; trivial.
      intros [E | E]; [now elim Hc | contradiction].
Qed.

Section Sessions.
Context {NC : NumberConv}.

(** [requireAuth] lets a request through only with a header whose second
    word is a non-empty token that the session store maps to the id of a
    user of the document. *)
Theorem requireAuth_sound (w : World) (authorization : option jsstring)
        (user : User.t) (token : jsstring) :
  requireAuth w authorization = inl (user, token) ->
  (exists header, authorization = Some header /\ carriesToken header token)
  /\ token <> []
  /\ sessions_get token (sessions w) = Some (User.id user)
  /\ In user (users (db w)).
Proof.
  unfold requireAuth.
  destruct (nth_error _ 1) as [[|c t]|] eqn:Hsplit; try discriminate.
  destruct (sessions_get (c :: t) (sessions w)) as [userId|] eqn:S; [|discriminate].
  destruct (find _ _) as [u|] eqn:F; [|discriminate].
  intros [= <- <-]. apply find_some in F. destruct F as [Hin Hid].
  apply jsstring_eqb_eq in Hid. subst userId.
  split; [|repeat split; trivial; discriminate].
  destruct authorization as [header|]; [|discriminate].
  exists header. split; trivial. exact (splitSpace_second _ _ _ Hsplit).
Qed.

(** After a logout request, which is always answered, the header it
    carried is no longer accepted, whether or not the logout itself was
    authorized. *)
Theorem logout_revokes (env : Env) (w : World) (authorization : option jsstring) :
  exists r w',
    handle env w (PostLogout authorization) = Answered r w'
    /\ exists remaining, requireAuth w' authorization = inr remaining.
Proof.
  cbn [handle]. unfold authenticated, requireAuth.
  destruct (nth_error _ 1) as [[|c t]|];
    try (do 2 eexists; split; [reflexivity|]; cbn [db sessions]; eauto).
  destruct (sessions_get (c :: t) (sessions w)) as [userId|] eqn:S.
  - destruct (find _ _) as [u|] eqn:F; do 2 eexists;
      (split; [reflexivity|]); cbn [answered logout fst snd db sessions];
      rewrite sessions_get_delete; eauto.
  - do 2 eexists. split; [reflexivity|]. cbn [db sessions].
    rewrite S. eauto.
Qed.

(** The world a login or registration leaves accepts the token it issued. *)
Lemma session_opened (d : Db) (s : Sessions) (user : User.t) (token : jsstring) :
  In user (users d) -> token <> [] -> ~ In 32%N token ->
  exists u, requireAuth (mkWorld d (sessions_set token (User.id user) s))
                        (Some (lit "Bearer " ++ token)) = inl (u, token)
            /\ User.id u = User.id user.
Proof.
  intros Hin Hne Hsp. unfold requireAuth.
  change (lit "Bearer " ++ token) with (lit "Bearer" ++ 32%N :: token).
  rewrite splitSpace_scheme; trivial;
    [|vm_compute; intuition discriminate].
  cbn [nth_error db sessions app].
  destruct token as [|c t]; [now elim Hne|].
  rewrite sessions_get_set.
  destruct (find_exists (fun u => jsstring_eqb (User.id u) (User.id user))
                        (users d) user Hin (jsstring_eqb_refl _)) as (u & F).
  rewrite F. exists u. split; trivial.
  apply find_some in F. now apply jsstring_eqb_eq.
Qed.

(** A successful login issues a token that the next request can use: with
    a token that is not empty and has no space in it, [Bearer token] is
    accepted afterwards and resolves to a user with the id the login
    returned; the document is untouched. *)
Theorem login_opens_session (env : Env) (w : World) (reqBody : JsVal) :
  status (fst (login env w reqBody)) = 200 ->
  createToken env <> [] -> ~ In 32%N (createToken env) ->
  exists user u,
    fst (login env w reqBody) = json (BAuth (createToken env) (viewOf user))
    /\ db (snd (login env w reqBody)) = db w
    /\ requireAuth (snd (login env w reqBody))
                   (Some (lit "Bearer " ++ createToken env))
       = inl (u, createToken env)
    /\ User.id u = User.id user.
Proof.
  unfold login.
  destruct (negb (truthy _) || negb (truthy _)); [discriminate|].
  destruct (find _ _) as [user|] eqn:F; [|discriminate].
  intros _ Hne Hsp. cbn [fst snd].
  apply find_some in F. destruct F as [Hin _].
  destruct (session_opened (db w) (sessions w) user _ Hin Hne Hsp) as (u & A & I).
  exists user, u. repeat split; trivial.
Qed.

(** The same for a successful registration, which also leaves every earlier
    user and family in place and adds one user and one family whose only
    head is that user. *)
Theorem register_opens_session (env : Env) (w : World) (reqBody : JsVal)
        (r : Response) (w' : World) :
  register env w reqBody = Answered r w' ->
  status r = 200 ->
  createToken env <> [] -> ~ In 32%N (createToken env) ->
  exists user u,
    r = json (BAuth (createToken env) (viewOf user))
    /\ users (db w') = users (db w) ++ [user]
    /\ families (db w')
       = families (db w) ++ [Family.mk (User.familyId user) [User.id user]]
    /\ requireAuth w' (Some (lit "Bearer " ++ createToken env))
       = inl (u, createToken env)
    /\ User.id u = User.id user.
Proof.
  intros E Hr Hne Hsp.
  destruct (register_cases env w reqBody)
    as [(r0 & E0 & Hs) | [E0 | (phone & _ & _ & _ & _ & role & E0)]];
    rewrite E0 in E; try discriminate.
  - injection E as <- <-. destruct Hs as [Hs | Hs]; rewrite Hs in Hr; discriminate.
  - cbv zeta in E. injection E as <- <-.
    set (user := User.mk (randomUUID env 1) (prop reqBody "username")
                         (prop reqBody "password") (JStr phone) role
                         (randomUUID env 0)).
    set (d' := mkDb (users (db w) ++ [user])
                    (families (db w)
                     ++ [Family.mk (User.familyId user) [User.id user]])
                    (members (db w)) (logs (db w))).
    assert (Hin : In user (users d')).
    { cbn [d' users]. apply in_or_app. right. now left. }
    destruct (session_opened d' (sessions w) user _ Hin Hne Hsp) as (u & A & I).
    exists user, u. split; [reflexivity|]. split; [reflexivity|].
    split; [reflexivity|]. split; [exact A | exact I].
Qed.

(** Registering and then logging in with the same username and password,
    both primitive values, succeeds and returns the registered user. *)
Theorem register_then_login (env env' : Env) (w : World) (reqBody : JsVal)
        (r : Response) (w' : World) :
  register env w reqBody = Answered r w' ->
  status r = 200 ->
  isPrimitive (prop reqBody "username") = true ->
  isPrimitive (prop reqBody "password") = true ->
  exists user,
    r = json (BAuth (createToken env) (viewOf user))
    /\ fst (login env' w' reqBody) = json (BAuth (createToken env') (viewOf user)).
Proof.
  intros E Hr Pu Pp.
  destruct (register_cases env w reqBody)
    as [(r0 & E0 & Hs) | [E0 | (phone & _ & Tu & Tp & Hex & role & E0)]];
    rewrite E0 in E; try discriminate.
  - injection E as <- <-. destruct Hs as [Hs | Hs]; rewrite Hs in Hr; discriminate.
  - cbv zeta in E. injection E as <- <-.
    eexists. split; [reflexivity|].
    unfold login. rewrite Tu, Tp. cbn [negb orb db users].
    rewrite find_app_none.
    + cbn [find User.username User.password].
      now rewrite (strict_eq_refl _ Tu Pu), (strict_eq_refl _ Tp Pp).
    + clear E0. revert Hex. induction (users (db w)) as [|x l IH]; trivial.
      cbn [existsb]. intros Hex. apply orb_false_iff in Hex. destruct Hex as [-> Hex].
      cbn [andb orb]. now apply IH.
Qed.

End Sessions.

(** * The outbound call *)

Lemma nonEmptyString_false (s : jsstring) : nonEmptyString s = false <-> s = [].
Proof. destruct s; cbn; split; intros H; trivial; discriminate. Qed.

Section OutboundCallProperties.
Context {NC : NumberConv}.

Lemma formatted_normalized (phone : JsVal) (s : jsstring) :
  formatPhoneNumber phone = Returns s -> s <> [] -> isNormalizedPhone s.
Proof.
  intros H Hne. destruct (formatPhoneNumber_cases phone s H) as [E | (ds & E & L)].
  - contradiction.
  - now exists ds.
Qed.

(** The phones passed to the call service, and the first of them. *)
Lemma headPhones_of (heads : list User.t) (formatted : list jsstring) :
  Forall2 (fun h y => formatPhoneNumber (User.phone h) = Returns y) heads formatted ->
  headPhonesOf heads (filter nonEmptyString formatted)
  /\ Forall isNormalizedPhone (filter nonEmptyString formatted)
  /\ match filter nonEmptyString formatted with
     | first :: _ => firstHeadPhone heads first
     | [] => Forall (fun h => formatPhoneNumber (User.phone h) = Returns []) heads
     end.
Proof.
  induction 1 as [|h y heads formatted Hy _ (IH1 & IH2 & IH3)]; cbn [filter].
  - split; [constructor|]. split; constructor.
  - destruct (nonEmptyString y) eqn:E.
    + assert (Hne : y <> []) by (intros ->; discriminate).
      split; [now constructor|]. split.
      * constructor; trivial. exact (formatted_normalized _ _ Hy Hne).
      * exists [], h, heads. repeat split; trivial.
    + apply nonEmptyString_false in E. subst y.
      split; [now constructor|]. split; trivial.
      destruct (filter nonEmptyString formatted) as [|first rest].
      * now constructor.
      * destruct IH3 as (before & h' & rest' & -> & Hb & Hh & Hne).
        exists (h :: before), h', rest'. repeat split; trivial. now constructor.
Qed.

(** When a call is placed, the number called is a normalized phone: the
    member's own for a member who is not a minor and has one, otherwise
    that of the first head of family that has one, the member's own when
    no head has; the head phones passed along are those of the heads that
    have one, in order, all normalized. *)
Theorem callPayload_number (member : Member.t) (medication : Medication.t)
        (scheduledDoseTime : JsVal) (heads : list User.t) (minor : bool)
        (payload : CallPayload) :
  callPayload member medication scheduledDoseTime heads minor = Returns (Some payload) ->
  exists memberPhone,
    formatPhoneNumber (Member.phone member) = Returns memberPhone
    /\ headPhonesOf heads (head_of_family_phones payload)
    /\ isNormalizedPhone (phone_number payload)
    /\ Forall isNormalizedPhone (head_of_family_phones payload)
    /\ (minor = false -> memberPhone <> [] -> phone_number payload = memberPhone)
    /\ (minor = true \/ memberPhone = [] ->
        firstHeadPhone heads (phone_number payload)
        \/ (Forall (fun h => formatPhoneNumber (User.phone h) = Returns []) heads
            /\ phone_number payload = memberPhone)).
Proof.
  unfold callPayload.
  destruct (traverse _ heads) as [formatted| |] eqn:Hf; cbn [bind]; try discriminate.
  destruct (formatPhoneNumber (Member.phone member)) as [memberPhone| |] eqn:Hm;
    cbn [bind]; try discriminate.
  destruct (headPhones_of heads formatted (traverse_Forall2 _ _ _ Hf))
    as (H1 & H2 & H3).
  set (headPhones := filter nonEmptyString formatted) in *.
  destruct (negb (nonEmptyString _)) eqn:E; [discriminate|].
  apply negb_false_iff in E. intros [= <-].
  cbn [phone_number head_of_family_phones].
  exists memberPhone. split; trivial. split; trivial.
  split; [|split; [exact H2 | split]].
  - destruct (negb minor && nonEmptyString memberPhone) eqn:C.
    + apply andb_true_iff in C. destruct C as [_ C].
      apply (formatted_normalized _ _ Hm). intros ->. discriminate.
    + destruct headPhones as [|p ps]; cbn [nth_error] in *.
      * apply (formatted_normalized _ _ Hm). intros ->. discriminate.
      * now inversion H2.
  - intros -> Hne. cbn [negb andb].
    destruct (nonEmptyString memberPhone) eqn:C; trivial.
    apply nonEmptyString_false in C. contradiction.
  - intros Hc.
    assert (C : negb minor && nonEmptyString memberPhone = false).
    { destruct Hc as [-> | ->]; [reflexivity | apply andb_false_r]. }
    rewrite C. destruct headPhones as [|p ps]; cbn [nth_error]; auto.
Qed.

(** The call is given up exactly when neither the member nor any head of
    family has a phone with a digit in it. *)
Theorem callPayload_skipped (member : Member.t) (medication : Medication.t)
        (scheduledDoseTime : JsVal) (heads : list User.t) (minor : bool) :
  callPayload member medication scheduledDoseTime heads minor = Returns None
  <-> formatPhoneNumber (Member.phone member) = Returns []
      /\ Forall (fun h => formatPhoneNumber (User.phone h) = Returns []) heads.
Proof.
  unfold callPayload. split.
  - destruct (traverse _ heads) as [formatted| |] eqn:Hf; cbn [bind]; try discriminate.
    destruct (formatPhoneNumber (Member.phone member)) as [memberPhone| |] eqn:Hm;
      cbn [bind]; try discriminate.
    destruct (headPhones_of heads formatted (traverse_Forall2 _ _ _ Hf))
      as (_ & H2 & H3).
    destruct (filter nonEmptyString formatted) as [|p ps]; cbn [nth_error].
    + destruct (negb minor && nonEmptyString memberPhone) eqn:C.
      * apply andb_true_iff in C. destruct C as [_ C]. rewrite C. discriminate.
      * destruct (nonEmptyString memberPhone) eqn:C'; cbn [negb]; [discriminate|].
        apply nonEmptyString_false in C'. subst. now split.
    + assert (Hp : nonEmptyString p = true).
      { inversion H2 as [|? ? (ds & -> & _) _]; subst. reflexivity. }
      destruct (negb minor && nonEmptyString memberPhone) eqn:C.
      * apply andb_true_iff in C. destruct C as [_ C]. rewrite C. discriminate.
      * rewrite Hp. discriminate.
  - intros [Hm Hh].
    rewrite (traverse_map (fun h => formatPhoneNumber (User.phone h)) (fun _ => []))
      by (intros h Hin; rewrite Forall_forall in Hh; now apply Hh).
    cbn [bind]. rewrite Hm. cbn [bind].
    assert (F : filter nonEmptyString
                  (@List.map User.t jsstring (fun _ => []) heads) = []).
    { clear. induction heads; trivial. }
    cbv zeta. rewrite F. cbn [nth_error nonEmptyString andb negb].
    rewrite andb_false_r. reflexivity.
Qed.

End OutboundCallProperties.

(** * subtractMinutes *)









Section SubtractMinutesProperties.
Context {NC : NumberConv}.




End SubtractMinutesProperties.

(** * Worked instances *)


Lemma normalizeDoseTimes_idempotent_witness :
  let times := [lit "09:00"; lit "09:00"; lit "09:00"] in
  @normalizeDoseTimes integerConv (jint 3) (JArr [jstr "09:00"]) = Returns times
  /\ @normalizeDoseTimes integerConv (jint 3) (JArr (List.map JStr times))
     = Returns times.
Proof.
  cbv zeta. split; [vm_compute; reflexivity|].
  apply (@normalizeDoseTimes_idempotent integerConv (jint 3) (JArr [jstr "09:00"])).
  vm_compute. reflexivity.
Defined.

Lemma formatPhoneNumber_stable_witness :
  10 <= length (filter isDigit (lit "+91 (98765) 43210 x"))
  /\ exists p,
      @formatPhoneNumber integerConv (jstr "+91 (98765) 43210 x") = Returns p
      /\ @formatPhoneNumber integerConv (JStr p) = Returns p.
Proof.
  split; [vm_compute; lia|].
  apply (@formatPhoneNumber_stable integerConv). vm_compute. lia.
Defined.

Lemma formatPhoneNumber_short_grows_witness :
  1 <= length (filter isDigit (lit "12-345")) <= 8
  /\ @formatPhoneNumber integerConv (jstr "12-345") = Returns (lit "+9112345")
  /\ @formatPhoneNumber integerConv (jstr "+9112345") = Returns (lit "+919112345").
Proof.
  split; [vm_compute; lia|].
  apply (@formatPhoneNumber_short_grows integerConv (lit "12-345")). vm_compute. lia.
Defined.

Lemma requireAuth_sound_witness :
  exists user,
    requireAuth sessionWorld bearer = inl (user, lit "token-1")
    /\ (exists header, bearer = Some header /\ carriesToken header (lit "token-1"))
    /\ sessions_get (lit "token-1") (sessions sessionWorld) = Some (User.id user)
    /\ User.username user = jstr "asha"
    /\ In user (users (db sessionWorld)).
Proof.
  eexists.
  assert (E : requireAuth sessionWorld bearer = inl (_, lit "token-1"))
    by (vm_compute; reflexivity).
  destruct (requireAuth_sound sessionWorld bearer _ _ E) as (H1 & _ & H3 & H4).
  split; [exact E|]. split; [exact H1|]. split; [exact H3|].
  split; [reflexivity | exact H4].
Defined.

Lemma login_opens_session_witness :
  status (fst (login exampleEnv startWorld credentials)) = 200
  /\ exists user u,
      fst (login exampleEnv startWorld credentials)
      = json (BAuth (createToken exampleEnv) (viewOf user))
      /\ db (snd (login exampleEnv startWorld credentials)) = db startWorld
      /\ requireAuth (snd (login exampleEnv startWorld credentials))
                     (Some (lit "Bearer " ++ createToken exampleEnv))
         = inl (u, createToken exampleEnv)
      /\ User.id u = User.id user.
Proof.
  split; [reflexivity|].
  apply (login_opens_session exampleEnv startWorld credentials);
    [reflexivity | discriminate | vm_compute; intuition discriminate].
Defined.

Lemma register_opens_session_witness :
  exists r w' user u,
    @register integerConv exampleEnv startWorld newcomer = Answered r w'
    /\ status r = 200
    /\ r = json (BAuth (createToken exampleEnv) (viewOf user))
    /\ users (db w') = users (db startWorld) ++ [user]
    /\ families (db w')
       = families (db startWorld) ++ [Family.mk (User.familyId user) [User.id user]]
    /\ requireAuth w' (Some (lit "Bearer " ++ createToken exampleEnv))
       = inl (u, createToken exampleEnv)
    /\ User.id u = User.id user.
Proof.
  do 2 eexists.
  assert (E : @register integerConv exampleEnv startWorld newcomer = Answered _ _)
    by (vm_compute; reflexivity).
  destruct (@register_opens_session integerConv exampleEnv startWorld newcomer _ _ E
              eq_refl) as (user & u & H);
    [discriminate | vm_compute; intuition discriminate |].
  exists user, u. split; [exact E|]. split; [reflexivity | exact H].
Defined.

Lemma register_then_login_witness :
  exists r w' user,
    @register integerConv exampleEnv startWorld newcomer = Answered r w'
    /\ status r = 200
    /\ r = json (BAuth (createToken exampleEnv) (viewOf user))
    /\ fst (login exampleEnv w' newcomer)
       = json (BAuth (createToken exampleEnv) (viewOf user)).
Proof.
  do 2 eexists.
  assert (E : @register integerConv exampleEnv startWorld newcomer = Answered _ _)
    by (vm_compute; reflexivity).
  destruct (@register_then_login integerConv exampleEnv exampleEnv startWorld newcomer
              _ _ E eq_refl eq_refl eq_refl) as (user & H).
  exists user. split; [exact E|]. split; [reflexivity | exact H].
Defined.

Lemma handle_logs_for_caller_witness :
  let request := PostConsume bearer (lit "m1") (lit "med1") consumeOne in
  exists w' entries,
    after (@handle integerConv exampleEnv sessionWorld request) = Some w'
    /\ logs (db w') = entries ++ logs (db sessionWorld)
    /\ length entries = 2
    /\ Forall (fun e => Log.familyId e = lit "f1") entries.
Proof.
  cbv zeta. eexists.
  assert (E : after (@handle integerConv exampleEnv sessionWorld
                       (PostConsume bearer (lit "m1") (lit "med1") consumeOne))
              = Some _) by (vm_compute; reflexivity).
  destruct (@handle_logs_for_caller integerConv exampleEnv sessionWorld _ _ E)
    as (entries & L & H).
  exists entries. split; [exact E|]. split; [exact L|].
  change (logs (db sessionWorld)) with (@nil Log.t) in L.
  rewrite app_nil_r in L. subst entries.
  split; [reflexivity|]. repeat constructor.
Defined.

Lemma error_leaves_document_witness :
  let request := PostConsume bearer (lit "m9") (lit "med1") (JObj []) in
  exists r w',
    @handle integerConv exampleEnv sessionWorld request = Answered r w'
    /\ status r = 404
    /\ db w' = db sessionWorld.
Proof.
  cbv zeta. do 2 eexists.
  assert (E : @handle integerConv exampleEnv sessionWorld
                (PostConsume bearer (lit "m9") (lit "med1") (JObj []))
              = Answered _ _) by (vm_compute; reflexivity).
  split; [exact E|]. split; [reflexivity|].
  apply (proj1 (@error_leaves_document integerConv exampleEnv sessionWorld _ _ _ E)).
  vm_compute. lia.
Defined.

Lemma other_families_untouched_witness :
  let request := PostConsume bearer (lit "m1") (lit "med1") (JObj []) in
  exists w',
    after (@handle integerConv exampleEnv sessionWorld request) = Some w'
    /\ filter (inFamily (lit "f2")) (members (db w'))
       = filter (inFamily (lit "f2")) (members (db sessionWorld))
    /\ length (filter (inFamily (lit "f2")) (members (db w'))) = 2.
Proof.
  cbv zeta. eexists.
  assert (E : after (@handle integerConv exampleEnv sessionWorld
                       (PostConsume bearer (lit "m1") (lit "med1") (JObj [])))
              = Some _) by (vm_compute; reflexivity).
  split; [exact E|]. split; [|reflexivity].
  apply (@other_families_untouched integerConv exampleEnv sessionWorld
           (PostConsume bearer (lit "m1") (lit "med1") (JObj [])) (lit "f2") _);
    [|exact E].
  intros user token A. vm_compute in A. injection A as <- _.
  vm_compute. discriminate.
Defined.

Lemma run_keeps_records_witness :
  exists sanitized newUsers newFamilies newEntries,
    traverse (@sanitizeUser integerConv) (users exampleDb) = Returns sanitized
    /\ users (db unnamedMedicationWorld) = sanitized ++ newUsers
    /\ families (db unnamedMedicationWorld) = families exampleDb ++ newFamilies
    /\ logs (db unnamedMedicationWorld) = newEntries ++ logs exampleDb.
Proof.
  apply (@run_keeps_records integerConv exampleDb unnamedMedicationWorld).
  apply reach_step with (w := sessionWorld) (env := exampleEnv)
                        (req := unnamedMedicationRequest);
    [exact sessionWorld_reachable | reflexivity].
Defined.

Lemma consume_supply_floor_witness :
  let reqBody := JObj [field "change" (jint (-40))] in
  findMedication exampleDb (User.familyId asha) (lit "m1") (lit "med1") = Some syrup
  /\ exists d' med',
      after (@consume integerConv exampleEnv exampleDb asha (lit "m1") (lit "med1")
                      reqBody) = Some d'
      /\ findMedication d' (User.familyId asha) (lit "m1") (lit "med1") = Some med'
      /\ Medication.supply med' = jint 0.
Proof.
  cbv zeta. split; [reflexivity|].
  destruct (@consume_supply_floor integerConv exampleEnv exampleDb asha
              (lit "m1") (lit "med1") (JObj [field "change" (jint (-40))]) syrup
              eq_refl) as (d' & med' & A & F & _ & _).
  exists d', med'. split; [exact A|]. split; [exact F|].
  vm_compute in A. injection A as <-. vm_compute in F. injection F as <-.
  reflexivity.
Defined.

Lemma consume_restock_never_warns_witness :
  let reqBody := JObj [field "change" (jint 20)] in
  findMedication exampleDb (User.familyId asha) (lit "m1") (lit "med1") = Some syrup
  /\ Medication.supply syrup = jint 6
  /\ (0 <= 20)%Z
  /\ exists d' newEntries,
      after (@consume integerConv exampleEnv exampleDb asha (lit "m1") (lit "med1")
                      reqBody) = Some d'
      /\ logs d' = newEntries ++ logs exampleDb
      /\ countWarnings newEntries = 0
      /\ length newEntries = 1.
Proof.
  cbv zeta. split; [reflexivity|]. split; [reflexivity|]. split; [lia|].
  destruct (@consume_restock_never_warns integerConv exampleEnv exampleDb asha
              (lit "m1") (lit "med1") (JObj [field "change" (jint 20)]) syrup 6%Z 20%Z
              eq_refl eq_refl eq_refl) as (d' & newEntries & A & L & C & H); [lia|].
  exists d', newEntries. split; [exact A|]. split; [exact L|]. split; [exact C|].
  destruct (@consume integerConv exampleEnv exampleDb asha (lit "m1") (lit "med1")
              (JObj [field "change" (jint 20)])) as [r d''| |] eqn:E;
    try (vm_compute in E; discriminate).
  cbn [after] in A. injection A as ->. exact (H r eq_refl).
Defined.

Lemma consume_changes_only_stock_witness :
  exists d',
    after (@consume integerConv exampleEnv exampleDb asha (lit "m1") (lit "med1")
                    consumeOne) = Some d'
    /\ Forall2 sameButStocks (members exampleDb) (members d')
    /\ findMedication d' (lit "f1") (lit "m1") (lit "med1")
       = Some (Medication.with_stock syrup (jint 5) (jint 1)).
Proof.
  eexists.
  assert (E : after (@consume integerConv exampleEnv exampleDb asha (lit "m1")
                       (lit "med1") consumeOne) = Some _) by (vm_compute; reflexivity).
  split; [exact E|]. split; [|reflexivity].
  exact (@consume_changes_only_stock integerConv exampleEnv exampleDb asha
           (lit "m1") (lit "med1") consumeOne _ E).
Defined.

Lemma updateMember_keeps_identity_witness :
  exists d',
    after (@updateMember integerConv exampleEnv exampleDb asha (lit "m2") updateRequest)
    = Some d'
    /\ Forall2 (fun before after =>
                  Member.id after = Member.id before
                  /\ Member.familyId after = Member.familyId before
                  /\ (ownedBy (lit "m2") (User.familyId asha) before = false ->
                      after = before))
               (members exampleDb) (members d')
    /\ List.map Member.id (members d') = [lit "m1"; lit "m2"; lit "m3"; lit "m4"].
Proof.
  eexists.
  assert (E : after (@updateMember integerConv exampleEnv exampleDb asha (lit "m2")
                       updateRequest) = Some _) by (vm_compute; reflexivity).
  split; [exact E|]. split; [|reflexivity].
  exact (@updateMember_keeps_identity integerConv exampleEnv exampleDb asha
           (lit "m2") updateRequest _ E).
Defined.

Lemma reachable_schedules_wellformed_witness :
  exists member med times,
    In member (members (db sessionWorld))
    /\ In med (Member.medications member)
    /\ Medication.name med = jstr "Syrup"
    /\ Medication.timesPerDay med = jint 2
    /\ Medication.doseTimes med = JArr (List.map JStr times)
    /\ length times = 2
    /\ Forall (fun s => isTimeString s = true) times.
Proof.
  set (member := nth 0 (members (db sessionWorld)) child).
  set (med := nth 0 (Member.medications member) syrup).
  assert (Hm : In member (members (db sessionWorld))) by (left; reflexivity).
  assert (Hmed : In med (Member.medications member)) by (left; reflexivity).
  destruct (@reachable_schedules_wellformed integerConv exampleDb sessionWorld
              member med sessionWorld_reachable Hm Hmed)
    as (q & times & Ht & _ & Hd & Hl & _ & Hw).
  exists member, med, times. split; [exact Hm|]. split; [exact Hmed|].
  split; [reflexivity|]. split; [reflexivity|]. split; [exact Hd|].
  split; [|exact Hw].
  vm_compute in Ht. injection Ht as <-. exact Hl.
Defined.

Lemma reachable_integer_schedules_witness :
  exists member med,
    In member (members (db sessionWorld))
    /\ In med (Member.medications member)
    /\ Medication.timesPerDay med = jint 2
    /\ lengthMatches med = true.
Proof.
  set (member := nth 0 (members (db sessionWorld)) child).
  set (med := nth 0 (Member.medications member) syrup).
  assert (Hm : In member (members (db sessionWorld))) by (left; reflexivity).
  assert (Hmed : In med (Member.medications member)) by (left; reflexivity).
  exists member, med. split; [exact Hm|]. split; [exact Hmed|].
  split; [reflexivity|].
  exact (@reachable_integer_schedules integerConv exampleDb sessionWorld member med 2%Z
           sessionWorld_reachable Hm Hmed eq_refl).
Defined.

Lemma restart_keeps_schedules_witness :
  exists d',
    @sanitizeDb integerConv (db sessionWorld) = Returns d'
    /\ List.map Member.medications (members d')
       = List.map Member.medications (members (db sessionWorld)).
Proof.
  exact (@restart_keeps_schedules integerConv exampleDb sessionWorld
           sessionWorld_reachable).
Defined.

Lemma reminder_changes_only_log_witness :
  exists w',
    after (@handle integerConv exampleEnv sessionWorld
             (PostTrigger bearer reminderRequest)) = Some w'
    /\ members (db w') = members (db sessionWorld)
    /\ users (db w') = users (db sessionWorld)
    /\ families (db w') = families (db sessionWorld)
    /\ length (logs (db w')) = 3.
Proof.
  destruct (@reminder_changes_only_log integerConv exampleDb sessionWorld exampleEnv
              bearer reminderRequest sessionWorld_reachable)
    as (w' & A & H1 & H2 & H3).
  exists w'. split; [exact A|]. split; [exact H1|]. split; [exact H2|].
  split; [exact H3|].
  vm_compute in A. injection A as <-. reflexivity.
Defined.

Lemma reminder_reports_wellformed_time_witness :
  exists view w' s,
    @handle integerConv exampleEnv sessionWorld (PostTrigger bearer reminderRequest)
    = Answered (json (BReminder view)) w'
    /\ rv_scheduledDoseTime view = JStr s
    /\ isTimeString s = true.
Proof.
  do 2 eexists.
  assert (E : @handle integerConv exampleEnv sessionWorld
                (PostTrigger bearer reminderRequest)
              = Answered (json (BReminder _)) _) by (vm_compute; reflexivity).
  destruct (@reminder_reports_wellformed_time integerConv exampleDb sessionWorld
              exampleEnv bearer reminderRequest _ _
              sessionWorld_reachable E) as (s & H1 & H2).
  exists s. split; [exact E|]. now split.
Defined.

Lemma reachable_phones_normalized_witness :
  Forall (fun u => PhoneOk (User.phone u)) (users (db unnamedMedicationWorld))
  /\ Forall (fun m => PhoneOk (Member.phone m)) (members (db unnamedMedicationWorld)).
Proof.
  apply (@reachable_phones_normalized integerConv exampleDb unnamedMedicationWorld).
  apply reach_step with (w := sessionWorld) (env := exampleEnv)
                        (req := unnamedMedicationRequest);
    [exact sessionWorld_reachable | reflexivity].
Defined.

Lemma callPayload_number_witness :
  exists payload,
    @callPayload integerConv child syrup (jstr "20:00") [asha; ravi] true
    = Returns (Some payload)
    /\ phone_number payload = lit "+919876543210"
    /\ @firstHeadPhone integerConv [asha; ravi] (phone_number payload)
    /\ @headPhonesOf integerConv [asha; ravi] (head_of_family_phones payload)
    /\ head_of_family_phones payload = [lit "+919876543210"; lit "+919876500000"].
Proof.
  eexists.
  assert (E : @callPayload integerConv child syrup (jstr "20:00") [asha; ravi] true
              = Returns (Some _)) by (vm_compute; reflexivity).
  destruct (@callPayload_number integerConv child syrup (jstr "20:00") [asha; ravi]
              true _ E) as (memberPhone & _ & H1 & _ & _ & _ & H5).
  split; [exact E|]. split; [reflexivity|]. split; [|split; [exact H1 | reflexivity]].
  destruct (H5 (or_introl eq_refl)) as [H | [H _]]; [exact H|].
  inversion H as [|? ? Hasha _]. vm_compute in Hasha. discriminate.
Defined.

